(** * PII-Shield: a shallow embedding of the synchronization engine

    Source files embedded here (paths relative to [src/pii_shield]):
    - [models.py]                                  -> [Module Models]
    - [routers.py]                                 -> [Module Routers]
    - [sync/__init__.py]                           -> [Module Sync]
    - [sync/publisher.py]                          -> [Module Publisher]
    - [sync/consumer.py]                           -> [Module Consumer]
    - [apps.py]                                    -> [Module Apps]
    - [middleware.py]                              -> [Module Middleware]
    - [management/commands/cleanup_expired_data.py]-> [Module Cleanup]

    Conventions.
    - A Python value is a term of [value].  A model instance is a [VObj]
      carrying its class, its primary key and its attribute namespace
      (a [gmap string value], as [instance.__dict__]).
    - A [datetime] is an integer count of microseconds (the resolution of
      Python's [datetime]); [timedelta(seconds=n)] is [n * 1000000].
    - Code that reads or writes the process (settings, clock, database,
      message bus, logger) runs in the monad [M], a state monad over
      [World] whose results are [Ok v] or [Raise e].
    - The database is one table of saved instances, keyed by class name
      and primary key; [save()] is an upsert on that key. *)

From Stdlib Require Import ZArith Lia Bool.
From stdpp Require Import base strings list gmap.

Set Warnings "-register-all".
Open Scope Z_scope.

(** ** Python data *)

(** A field descriptor of [instance._meta.get_fields()], with the flags
    [sync_data] reads. *)
Record Field := MkField {
  field_name   : string;
  is_relation  : bool;
  concrete     : bool;
  one_to_many  : bool;
  many_to_many : bool;
  many_to_one  : bool;
  one_to_one   : bool
}.

(** A class: its [__name__], its method resolution order
    ([inspect.getmro], the class itself first) and its [_meta] fields. *)
Record PyClass := MkClass {
  cls_name   : string;
  cls_mro    : list string;
  cls_fields : list Field
}.

Record Obj (V : Type) := MkObj {
  obj_class : PyClass;
  obj_pk    : Z;
  obj_attrs : gmap string V
}.
Arguments MkObj {V} _ _ _.
Arguments obj_class {V} _.
Arguments obj_pk {V} _.
Arguments obj_attrs {V} _.

Inductive value :=
| VNone
| VBool (b : bool)
| VInt (z : Z)
| VStr (s : string)
| VTime (t : Z)                (* datetime, microseconds *)
| VObj (o : Obj value)         (* a model instance *)
| VManager (all : value)       (* a related manager; [all] is what [.all()] returns *)
| VQuerySet (rows : list value)
| VList (items : list value)
| VTuple (items : list value).

Abbreviation instance := (Obj value).

(** Python truthiness ([if x:]).  Model instances define neither
    [__bool__] nor [__len__], so they are truthy. *)
Definition truthy (v : value) : bool :=
  match v with
  | VNone => false
  | VBool b => b
  | VInt z => negb (z =? 0)
  | VStr s => negb (String.eqb s "")
  | VTime _ => true
  | VObj _ => true
  | VManager _ => true
  | VQuerySet rows => negb (Nat.eqb (length rows) 0)
  | VList items => negb (Nat.eqb (length items) 0)
  | VTuple items => negb (Nat.eqb (length items) 0)
  end.

(** [hasattr(v, name)] and [setattr] on the attributes [sync_data] probes:
    only model instances carry them. *)
Definition hasattr (v : value) (name : string) : bool :=
  match v with
  | VObj o => bool_decide (is_Some (obj_attrs o !! name))
  | _ => false
  end.

Definition setattr (o : instance) (name : string) (v : value) : instance :=
  MkObj (obj_class o) (obj_pk o) (<[name := v]> (obj_attrs o)).

(** [isinstance(v, C)] for a class named [c]. *)
Definition isinstance (v : value) (c : string) : bool :=
  match v with
  | VObj o => bool_decide (c ∈ cls_mro (obj_class o))
  | _ => false
  end.

Definition timedelta_seconds (n : Z) : Z := n * 1000000.

(** ** Settings: the [PII_SHIELD] dictionary

    Every level is optional, as every read in the source goes through
    [getattr(settings, "PII_SHIELD", {})] and [dict.get(key, default)]. *)

Record SessionConf := MkSessionConf {
  SESSION_timeout           : option Z;
  SESSION_refresh_threshold : option Z
}.

Record ChannelsConf := MkChannelsConf {
  CHANNELS_prefix  : option string;
  CHANNELS_default : option string
}.

Record SyncConf := MkSyncConf {
  SYNC_batch_size     : option Z;
  SYNC_max_retries    : option Z;
  SYNC_retry_delay    : option Z;
  SYNC_backoff_factor : option Z
}.

Record AdvancedConf := MkAdvancedConf {
  ADVANCED_allow_mixed_relations : option bool;
  ADVANCED_auto_reconnect        : option bool;
  ADVANCED_excluded_paths        : option (list string);
  ADVANCED_waiting_view          : option string;
  ADVANCED_redirect_session_key  : option string
}.

Record PiiShield := MkPiiShield {
  MODE     : option string;
  SESSION  : option SessionConf;
  CHANNELS : option ChannelsConf;
  SYNC     : option SyncConf;
  ADVANCED : option AdvancedConf
}.

(** [None] when the Django settings have no [PII_SHIELD] attribute. *)
Abbreviation Settings := (option PiiShield).

(** [getattr(settings, "PII_SHIELD", {}).get(section, {}).get(key, dflt)] *)
Definition conf_opt {S A : Type} (st : option PiiShield)
    (section : PiiShield → option S) (key : S → option A) : option A :=
  match st with
  | Some pii => match section pii with Some s => key s | None => None end
  | None => None
  end.

Definition conf {S A : Type} (st : option PiiShield)
    (section : PiiShield → option S) (key : S → option A) (dflt : A) : A :=
  match conf_opt st section key with Some a => a | None => dflt end.

(** The configured [MODE], if any, and
    [getattr(settings, "PII_SHIELD", {}).get("MODE", dflt)]. *)
Definition configured_mode (st : option PiiShield) : option string :=
  match st with
  | Some pii => MODE pii
  | None => None
  end.

Definition mode_or (st : option PiiShield) (dflt : string) : string :=
  match configured_mode st with
  | Some m => m
  | None => dflt
  end.

(** ** The process state *)

Inductive exn :=
| AttributeError (what : string)
| ImportError (name : string)
| DatabaseError
| TransportError
| SerializationError
| UnicodeDecodeError
| NoReverseMatch (view : string)
| ValueError.

Inductive result (A : Type) :=
| Ok (a : A)
| Raise (e : exn).
Arguments Ok {A} _.
Arguments Raise {A} _.

Inductive LogEntry :=
| LDebug (msg : string)
| LInfo (msg : string)
| LWarning (msg : string)
| LError (msg : string)
| LException (msg : string) (e : exn).   (* [logger.exception] *)

Record World := MkWorld {
  settings  : Settings;
  now       : Z;                            (* [timezone.now()] *)
  db        : list instance;                (* saved rows *)
  bus_up    : bool;                         (* is Redis reachable? *)
  receivers : Z;                            (* what [redis.publish] returns *)
  published : list (string * list instance);(* channel, serialized batch *)
  log       : list LogEntry;
  slept     : list Z;                       (* [time.sleep] calls, microseconds *)
  calls     : list (value * nat);           (* arguments of each [sync_data] call *)
  registry  : list PyClass;                 (* [_REGISTERED_MODELS] *)
  installed : list PyClass;                 (* [apps.get_models()] *)
  urlconf   : gmap string string            (* view name -> path, for [reverse] *)
}.

Definition set_db (f : list instance → list instance) (w : World) : World :=
  MkWorld (settings w) (now w) (f (db w)) (bus_up w) (receivers w) (published w)
          (log w) (slept w) (calls w) (registry w) (installed w) (urlconf w).

Definition set_now (f : Z → Z) (w : World) : World :=
  MkWorld (settings w) (f (now w)) (db w) (bus_up w) (receivers w) (published w)
          (log w) (slept w) (calls w) (registry w) (installed w) (urlconf w).

Definition set_published
    (f : list (string * list instance) → list (string * list instance))
    (w : World) : World :=
  MkWorld (settings w) (now w) (db w) (bus_up w) (receivers w) (f (published w))
          (log w) (slept w) (calls w) (registry w) (installed w) (urlconf w).

Definition set_log (f : list LogEntry → list LogEntry) (w : World) : World :=
  MkWorld (settings w) (now w) (db w) (bus_up w) (receivers w) (published w)
          (f (log w)) (slept w) (calls w) (registry w) (installed w) (urlconf w).

Definition set_slept (f : list Z → list Z) (w : World) : World :=
  MkWorld (settings w) (now w) (db w) (bus_up w) (receivers w) (published w)
          (log w) (f (slept w)) (calls w) (registry w) (installed w) (urlconf w).

Definition set_calls (f : list (value * nat) → list (value * nat)) (w : World) : World :=
  MkWorld (settings w) (now w) (db w) (bus_up w) (receivers w) (published w)
          (log w) (slept w) (f (calls w)) (registry w) (installed w) (urlconf w).

(** ** The monad of effectful code *)

Definition M (A : Type) : Type := World → World * result A.

Definition ret {A} (a : A) : M A := fun w => (w, Ok a).
Definition raise {A} (e : exn) : M A := fun w => (w, Raise e).

Definition bind {A B} (m : M A) (k : A → M B) : M B :=
  fun w =>
    match m w with
    | (w', Ok a) => k a w'
    | (w', Raise e) => (w', Raise e)
    end.

(** [try: m  except Exception as e: h e] *)
Definition try_except {A} (m : M A) (h : exn → M A) : M A :=
  fun w =>
    match m w with
    | (w', Ok a) => (w', Ok a)
    | (w', Raise e) => h e w'
    end.

Declare Scope py_scope.
Delimit Scope py_scope with py.
Notation "x <- m ;; k" := (bind m (fun x => k))
  (at level 100, m at next level, right associativity) : py_scope.
Notation "m ;;; k" := (bind m (fun _ => k))
  (at level 100, right associativity) : py_scope.

Definition get_world : M World := fun w => (w, Ok w).
Definition modify (f : World → World) : M unit := fun w => (f w, Ok tt).

Definition logger (e : LogEntry) : M unit := modify (set_log (fun l => l ++ [e])).

(** [time.sleep(d)], with [d] in microseconds: the call is recorded and
    the clock moves on by [d]. *)
Definition sleep (d : Z) : M unit :=
  modify (fun w => set_now (fun t => t + d) (set_slept (fun l => l ++ [d]) w)).

(** [for x in xs: body x], stopping at the first exception. *)
Fixpoint for_each {A} (xs : list A) (body : A → M unit) : M unit :=
  match xs with
  | [] => ret tt
  | x :: xs' => (body x ;;; for_each xs' body)%py
  end.

(** [with transaction.atomic(): m].  An exception leaving the block rolls
    the database back to its state on entry; nothing else is undone. *)
Definition atomic {A} (m : M A) : M A :=
  fun w =>
    match m w with
    | (w', Ok a) => (w', Ok a)
    | (w', Raise e) => (set_db (fun _ => db w) w', Raise e)
    end.

(** ** The database *)

Definition same_row (a b : instance) : bool :=
  String.eqb (cls_name (obj_class a)) (cls_name (obj_class b))
  && (obj_pk a =? obj_pk b).

(** [instance.save()]: update the row with this class and key, or insert. *)
Fixpoint db_save (o : instance) (rows : list instance) : list instance :=
  match rows with
  | [] => [o]
  | r :: rows' => if same_row o r then o :: rows' else r :: db_save o rows'
  end.

Fixpoint db_get (o : instance) (rows : list instance) : option instance :=
  match rows with
  | [] => None
  | r :: rows' => if same_row o r then Some r else db_get o rows'
  end.

(** Copy the columns named in [fields] from [o] into the stored row [r]. *)
Fixpoint copy_fields (fields : list string) (o r : instance) : instance :=
  match fields with
  | [] => r
  | f :: fields' =>
      let r' := copy_fields fields' o r in
      match obj_attrs o !! f with
      | Some v => setattr r' f v
      | None => r'
      end
  end.

(** The rows after [instance.save(update_fields=fields)]; [None] when no
    row has this key. *)
Fixpoint db_update (fields : list string) (o : instance) (rows : list instance)
    : option (list instance) :=
  match rows with
  | [] => None
  | r :: rows' =>
      if same_row o r then Some (copy_fields fields o r :: rows')
      else cons r <$> db_update fields o rows'
  end.

Definition save (v : value) : M unit :=
  match v with
  | VObj o => modify (set_db (db_save o))
  | _ => raise (AttributeError "save")
  end.

Definition save_update_fields (o : instance) (fields : list string) : M unit :=
  fun w =>
    match db_update fields o (db w) with
    | Some rows => (set_db (fun _ => rows) w, Ok tt)
    | None => (w, Raise DatabaseError)
    end.

Definition expires_of (o : instance) : option Z :=
  match obj_attrs o !! "data_expires_at" with
  | Some (VTime t) => Some t
  | _ => None
  end.

(** ** models.py *)

Module Models.

(** [PIIModel.get_expiration_time()] *)
Definition get_expiration_time : M Z :=
  (w <- get_world ;;
   let session_timeout := conf (settings w) SESSION SESSION_timeout 1800 in
   ret (now w + timedelta_seconds session_timeout))%py.

(** [PIIModel.refresh_expiration(self)]; returns [self] as mutated. *)
Definition refresh_expiration (self : instance) : M instance :=
  (t <- get_expiration_time ;;
   let self' := setattr self "data_expires_at" (VTime t) in
   save_update_fields self' ["data_expires_at"] ;;;
   ret self')%py.

End Models.

(** ** routers.py *)

Module Routers.

(** [PIIRouter._is_pii_model(model)] *)
Definition _is_pii_model (model : PyClass) : bool :=
  bool_decide ("PIIModel" ∈ cls_mro model)
  && negb (String.eqb (cls_name model) "PIIModel").

(** [None] is "use the default database". *)
Definition db_for_read (model : PyClass) : option string :=
  if _is_pii_model model then Some "frontend" else None.

Definition db_for_write (model : PyClass) : option string :=
  if _is_pii_model model then Some "frontend" else None.

(** [PIIRouter.allow_relation(obj1, obj2)]; [None] lets Django decide. *)
Definition allow_relation (st : option PiiShield) (obj1 obj2 : value)
    : option bool :=
  if isinstance obj1 "PIIModel" && isinstance obj2 "PIIModel" then Some true
  else
    let allow_mixed := conf st ADVANCED ADVANCED_allow_mixed_relations false in
    if allow_mixed then Some true
    else if isinstance obj1 "PIIModel" || isinstance obj2 "PIIModel"
         then Some false
         else None.

(** [PIIRouter.allow_migrate(db, app_label, model_name)].  [get_model] is
    [apps.get_model], [None] where it raises [LookupError]. *)
Definition allow_migrate (get_model : string → string → option PyClass)
    (db app_label : string) (model_name : option string) : option bool :=
  match model_name with
  | None => None
  | Some name =>
      match get_model app_label name with
      | None => None
      | Some model =>
          if _is_pii_model model then Some (String.eqb db "frontend")
          else Some (negb (String.eqb db "frontend"))
      end
  end.

End Routers.

(** ** sync/__init__.py *)

Module Sync.

(** Python compares classes by identity.  A class is here what its
    record says, so two classes are the same when every component is. *)
Definition field_eqb (f g : Field) : bool :=
  String.eqb (field_name f) (field_name g)
  && Bool.eqb (is_relation f) (is_relation g)
  && Bool.eqb (concrete f) (concrete g)
  && Bool.eqb (one_to_many f) (one_to_many g)
  && Bool.eqb (many_to_many f) (many_to_many g)
  && Bool.eqb (many_to_one f) (many_to_one g)
  && Bool.eqb (one_to_one f) (one_to_one g).

Fixpoint list_eqb {A} (eqb : A → A → bool) (l l' : list A) : bool :=
  match l, l' with
  | [], [] => true
  | x :: l, y :: l' => eqb x y && list_eqb eqb l l'
  | _, _ => false
  end.

Definition class_eqb (c c' : PyClass) : bool :=
  String.eqb (cls_name c) (cls_name c')
  && list_eqb String.eqb (cls_mro c) (cls_mro c')
  && list_eqb field_eqb (cls_fields c) (cls_fields c').

(** [c in cs] *)
Definition class_in (c : PyClass) (cs : list PyClass) : bool :=
  existsb (class_eqb c) cs.

Definition set_registry (f : list PyClass → list PyClass) (w : World) : World :=
  MkWorld (settings w) (now w) (db w) (bus_up w) (receivers w) (published w)
          (log w) (slept w) (calls w) (f (registry w)) (installed w) (urlconf w).

Section Registry.

(** [_REGISTERED_MODELS] is a set: [registry] holds it as
    [list(_REGISTERED_MODELS)] gives it.  The order of that list is the
    order of the set's hash table, and it may be another one after an
    element has been added: [enumerate] stands for it, a rearrangement
    about which nothing else is known. *)
Variable enumerate : list PyClass → list PyClass.

(** [register_model(model_class)]: [_REGISTERED_MODELS.add(model_class)],
    which leaves the set as it is when the class is in it. *)
Definition register_model (model_class : PyClass) : M PyClass :=
  (modify (set_registry (fun r => if class_in model_class r then r
                                  else enumerate (r ++ [model_class]))) ;;;
   ret model_class)%py.

End Registry.

Definition get_registered_models : M (list PyClass) :=
  (w <- get_world ;; ret (registry w))%py.

End Sync.

(** ** sync/publisher.py *)

Module Publisher.

(** [self.redis.publish(full_channel, message)] *)
Definition redis_publish (full_channel : string) (message : list instance) : M Z :=
  fun w =>
    if bus_up w
    then (set_published (fun p => p ++ [(full_channel, message)]) w, Ok (receivers w))
    else (w, Raise TransportError).

(** [serializers.serialize("json", [instance])]: the text is represented
    by the instances it encodes. *)
Definition serialize (batch : list value) : M (list instance) :=
  fun w =>
    (w, foldr (fun v acc =>
                 match v, acc with
                 | VObj o, Ok os => Ok (o :: os)
                 | VObj _, Raise e => Raise e
                 | _, _ => Raise SerializationError
                 end) (Ok []) batch).

(** [Publisher.publish(channel, message)] *)
Definition publish (channel : string) (message : list instance) : M Z :=
  try_except
    (w <- get_world ;;
     let prefix := conf (settings w) CHANNELS CHANNELS_prefix "pii_shield" in
     let full_channel := (prefix +:+ ":" +:+ channel)%string in
     result <- redis_publish full_channel message ;;
     logger (LDebug "Published message to channel") ;;;
     ret result)%py
    (fun e => (logger (LException "Error publishing message to channel" e) ;;;
               raise e)%py).

(** [Publisher.publish_model(instance, channel=None)] *)
Definition publish_model (inst : value) (channel : option string) : M Z :=
  try_except
    (serialized <- serialize [inst] ;;
     w <- get_world ;;
     let channel :=
       match channel with
       | Some c => c
       | None => conf (settings w) CHANNELS CHANNELS_default "default"
       end in
     publish channel serialized)%py
    (fun e => (logger (LException "Error publishing model" e) ;;; raise e)%py).

(** [getattr(instance, name)] without a default. *)
Definition getattr (v : value) (name : string) : M value :=
  match v with
  | VObj o =>
      match obj_attrs o !! name with
      | Some x => ret x
      | None => raise (AttributeError name)
      end
  | _ => raise (AttributeError name)
  end.

(** [manager.all()] *)
Definition manager_all (manager : value) : M value :=
  match manager with
  | VManager all => ret all
  | _ => raise (AttributeError "all")
  end.

Definition get_fields (v : value) : list Field :=
  match v with
  | VObj o => cls_fields (obj_class o)
  | _ => []
  end.

(** Lines 199-203: the two guarded assignments. *)
Definition stamp (inst : value) (session_id : value) (expiration_time : Z) : value :=
  let inst1 :=
    match inst with
    | VObj o => if hasattr inst "session_id"
                then VObj (setattr o "session_id" session_id) else inst
    | _ => inst
    end in
  match inst1 with
  | VObj o => if hasattr inst1 "data_expires_at"
              then VObj (setattr o "data_expires_at" (VTime expiration_time))
              else inst1
  | _ => inst1
  end.

(** Lines 214-234, for one field; [recurse] is [sync_data] at [depth - 1]. *)
Definition follow_field (recurse : value → M bool) (inst : value) (field : Field)
    : M unit :=
  if is_relation field && concrete field then
    if one_to_many field || many_to_many field then
      (manager <- getattr inst (field_name field +:+ "_set")%string ;;
       related_instances <- manager_all manager ;;
       recurse related_instances ;;;
       ret tt)%py
    else if many_to_one field || one_to_one field then
      (related_instance <- getattr inst (field_name field) ;;
       if truthy related_instance
       then (recurse related_instance ;;; ret tt)%py
       else ret tt)%py
    else ret tt
  else ret tt.

(** Lines 198-234, the body of [for instance in instances].  [recurse] is
    [sync_data] at [depth - 1]; it is absent when [depth > 0] fails. *)
Definition process_instance (recurse : option (value → M bool))
    (session_id : value) (expiration_time : Z) (include_related : bool)
    (inst : value) : M unit :=
  let inst := stamp inst session_id expiration_time in
  (save inst ;;;
   publish_model inst None ;;;
   match recurse with
   | Some recurse =>
       if include_related
       then for_each (get_fields inst) (follow_field recurse inst)
       else ret tt
   | None => ret tt
   end)%py.

(** [sync_data], by recursion on [depth]; a [depth] that is not positive
    behaves as 0, since the only test on it is [depth > 0].  Each call
    is recorded in [calls] with its argument and its depth. *)
Fixpoint sync_data_at (depth : nat) (instance_or_instances : value)
    (session_id : value) (include_related : bool) : M bool :=
  (modify (set_calls (fun c => c ++ [(instance_or_instances, depth)])) ;;;
   w <- get_world ;;
   let mode := mode_or (settings w) "backend" in
   if negb (String.eqb mode "backend") then
     (logger (LWarning "sync_data should only be called in backend mode!") ;;;
      ret false)%py
   else
     let instances :=
       match instance_or_instances with
       | VList items => items
       | VTuple items => items
       | v => [v]
       end in
     expiration_time <- Models.get_expiration_time ;;
     atomic
       (for_each instances
          (process_instance
             match depth with
             | S depth' =>
                 Some (fun related =>
                         sync_data_at depth' related session_id include_related)
             | O => None
             end
             session_id expiration_time include_related)) ;;;
     ret true)%py.

(** The recursive call that [sync_data] at [depth] hands to the loop body. *)
Definition recursion (depth : nat) (session_id : value) (include_related : bool)
    : option (value → M bool) :=
  match depth with
  | S depth' =>
      Some (fun related => sync_data_at depth' related session_id include_related)
  | O => None
  end.

Definition sync_data (instance_or_instances : value) (session_id : value)
    (include_related : bool) (depth : Z) : M bool :=
  sync_data_at (Z.to_nat depth) instance_or_instances session_id include_related.

(** Lines 122-133 and 137-145 of [publish_batch]: serialize the batch,
    settle the channel name if none was given, publish.  Returns the
    channel as it is from then on, and what [publish] returned. *)
Definition flush (channel : option string) (batch : list value)
    : M (option string * Z) :=
  (serialized <- serialize batch ;;
   w <- get_world ;;
   let channel :=
     match channel with
     | Some c => c
     | None => conf (settings w) CHANNELS CHANNELS_default "default"
     end in
   result <- publish channel serialized ;;
   ret (Some channel, result))%py.

(** The [for instance in instances] loop of [publish_batch], lines
    118-133; the state is [(channel, result, batch)]. *)
Fixpoint batch_loop (batch_size : Z) (instances : list value)
    (channel : option string) (result : Z) (batch : list value)
    : M (option string * Z * list value) :=
  match instances with
  | [] => ret (channel, result, batch)
  | inst :: instances' =>
      let batch := batch ++ [inst] in
      if batch_size <=? Z.of_nat (length batch) then
        (flushed <- flush channel batch ;;
         batch_loop batch_size instances' (fst flushed) (snd flushed) [])%py
      else batch_loop batch_size instances' channel result batch
  end.

(** [Publisher.publish_batch(instances, channel=None)] *)
Definition publish_batch (instances : list value) (channel : option string) : M Z :=
  try_except
    (w <- get_world ;;
     let batch_size := conf (settings w) SYNC SYNC_batch_size 100 in
     st <- batch_loop batch_size instances channel 0 [] ;;
     let channel := fst (fst st) in
     let result := snd (fst st) in
     let batch := snd st in
     if truthy (VList batch)
     then (flushed <- flush channel batch ;; ret (snd flushed))%py
     else ret result)%py
    (fun e => (logger (LException "Error publishing batch" e) ;;; raise e)%py).

End Publisher.

(** ** sync/consumer.py *)

Module Consumer.

(** The text of a message, represented by what
    [serializers.deserialize("json", data)] makes of it. *)
Inductive json_text :=
| JsonObjects (objects : list instance)
| JsonMalformed.

(** [message["data"]]: bytes (which may not be valid UTF-8) or text. *)
Inductive msg_data :=
| DataBytes (utf8 : option json_text)
| DataStr (text : json_text).

(** What [pubsub.listen()] yields.  For a dict, [msg_type] and [msg_payload]
    are [message.get("type")] and [message.get("data")]. *)
Inductive message :=
| MsgNone
| MsgNotDict
| MsgDict (msg_type : option string) (msg_payload : option msg_data).

Record Consumer := MkConsumer {
  running  : bool;
  thread   : bool;           (* has a listener thread been started? *)
  channels : list string     (* [pubsub.channels] *)
}.

Definition decode (data : msg_data) : M json_text :=
  match data with
  | DataBytes (Some text) => ret text
  | DataBytes None => raise UnicodeDecodeError
  | DataStr text => ret text
  end.

Definition deserialize (text : json_text) : M (list instance) :=
  match text with
  | JsonObjects objects => ret objects
  | JsonMalformed => raise SerializationError
  end.

(** [Consumer._process_message(message)] *)
Definition _process_message (message : message) : M bool :=
  try_except
    (match message with
     | MsgNone | MsgNotDict => ret false
     | MsgDict msg_type msg_payload =>
         if negb (bool_decide (msg_type = Some "message")) then ret false
         else
           match msg_payload with
           | None => ret false
           | Some data =>
               (text <- decode data ;;
                objects <- deserialize text ;;
                atomic (for_each objects (fun obj => save (VObj obj))) ;;;
                logger (LDebug "Processed objects from message") ;;;
                ret true)%py
           end
     end)
    (fun e => (logger (LException "Error processing message" e) ;;;
               ret false)%py).

(** The [while not success and retry_count < max_retries] loop of
    [_listen], lines 153-167.  [fuel] bounds the number of iterations;
    [None] means the bound was reached with the loop still running.
    [process] is [self._process_message].  The result is the final
    [(success, retry_count)]. *)
Fixpoint retry_loop (fuel : nat) (process : message → M bool) (msg : message)
    (max_retries backoff_factor : Z)
    (success : bool) (retry_count current_delay : Z) (w : World)
    : option (World * (bool * Z)) :=
  if negb success && (retry_count <? max_retries) then
    match fuel with
    | O => None
    | S fuel' =>
        match process msg w with
        | (w1, Ok b) =>
            retry_loop fuel' process msg max_retries backoff_factor
                       b retry_count current_delay w1
        | (w1, Raise e) =>
            let w2 := fst (logger (LException "Error processing message (retry)" e) w1) in
            let retry_count := retry_count + 1 in
            if retry_count <? max_retries then
              let w3 := fst (sleep (timedelta_seconds current_delay) w2) in
              retry_loop fuel' process msg max_retries backoff_factor
                         success retry_count (current_delay * backoff_factor) w3
            else
              retry_loop fuel' process msg max_retries backoff_factor
                         success retry_count current_delay w2
        end
    end
  else Some (w, (success, retry_count)).

(** The body of [for message in self.pubsub.listen()], lines 143-173,
    over the messages delivered while the flag [running] keeps the value
    it has in [self]. *)
Fixpoint listen_loop (fuel : nat) (self : Consumer) (process : message → M bool)
    (max_retries retry_delay backoff_factor : Z)
    (messages : list message) (w : World) : option World :=
  match messages with
  | [] => Some w
  | msg :: messages' =>
      if negb (running self) then Some w
      else
        match retry_loop fuel process msg max_retries backoff_factor
                         false 0 retry_delay w with
        | None => None
        | Some (w1, (success, retry_count)) =>
            let w2 :=
              if negb success && (max_retries <=? retry_count)
              then fst (logger (LError "Failed to process message after retries") w1)
              else w1 in
            listen_loop fuel self process max_retries retry_delay backoff_factor
                        messages' w2
        end
  end.

(** [Consumer._listen()]; every step of the loop that can raise is inside
    its own handler, so the outer [try/except/finally] only closes the
    connection. *)
Definition _listen_with (process : message → M bool) (fuel : nat)
    (self : Consumer) (messages : list message) (w : World) : option World :=
  let max_retries := conf (settings w) SYNC SYNC_max_retries 3 in
  let retry_delay := conf (settings w) SYNC SYNC_retry_delay 1 in
  let backoff_factor := conf (settings w) SYNC SYNC_backoff_factor 2 in
  listen_loop fuel self process max_retries retry_delay backoff_factor messages w.

Definition _listen := _listen_with _process_message.

(** [Consumer.start()] *)
Definition start (self : Consumer) : M (Consumer * bool) :=
  (w <- get_world ;;
   let mode := mode_or (settings w) "frontend" in
   if negb (String.eqb mode "frontend") then
     (logger (LWarning "PII Shield Consumer should only be started in frontend mode!") ;;;
      ret (self, false))%py
   else if running self then
     (logger (LWarning "Consumer already running") ;;;
      ret (self, false))%py
   else
     (logger (LDebug "Consumer started") ;;;
      ret (MkConsumer true true (channels self), true))%py)%py.

(** [self.pubsub.unsubscribe()], from every channel: a command sent on
    the connection, so it needs the bus. *)
Definition pubsub_unsubscribe (self : Consumer) : M Consumer :=
  fun w =>
    if bus_up w
    then (w, Ok (MkConsumer (running self) (thread self) []))
    else (w, Raise TransportError).

(** [Consumer.stop()].  Nothing in the method catches an exception of
    [unsubscribe]: it leaves [stop] with the flag [running] already
    cleared, before the thread is joined and the message is logged. *)
Definition stop (self : Consumer) : M (Consumer * bool) :=
  if negb (running self) then
    (logger (LWarning "Consumer not running") ;;;
     ret (self, false))%py
  else
    (let self := MkConsumer false (thread self) (channels self) in
     self <- pubsub_unsubscribe self ;;
     logger (LDebug "Consumer stopped") ;;;
     ret (self, true))%py.

(** [self.pubsub.channels] is a dictionary: a name is added once. *)
Definition add_channel (names : list string) (name : string) : list string :=
  if bool_decide (name ∈ names) then names else names ++ [name].

(** [self.pubsub.subscribe] on the given names; it needs the connection. *)
Definition pubsub_subscribe (self : Consumer) (names : list string) : M Consumer :=
  fun w =>
    if bus_up w
    then (w, Ok (MkConsumer (running self) (thread self)
                            (foldl add_channel (channels self) names)))
    else (w, Raise TransportError).

(** [Consumer.subscribe(channels=None)] *)
Definition subscribe (self : Consumer) (chans : option (list string))
    : M (Consumer * bool) :=
  try_except
    (w <- get_world ;;
     let prefix := conf (settings w) CHANNELS CHANNELS_prefix "pii_shield" in
     let names :=
       match chans with
       | None =>
           let default_channel := conf (settings w) CHANNELS CHANNELS_default "default" in
           [(prefix +:+ ":" +:+ default_channel)%string]
       | Some cs => map (fun channel => (prefix +:+ ":" +:+ channel)%string) cs
       end in
     self' <- pubsub_subscribe self names ;;
     logger (LDebug "Subscribed to channels") ;;;
     ret (self', true))%py
    (fun e => (logger (LException "Error subscribing to channels" e) ;;;
               ret (self, false))%py).

(** [Consumer.restart()] *)
Definition restart (self : Consumer) : M (Consumer * bool) :=
  (stopped <- stop self ;; start (fst stopped))%py.

(** [Consumer.status()] *)
Definition status (self : Consumer) : bool * list string :=
  (running self, channels self).

(** [Consumer()] and [get_consumer()]; the argument of [get_consumer] is
    the module global [_consumer]. *)
Definition new_consumer : Consumer := MkConsumer false false [].

Definition get_consumer (global : option Consumer) : Consumer :=
  match global with
  | Some consumer => consumer
  | None => new_consumer
  end.

(** [initialize()], as a function of the global [_consumer]; returns the
    global as the call leaves it. *)
Definition initialize (global : option Consumer) : M (option Consumer) :=
  try_except
    (w <- get_world ;;
     let mode := mode_or (settings w) "frontend" in
     if negb (String.eqb mode "frontend") then
       (logger (LInfo "PII Shield Consumer initialization skipped (not in frontend mode)") ;;;
        ret global)%py
     else
       let auto_reconnect := conf (settings w) ADVANCED ADVANCED_auto_reconnect true in
       if auto_reconnect then
         (let consumer := get_consumer global in
          subscribed <- subscribe consumer None ;;
          started <- start (fst subscribed) ;;
          ret (Some (fst started)))%py
       else ret global)%py
    (fun e => (logger (LException "Error initializing consumer" e) ;;;
               ret global)%py).

End Consumer.

(** ** apps.py *)

Module Apps.

(** [PIIShieldConfig.ready()]; the import of the consumer module succeeds
    in the source tree. *)
Definition ready (global : option Consumer.Consumer) : M (option Consumer.Consumer) :=
  (w <- get_world ;;
   let mode := mode_or (settings w) "frontend" in
   if String.eqb mode "frontend" then Consumer.initialize global
   else ret global)%py.

End Apps.

(** ** middleware.py *)

Module Middleware.

(** A Django session.  [sess_items] is what [session[key]] reads and
    writes; [sess_attrs] is the attribute namespace of the session
    object, what [getattr(session, name, default)] reads. *)
Record Session := MkSession {
  session_key : option string;
  sess_items  : gmap string value;
  sess_attrs  : gmap string value
}.

Record Request := MkRequest {
  user_is_authenticated : bool;
  user    : value;
  path    : string;
  session : Session
}.

(** [redirect(to)] *)
Inductive Response := HttpResponseRedirect (to : string).

(** [request.session[key] = v] *)
Definition set_item (request : Request) (key : string) (v : value) : Request :=
  let s := session request in
  MkRequest (user_is_authenticated request) (user request) (path request)
    (MkSession (session_key s) (<[key := v]> (sess_items s)) (sess_attrs s)).

(** [request.session.pop(key, None)] *)
Definition pop_item (request : Request) (key : string) : Request :=
  let s := session request in
  MkRequest (user_is_authenticated request) (user request) (path request)
    (MkSession (session_key s) (delete key (sess_items s)) (sess_attrs s)).

(** [getattr(request.session, name, dflt)] *)
Definition session_getattr (request : Request) (name : string) (dflt : value) : value :=
  match sess_attrs (session request) !! name with
  | Some v => v
  | None => dflt
  end.

Definition session_id_of (request : Request) : value :=
  match session_key (session request) with
  | Some k => VStr k
  | None => VNone
  end.

(** [reverse(view)] *)
Definition reverse (view : string) : M string :=
  (w <- get_world ;;
   match urlconf w !! view with
   | Some p => ret p
   | None => raise (NoReverseMatch view)
   end)%py.

(** The names bound at module level by [sync/publisher.py] (its imports,
    [logger], the class, the singleton and the two functions) and by
    [sync/__init__.py]. *)
Definition publisher_py : list string :=
  ["logging"; "redis"; "settings"; "serializers"; "transaction"; "logger";
   "Publisher"; "_publisher"; "get_publisher"; "sync_data"].

Definition sync_init_py : list string :=
  ["_REGISTERED_MODELS"; "register_model"; "get_registered_models"].

(** [from <module> import name] *)
Definition import_from (module_names : list string) (name : string) : M unit :=
  if bool_decide (name ∈ module_names) then ret tt else raise (ImportError name).

(** [model_class.objects.filter(session_id=session_id)] on one row. *)
Definition of_session (model_class : PyClass) (session_id : value) (row : instance)
    : bool :=
  String.eqb (cls_name (obj_class row)) (cls_name model_class)
  && match session_id, obj_attrs row !! "session_id" with
     | VStr s, Some (VStr s') => String.eqb s s'
     | VNone, Some VNone => true
     | _, _ => false
     end.

(** [data_expires_at__lt=threshold_time] on one row. *)
Definition expires_before (threshold_time : Z) (row : instance) : bool :=
  match expires_of row with
  | Some t => t <? threshold_time
  | None => false
  end.

(** The [for model_class in models] loop of [_check_pii_data]. *)
Fixpoint check_models (models : list PyClass) (session_id : value)
    (threshold_time : Z) (rows : list instance) : bool :=
  match models with
  | [] => true
  | model_class :: models' =>
      if negb (existsb (of_session model_class session_id) rows) then false
      else if existsb (fun r => of_session model_class session_id r
                                && expires_before threshold_time r) rows
           then false
           else check_models models' session_id threshold_time rows
  end.

(** The middleware object: [self.pii_settings], read once by [__init__]. *)
Record PIIShieldMiddleware := MkMiddleware {
  pii_settings : option PiiShield
}.

Definition __init__ : M PIIShieldMiddleware :=
  (w <- get_world ;; ret (MkMiddleware (settings w)))%py.

Section Gate.

(** The module namespace that the two imports from
    [pii_shield.sync.publisher] are resolved in; [publisher_py] in the
    source tree. *)
Variable publisher : list string.

Variable self : PIIShieldMiddleware.

(** [PIIShieldMiddleware._check_pii_data(request)] *)
Definition _check_pii_data (request : Request) : M bool :=
  try_except
    (import_from publisher "get_registered_models" ;;;
     models <- Sync.get_registered_models ;;
     match models with
     | [] => ret true
     | _ =>
         (w <- get_world ;;
          let refresh_threshold :=
            conf (pii_settings self) SESSION SESSION_refresh_threshold 300 in
          let threshold_time := now w + timedelta_seconds refresh_threshold in
          let session_id := session_id_of request in
          ret (check_models models session_id threshold_time (db w)))%py
     end)%py
    (fun e => (logger (LException "Error checking PII data" e) ;;;
               ret false)%py).

(** [PIIShieldMiddleware._initiate_sync(request)]; returns the request
    with its session as the call leaves it.  The handler's [pop] runs on
    the session as it is when the exception is raised, before or after
    the assignment of the flag; deleting the key gives the same items
    in both cases. *)
Definition _initiate_sync (request : Request) : M Request :=
  try_except
    (import_from publisher "sync_data" ;;;
     let request' := set_item request "pii_sync_in_progress" (VBool true) in
     let session_id := session_id_of request' in
     Publisher.sync_data (user request') session_id false 1 ;;;
     ret request')%py
    (fun e => (logger (LException "Error initiating PII data sync" e) ;;;
               ret (pop_item request "pii_sync_in_progress"))%py).

(** Lines 42-50 and 58-67: store the path and redirect. *)
Definition defer (request : Request) (waiting_view : string)
    : Request * option Response :=
  let key := conf (pii_settings self) ADVANCED ADVANCED_redirect_session_key
                  "redirect_after_sync" in
  (set_item request key (VStr (path request)),
   Some (HttpResponseRedirect waiting_view)).

(** [PIIShieldMiddleware.process_request(request)]; the response is
    [None] when the request proceeds to the view. *)
Definition process_request (request : Request) : M (Request * option Response) :=
  if negb (user_is_authenticated request) then ret (request, None)
  else
    let excluded_paths := conf (pii_settings self) ADVANCED ADVANCED_excluded_paths [] in
    if existsb (fun p => String.prefix p (path request)) excluded_paths
    then ret (request, None)
    else if truthy (session_getattr request "pii_sync_in_progress" (VBool false))
    then
      match conf_opt (pii_settings self) ADVANCED ADVANCED_waiting_view with
      | Some waiting_view =>
          if truthy (VStr waiting_view) then
            (target <- reverse waiting_view ;;
             if negb (String.eqb (path request) target)
             then ret (defer request waiting_view)
             else ret (request, None))%py
          else ret (request, None)
      | None => ret (request, None)
      end
    else
      (fresh <- _check_pii_data request ;;
       if negb fresh then
         (request <- _initiate_sync request ;;
          match conf_opt (pii_settings self) ADVANCED ADVANCED_waiting_view with
          | Some waiting_view =>
              if truthy (VStr waiting_view)
              then ret (defer request waiting_view)
              else ret (request, None)
          | None => ret (request, None)
          end)%py
       else ret (request, None))%py.

End Gate.

End Middleware.

(** ** management/commands/cleanup_expired_data.py *)

Module Cleanup.

(** The parsed command line.  [sleep_time] is [--sleep] in microseconds
    (default 500000). *)
Record Options := MkOptions {
  batch_size : Z;
  sleep_time : Z;
  force      : bool;
  dry_run    : bool
}.

(** Lines written to [self.stdout]. *)
Inductive Out :=
| OutNoModels
| OutCleaning (n_models : nat)
| OutDryRun
| OutProcessing (model : string)
| OutDeleted (model_deleted : Z) (model : string)
| OutSuccess (total_deleted : Z).

(** [issubclass(model, PIIModel) and model != PIIModel] *)
Definition is_pii_subclass (model : PyClass) : bool :=
  bool_decide ("PIIModel" ∈ cls_mro model)
  && negb (String.eqb (cls_name model) "PIIModel").

(** [data_expires_at__lt=now] on a row of [model]. *)
Definition expired_row (model : PyClass) (t : Z) (row : instance) : bool :=
  String.eqb (cls_name (obj_class row)) (cls_name model)
  && match expires_of row with
     | Some e => e <? t
     | None => false
     end.

(** [order_by('data_expires_at')], as a stable insertion sort. *)
Fixpoint insert_by_expiry (r : instance) (rows : list instance) : list instance :=
  match rows with
  | [] => [r]
  | r' :: rows' =>
      match expires_of r, expires_of r' with
      | Some e, Some e' =>
          if e <? e' then r :: r' :: rows' else r' :: insert_by_expiry r rows'
      | _, _ => r' :: insert_by_expiry r rows'
      end
  end.

Definition order_by_expiry (rows : list instance) : list instance :=
  foldr insert_by_expiry [] rows.

(** [model.objects.filter(data_expires_at__lt=timezone.now())
      .order_by('data_expires_at')[:batch_size]] *)
Definition expired_batch (model : PyClass) (batch_size : Z) (w : World)
    : list instance :=
  take (Z.to_nat batch_size)
       (order_by_expiry (List.filter (expired_row model (now w)) (db w))).

(** Is [row] one of [model.objects.filter(id__in=ids)]? *)
Definition id_in (model : PyClass) (ids : list Z) (row : instance) : bool :=
  String.eqb (cls_name (obj_class row)) (cls_name model)
  && bool_decide (obj_pk row ∈ ids).

(** The [while True] loop of [handle] for one model, lines 82-119.
    [fuel] bounds the number of iterations, [None] means the bound was
    reached with the loop still running.  The result carries
    [model_deleted], [total_deleted] and the lines printed. *)
Fixpoint model_loop (fuel : nat) (opts : Options) (model : PyClass)
    (model_deleted total_deleted : Z) (out : list Out) (w : World)
    : option (World * result (Z * Z * list Out)) :=
  match fuel with
  | O => None
  | S fuel' =>
      if batch_size opts <? 0 then Some (w, Raise ValueError)
      else
        let expired := expired_batch model (batch_size opts) w in
        let count := Z.of_nat (length expired) in
        if count =? 0 then Some (w, Ok (model_deleted, total_deleted, out))
        else
          let expired_ids := map obj_pk expired in
          let deleted :=
            Z.of_nat (length (List.filter (id_in model expired_ids) (db w))) in
          let w1 :=
            if negb (dry_run opts)
            then set_db (List.filter (fun r => negb (id_in model expired_ids r))) w
            else w in
          let model_deleted :=
            if negb (dry_run opts) then model_deleted + deleted
            else model_deleted + count in
          let total_deleted :=
            if negb (dry_run opts) then total_deleted + deleted
            else total_deleted + count in
          let out := out ++ [OutDeleted model_deleted (cls_name model)] in
          let w2 := if 0 <? sleep_time opts
                    then fst (sleep (sleep_time opts) w1) else w1 in
          if count <? batch_size opts
          then Some (w2, Ok (model_deleted, total_deleted, out))
          else model_loop fuel' opts model model_deleted total_deleted out w2
  end.

(** The [for model in models] loop, lines 78-119. *)
Fixpoint models_loop (fuel : nat) (opts : Options) (models : list PyClass)
    (total_deleted : Z) (out : list Out) (w : World)
    : option (World * result (Z * list Out)) :=
  match models with
  | [] => Some (w, Ok (total_deleted, out))
  | model :: models' =>
      match model_loop fuel opts model 0 total_deleted
                       (out ++ [OutProcessing (cls_name model)]) w with
      | None => None
      | Some (w1, Raise e) => Some (w1, Raise e)
      | Some (w1, Ok (_, total_deleted, out)) =>
          models_loop fuel opts models' total_deleted out w1
      end
  end.

(** [Command.handle(options)]; the result is [total_deleted] (0 when
    the command returns early) and the lines printed. *)
Definition handle (fuel : nat) (opts : Options) (w : World)
    : option (World * result (Z * list Out)) :=
  let models :=
    if force opts then List.filter is_pii_subclass (installed w)
    else registry w in
  match models with
  | [] => Some (w, Ok (0, [OutNoModels]))
  | _ =>
      let out := [OutCleaning (length models)]
                 ++ (if dry_run opts then [OutDryRun] else []) in
      match models_loop fuel opts models 0 out w with
      | None => None
      | Some (w1, Raise e) => Some (w1, Raise e)
      | Some (w1, Ok (total_deleted, out)) =>
          Some (w1, Ok (total_deleted, out ++ [OutSuccess total_deleted]))
      end
  end.

End Cleanup.

(** ** Example inputs

    The classes of [examples/backendapp/backendapp/models.py], a few
    instances of them, and process states used to run the code. *)

Module Examples.

Definition plain_field (name : string) : Field :=
  MkField name false true false false false false.

Definition Address : PyClass :=
  MkClass "Address" ["Address"; "PIIModel"; "Model"; "object"]
    [plain_field "id"; plain_field "session_id"; plain_field "data_expires_at";
     plain_field "street"; plain_field "city"; plain_field "postal_code";
     plain_field "country";
     (* the reverse side of [UserProfile.address] *)
     MkField "userprofile" true false true false false false].

Definition UserProfile : PyClass :=
  MkClass "UserProfile" ["UserProfile"; "PIIModel"; "Model"; "object"]
    [plain_field "id"; plain_field "session_id"; plain_field "data_expires_at";
     MkField "user" true true false false false true;
     plain_field "date_of_birth"; plain_field "phone_number";
     MkField "address" true true false false true false].

Definition User : PyClass :=
  MkClass "User" ["User"; "AbstractUser"; "AbstractBaseUser"; "Model"; "object"]
    [plain_field "id"; plain_field "username";
     (* the reverse side of [UserProfile.user] *)
     MkField "userprofile" true false false false false true].

Definition t0 : Z := 1700000000000000.

Definition alice : instance :=
  MkObj User 7 (<["username" := VStr "alice"]> ∅).

Definition resident : instance :=
  MkObj UserProfile 4 (<["phone_number" := VStr "555-0199"]> ∅).

Definition home (session_id : string) (expires : Z) : instance :=
  MkObj Address 1
    (<["session_id" := VStr session_id]>
     (<["data_expires_at" := VTime expires]>
      (<["street" := VStr "1 Main St"]>
       (<["city" := VStr "Springfield"]>
        (<["userprofile_set" := VManager (VQuerySet [VObj resident])]> ∅))))).

Definition profile (session_id : string) (expires : Z) : instance :=
  MkObj UserProfile 3
    (<["session_id" := VStr session_id]>
     (<["data_expires_at" := VTime expires]>
      (<["phone_number" := VStr "555-0100"]>
       (<["user" := VObj alice]>
        (<["address" := VObj (home session_id expires)]> ∅))))).

(** A model with a [ManyToManyField], which the models of the examples
    do not have: [tags = models.ManyToManyField(Tag)] on a [PIIModel].
    The field is concrete, and Django binds its manager to the attribute
    [tags]; a [tags_set] exists on neither side. *)
Definition Tag : PyClass :=
  MkClass "Tag" ["Tag"; "Model"; "object"]
    [plain_field "id"; plain_field "label";
     (* the reverse side of [Note.tags] *)
     MkField "note" true false false true false false].

Definition Note : PyClass :=
  MkClass "Note" ["Note"; "PIIModel"; "Model"; "object"]
    [plain_field "id"; plain_field "session_id"; plain_field "data_expires_at";
     plain_field "text";
     MkField "tags" true true false true false false].

Definition urgent : instance :=
  MkObj Tag 9 (<["label" := VStr "urgent"]> ∅).

Definition note : instance :=
  MkObj Note 2
    (<["session_id" := VStr ""]>
     (<["data_expires_at" := VTime 0]>
      (<["text" := VStr "call back"]>
       (<["tags" := VManager (VQuerySet [VObj urgent])]> ∅)))).

(** A process with the given [PII_SHIELD] settings, an empty database and
    a reachable bus with one subscriber. *)
Definition world (st : option PiiShield) (rows : list instance) : World :=
  MkWorld st t0 rows true 1 [] [] [] [] [Address; UserProfile]
          [User; Address; UserProfile] (<["waiting" := "/waiting/"]> ∅).

Definition with_mode (m : string) : option PiiShield :=
  Some (MkPiiShield (Some m) None None None None).

(** Stand-ins for [self._process_message] that fail a given number of
    times before they succeed: by raising (the attempts made so far are
    the exceptions logged by [_listen]), or by returning [False] (the
    attempts are counted in the log by the stand-in itself). *)
Definition attempts_logged (w : World) : nat :=
  length (List.filter (fun e => match e with
                                | LException _ _ => true
                                | LInfo _ => true
                                | _ => false
                                end) (log w)).

Definition raises_first (n : nat) (msg : Consumer.message) : M bool :=
  fun w => if (attempts_logged w <? n)%nat then (w, Raise DatabaseError)
           else (w, Ok true).

Definition returns_false_first (n : nat) (msg : Consumer.message) : M bool :=
  fun w => if (attempts_logged w <? n)%nat
           then (set_log (fun l => l ++ [LInfo "attempt failed"]) w, Ok false)
           else (w, Ok true).

(** Messages as Redis delivers them: the confirmation of a subscription,
    a payload that is not JSON, and a serialized address. *)
Definition subscribe_ack : Consumer.message :=
  Consumer.MsgDict (Some "subscribe") (Some (Consumer.DataStr Consumer.JsonMalformed)).

Definition garbled : Consumer.message :=
  Consumer.MsgDict (Some "message") (Some (Consumer.DataBytes (Some Consumer.JsonMalformed))).

Definition address_message : Consumer.message :=
  Consumer.MsgDict (Some "message")
    (Some (Consumer.DataBytes (Some (Consumer.JsonObjects [home "s1" (t0 + 1800000000)])))).

Definition listening : Consumer.Consumer := Consumer.MkConsumer true true ["pii_shield:default"].

(** A table for the sweeper: one address that expired a second ago, one
    that lives for another half hour. *)
Definition lapsed : instance :=
  MkObj Address 11 (<["session_id" := VStr "old"]>
                    (<["data_expires_at" := VTime (t0 - 1000000)]> ∅)).

Definition current : instance :=
  MkObj Address 12 (<["session_id" := VStr "new"]>
                    (<["data_expires_at" := VTime (t0 + 1800000000)]> ∅)).

Definition sweep_world : World := world None [lapsed; current].

(** The gate on the frontend: waiting view configured, one excluded
    prefix. *)
Definition gate_settings : option PiiShield :=
  Some (MkPiiShield (Some "frontend") None None None
          (Some (MkAdvancedConf None None (Some ["/static/"]) (Some "waiting") None))).

Definition gate : Middleware.PIIShieldMiddleware :=
  Middleware.MkMiddleware gate_settings.

Definition fresh_session : Middleware.Session :=
  Middleware.MkSession (Some "s1") ∅ ∅.

Definition request_to (path : string) (s : Middleware.Session) : Middleware.Request :=
  Middleware.MkRequest true (VObj alice) path s.

(** The session of [fresh_session] once [_initiate_sync] has marked it. *)
Definition marked_session : Middleware.Session :=
  Middleware.MkSession (Some "s1") (<["pii_sync_in_progress" := VBool true]> ∅) ∅.

(** A source-role process whose bus is down. *)
Definition offline_source : World :=
  MkWorld (Some (MkPiiShield (Some "backend") None None None
                   (Some (MkAdvancedConf None None None (Some "waiting") None))))
          t0 [] false 0 [] [] [] [] [Address; UserProfile]
          [User; Address; UserProfile] (<["waiting" := "/waiting/"]> ∅).

Definition source_gate : Middleware.PIIShieldMiddleware :=
  Middleware.MkMiddleware (settings offline_source).

(** Rows for session [s1] that expire in half an hour. *)
Definition fresh_rows : list instance :=
  [home "s1" (t0 + 1800000000);
   MkObj UserProfile 3 (<["session_id" := VStr "s1"]>
                        (<["data_expires_at" := VTime (t0 + 1800000000)]> ∅))].

End Examples.

(** ** Vocabulary of the statements *)

(** [ADVANCED.allow_mixed_relations], false when unset. *)
Definition allow_mixed (st : option PiiShield) : bool :=
  conf st ADVANCED ADVANCED_allow_mixed_relations false.

(** The channel [publish_model] uses when none is given. *)
Definition default_channel (st : option PiiShield) : string :=
  (conf st CHANNELS CHANNELS_prefix "pii_shield" +:+ ":"
   +:+ conf st CHANNELS CHANNELS_default "default")%string.

(** [now + SESSION.timeout], the expiry [sync_data] stamps. *)
Definition expiry_at (w : World) : Z :=
  now w + timedelta_seconds (conf (settings w) SESSION SESSION_timeout 1800).

(** An instance with [session_id] and [data_expires_at] overwritten, each
    only if the instance has the attribute. *)
Definition stamp_obj (o : instance) (session_id : value) (expiration_time : Z)
    : instance :=
  let o1 := if bool_decide (is_Some (obj_attrs o !! "session_id"))
            then setattr o "session_id" session_id else o in
  if bool_decide (is_Some (obj_attrs o1 !! "data_expires_at"))
  then setattr o1 "data_expires_at" (VTime expiration_time) else o1.

(** The state after one instance has been saved and published. *)
Definition persist_publish (o : instance) (w : World) : World :=
  set_log (fun l => l ++ [LDebug "Published message to channel"])
    (set_published (fun p => p ++ [(default_channel (settings w), [o])])
       (set_db (db_save o) w)).

(** The instances an argument of [sync_data] stands for: one instance, or
    a list or tuple of instances. *)
Definition as_instance (v : value) : option instance :=
  match v with
  | VObj o => Some o
  | _ => None
  end.

Definition as_instances (arg : value) : option (list instance) :=
  match arg with
  | VObj o => Some [o]
  | VList items => mapM as_instance items
  | VTuple items => mapM as_instance items
  | _ => None
  end.

(** The messages [_process_message] applies: a dict of type ["message"]
    whose data, decoded, deserializes. *)
Definition accepted (msg : Consumer.message) : bool :=
  match msg with
  | Consumer.MsgDict (Some ty) (Some (Consumer.DataBytes (Some (Consumer.JsonObjects _))))
  | Consumer.MsgDict (Some ty) (Some (Consumer.DataStr (Consumer.JsonObjects _))) =>
      String.eqb ty "message"
  | _ => false
  end.

(** How many rows of [model] are expired at the clock of [w]. *)
Definition expired_count (model : PyClass) (w : World) : Z :=
  Z.of_nat (length (List.filter (Cleanup.expired_row model (now w)) (db w))).

(** No two rows of the table have the same class name and primary key. *)
Definition unique_keys (rows : list instance) : Prop :=
  ∀ r r', In r rows → In r' rows → same_row r r' = true → r = r'.

(** The table without the rows of [model] that are expired at time [t]. *)
Definition without_expired (model : PyClass) (t : Z) (rows : list instance)
    : list instance :=
  List.filter (fun r => negb (Cleanup.expired_row model t r)) rows.

(** The state after the pause between two batches. *)
Definition paused (opts : Cleanup.Options) (w : World) : World :=
  if 0 <? Cleanup.sleep_time opts then fst (sleep (Cleanup.sleep_time opts) w) else w.

(** The session item that [_initiate_sync] sets. *)
Definition sync_flag (request : Middleware.Request) : option value :=
  Middleware.sess_items (Middleware.session request) !! "pii_sync_in_progress".

(** The log of [w'] is the log of [w] followed by entries among which is
    the exception logged by the handler of [_initiate_sync]. *)
Definition sync_error_logged (w w' : World) : Prop :=
  ∃ l e, log w' = log w ++ l
         ∧ LException "Error initiating PII data sync" e ∈ l.

(** What a run of [process_request] leaves in the flag and answers. *)
Definition flag_after
    (run : World * result (Middleware.Request * option Middleware.Response))
    : option (option value) :=
  match snd run with
  | Ok (request, _) => Some (sync_flag request)
  | Raise _ => None
  end.

Definition response_of
    (run : World * result (Middleware.Request * option Middleware.Response))
    : option (option Middleware.Response) :=
  match snd run with
  | Ok (_, resp) => Some resp
  | Raise _ => None
  end.

(** [calls] of [w'] extends [calls] of [w]; the same for [log]. *)
Definition calls_grow (w w' : World) : Prop := ∃ l, calls w' = calls w ++ l.
Definition calls_kept (w w' : World) : Prop := calls w' = calls w.
Definition log_grow (w w' : World) : Prop := ∃ l, log w' = log w ++ l.

(** [preserves P m]: whatever [m] does, and however it ends, the states
    before and after are related by [P]. *)
Definition preserves {A} (P : World → World → Prop) (m : M A) : Prop :=
  ∀ w w' r, m w = (w', r) → P w w'.

(** A relation between states that every step of the publisher respects:
    a save, a roll-back to the state a transaction started in, and one
    more entry in the log, on the bus or on the trace of calls. *)
Record monotone (P : World → World → Prop) : Prop := MkMonotone {
  mono_refl : ∀ w, P w w;
  mono_trans : ∀ w1 w2 w3, P w1 w2 → P w2 w3 → P w1 w3;
  mono_rollback : ∀ w w', P w w' → P w (set_db (fun _ => db w) w');
  mono_saved : ∀ w o, P w (set_db (db_save o) w);
  mono_logged : ∀ w e, P w (set_log (fun l => l ++ [e]) w);
  mono_published : ∀ w c m, P w (set_published (fun p => p ++ [(c, m)]) w);
  mono_called : ∀ w c, P w (set_calls (fun l => l ++ [c]) w)
}.

(** The configuration and the clock are as before, what was on the bus is
    still there, and so is every key of the table. *)
Definition settled (w w' : World) : Prop :=
  settings w' = settings w
  ∧ now w' = now w
  ∧ (∃ l, published w' = published w ++ l)
  ∧ (∀ o, is_Some (db_get o (db w)) → is_Some (db_get o (db w'))).

(** The channel a batch goes to: the prefix, and [channel] or the default
    channel when none is given. *)
Definition batch_channel (st : option PiiShield) (channel : option string) : string :=
  (conf st CHANNELS CHANNELS_prefix "pii_shield" +:+ ":"
   +:+ match channel with
       | Some c => c
       | None => conf st CHANNELS CHANNELS_default "default"
       end)%string.

(** The objects a message carries, for the messages that are [accepted]. *)
Definition payload (msg : Consumer.message) : list instance :=
  match msg with
  | Consumer.MsgDict _ (Some (Consumer.DataBytes (Some (Consumer.JsonObjects objects))))
  | Consumer.MsgDict _ (Some (Consumer.DataStr (Consumer.JsonObjects objects))) => objects
  | _ => []
  end.

(** The table after the objects have been saved, in order. *)
Definition save_all (objects : list instance) (rows : list instance) : list instance :=
  foldl (fun rows o => db_save o rows) rows objects.

(** The pauses of the retry loop: [delay], [delay * factor],
    [delay * factor ^ 2], ..., in microseconds. *)
Definition backoff_delays (delay factor : Z) (n : nat) : list Z :=
  map (fun i => timedelta_seconds (delay * factor ^ Z.of_nat i)) (seq 0 n).

(** The models [handle] sweeps: with [--force] every installed subclass
    of [PIIModel], else the registered ones. *)
Definition swept_models (opts : Cleanup.Options) (w : World) : list PyClass :=
  if Cleanup.force opts then List.filter Cleanup.is_pii_subclass (installed w)
  else registry w.

(** Nothing but the log and the trace of calls differs between [w] and [w']. *)
Definition store_kept (w w' : World) : Prop :=
  settings w' = settings w ∧ now w' = now w ∧ db w' = db w
  ∧ published w' = published w ∧ slept w' = slept w.

(** What the loop over the fields of [o] hands to the nested call of
    [sync_data] for [field], when nothing raises: for a field that is a
    relation and concrete, what [.all()] of the manager [<name>_set]
    returns if the field is to-many, the related object if the field is
    to-one and the object is truthy; nothing for any other field. *)
Definition followed_by (o : instance) (field : Field) : option value :=
  if is_relation field && concrete field then
    if one_to_many field || many_to_many field then
      match obj_attrs o !! (field_name field +:+ "_set")%string with
      | Some (VManager all) => Some all
      | _ => None
      end
    else if many_to_one field || one_to_one field then
      match obj_attrs o !! field_name field with
      | Some v => if truthy v then Some v else None
      | None => None
      end
    else None
  else None.

Definition followed (o : instance) : list value :=
  omap (followed_by o) (cls_fields (obj_class o)).

(** The calls of a trace that were made with depth [d]. *)
Definition at_depth (d : nat) (l : list (value * nat)) : list (value * nat) :=
  List.filter (fun c => Nat.eqb (snd c) d) l.

(** [calls] of [w'] extends [calls] of [w] by calls of depth [d] at most. *)
Definition calls_within (d : nat) (w w' : World) : Prop :=
  ∃ l, calls w' = calls w ++ l ∧ Forall (fun c => (snd c <= d)%nat) l.

(** * Properties *)

(** ** TTL policy ([models.py]) *)

Lemma conf_opt_no_pii_shield {S A} (section : PiiShield → option S) (key : S → option A) :
  conf_opt None section key = None.
Proof. reflexivity. Qed.

Lemma conf_opt_no_section {S A} pii (section : PiiShield → option S) (key : S → option A) :
  section pii = None → conf_opt (Some pii) section key = None.
Proof. intros H. unfold conf_opt. now rewrite H. Qed.

Lemma conf_opt_section {S A} pii s (section : PiiShield → option S) (key : S → option A) :
  section pii = Some s → conf_opt (Some pii) section key = key s.
Proof. intros H. unfold conf_opt. now rewrite H. Qed.

Lemma get_expiration_time_eq (w : World) :
  Models.get_expiration_time w =
    (w, Ok (now w + timedelta_seconds
                      match conf_opt (settings w) SESSION SESSION_timeout with
                      | Some T => T
                      | None => 1800
                      end)).
Proof. reflexivity. Qed.

(** C8.  [get_expiration_time] reads the clock once, changes nothing and
    returns exactly [now + T] seconds when [SESSION.timeout] is [T], and
    exactly [now + 1800] seconds when no timeout is configured: the
    settings have no [PII_SHIELD], or it has no [SESSION] section, or the
    section has no [timeout] key. *)
Theorem get_expiration_time_exact (w : World) :
  (∀ pii sess T,
     settings w = Some pii → SESSION pii = Some sess → SESSION_timeout sess = Some T →
     Models.get_expiration_time w = (w, Ok (now w + T * 1000000)))
  ∧ (settings w = None →
     Models.get_expiration_time w = (w, Ok (now w + 1800 * 1000000)))
  ∧ (∀ pii, settings w = Some pii → SESSION pii = None →
     Models.get_expiration_time w = (w, Ok (now w + 1800 * 1000000)))
  ∧ (∀ pii sess,
     settings w = Some pii → SESSION pii = Some sess → SESSION_timeout sess = None →
     Models.get_expiration_time w = (w, Ok (now w + 1800 * 1000000))).
Proof.
  repeat split.
  - intros pii sess T Hs Hp Ht. rewrite get_expiration_time_eq, Hs.
    rewrite (conf_opt_section _ _ _ _ Hp), Ht. reflexivity.
  - intros Hs. rewrite get_expiration_time_eq, Hs. reflexivity.
  - intros pii Hs Hp. rewrite get_expiration_time_eq, Hs.
    rewrite (conf_opt_no_section _ _ _ Hp). reflexivity.
  - intros pii sess Hs Hp Ht. rewrite get_expiration_time_eq, Hs.
    rewrite (conf_opt_section _ _ _ _ Hp), Ht. reflexivity.
Qed.

Lemma get_expiration_time_exact_witness :
  Models.get_expiration_time
    (Examples.world
       (Some (MkPiiShield None (Some (MkSessionConf (Some 3600) None)) None None None)) [])
  = (Examples.world
       (Some (MkPiiShield None (Some (MkSessionConf (Some 3600) None)) None None None)) [],
     Ok (Examples.t0 + 3600 * 1000000))
  ∧ Models.get_expiration_time (Examples.world None [])
    = (Examples.world None [], Ok (Examples.t0 + 1800 * 1000000)).
Proof.
  split.
  - apply (proj1 (get_expiration_time_exact
                    (Examples.world
                       (Some (MkPiiShield None (Some (MkSessionConf (Some 3600) None))
                                None None None)) []))
                 (MkPiiShield None (Some (MkSessionConf (Some 3600) None)) None None None)
                 (MkSessionConf (Some 3600) None) 3600); reflexivity.
  - apply (proj1 (proj2 (get_expiration_time_exact (Examples.world None [])))).
    reflexivity.
Defined.

(** *** The database as a keyed table *)

Lemma same_row_spec (a b : instance) :
  same_row a b = true ↔
  cls_name (obj_class a) = cls_name (obj_class b) ∧ obj_pk a = obj_pk b.
Proof.
  unfold same_row. rewrite andb_true_iff, String.eqb_eq, Z.eqb_eq. tauto.
Qed.

Lemma same_row_trans_l (a b c : instance) :
  same_row a b = true → same_row c b = same_row c a.
Proof.
  intros [Hn Hk]%same_row_spec. unfold same_row. now rewrite Hn, Hk.
Qed.

Lemma same_row_setattr_l (o r : instance) k v :
  same_row (setattr o k v) r = same_row o r.
Proof. reflexivity. Qed.

Lemma same_row_copy_fields_r fields (a o r : instance) :
  same_row a (copy_fields fields o r) = same_row a r.
Proof.
  induction fields as [|f fields IH]; simpl; [reflexivity|].
  destruct (obj_attrs o !! f); simpl; exact IH.
Qed.

Lemma db_update_get fields (o r : instance) rows :
  db_get o rows = Some r →
  ∃ rows', db_update fields o rows = Some rows'
           ∧ db_get o rows' = Some (copy_fields fields o r)
           ∧ ∀ o', same_row o' o = false → db_get o' rows' = db_get o' rows.
Proof.
  induction rows as [|x rows IH]; simpl; [discriminate|].
  destruct (same_row o x) eqn:Hx.
  - intros [= ->]. eexists. split; [reflexivity|]. split.
    + simpl. now rewrite same_row_copy_fields_r, Hx.
    + intros o' Ho'. simpl. rewrite same_row_copy_fields_r.
      now rewrite (same_row_trans_l _ _ o' Hx), Ho'.
  - intros Hget. destruct (IH Hget) as (rows' & Hup & Hg & Hother).
    exists (x :: rows'). rewrite Hup. split; [reflexivity|]. split.
    + simpl. now rewrite Hx.
    + intros o' Ho'. simpl. now rewrite (Hother o' Ho').
Qed.

Lemma db_get_setattr (o : instance) k v rows :
  db_get (setattr o k v) rows = db_get o rows.
Proof.
  induction rows as [|r rows IH]; simpl; [reflexivity|].
  rewrite same_row_setattr_l. now rewrite IH.
Qed.

Lemma copy_expiry_attrs (o r : instance) v :
  obj_attrs (copy_fields ["data_expires_at"] (setattr o "data_expires_at" v) r)
  = <["data_expires_at" := v]> (obj_attrs r).
Proof. simpl. rewrite lookup_insert_eq. reflexivity. Qed.

(** C7 (as amended).  For an entity [e] whose row is in the store,
    [refresh_expiration] returns [e] with [data_expires_at] set to
    [now + timeout] and rewrites that one column of the row of [e]: every
    other column of the row, and every other row, is as before.  The new
    expiry exceeds the previous one exactly when the previous one is below
    [now + timeout]. *)
Theorem refresh_expiration_touches_expiry_only (w : World) (e row : instance) :
  db_get e (db w) = Some row →
  let new := now w + timedelta_seconds (conf (settings w) SESSION SESSION_timeout 1800) in
  ∃ rows' row',
    Models.refresh_expiration e w
      = (set_db (fun _ => rows') w, Ok (setattr e "data_expires_at" (VTime new)))
    ∧ db_get e rows' = Some row'
    ∧ expires_of row' = Some new
    ∧ obj_class row' = obj_class row ∧ obj_pk row' = obj_pk row
    ∧ (∀ k, k ≠ "data_expires_at" → obj_attrs row' !! k = obj_attrs row !! k)
    ∧ (∀ o', same_row o' e = false → db_get o' rows' = db_get o' (db w))
    ∧ (∀ prev, expires_of row = Some prev → (prev < new ↔ prev < now w + timedelta_seconds (conf (settings w) SESSION SESSION_timeout 1800))).
Proof.
  intros Hrow new.
  set (e' := setattr e "data_expires_at" (VTime new)).
  assert (Hrow' : db_get e' (db w) = Some row)
    by (unfold e'; now rewrite db_get_setattr).
  destruct (db_update_get ["data_expires_at"] e' row (db w) Hrow')
    as (rows' & Hup & Hget & Hother).
  unfold e' in Hget; rewrite db_get_setattr in Hget; fold e' in Hget.
  exists rows', (copy_fields ["data_expires_at"] e' row).
  split; [|split; [exact Hget|]].
  - unfold Models.refresh_expiration, bind. rewrite get_expiration_time_eq.
    fold (conf (settings w) SESSION SESSION_timeout 1800). fold new. fold e'.
    unfold save_update_fields. now rewrite Hup.
  - assert (Hattrs := copy_expiry_attrs e row (VTime new)). fold e' in Hattrs.
    repeat split.
    + unfold expires_of. now rewrite Hattrs, lookup_insert_eq.
    + simpl. now rewrite lookup_insert_eq.
    + simpl. now rewrite lookup_insert_eq.
    + intros k Hk. rewrite Hattrs. now apply lookup_insert_ne.
    + exact Hother.
    + tauto.
    + tauto.
Qed.

Lemma refresh_expiration_touches_expiry_only_witness :
  let w := Examples.world None [Examples.home "s" Examples.t0] in
  ∃ rows' row',
    Models.refresh_expiration (Examples.home "s" Examples.t0) w
      = (set_db (fun _ => rows') w,
         Ok (setattr (Examples.home "s" Examples.t0) "data_expires_at"
                     (VTime (Examples.t0 + 1800000000))))
    ∧ db_get (Examples.home "s" Examples.t0) rows' = Some row'
    ∧ expires_of row' = Some (Examples.t0 + 1800000000).
Proof.
  intros w.
  destruct (refresh_expiration_touches_expiry_only w (Examples.home "s" Examples.t0)
              (Examples.home "s" Examples.t0) eq_refl)
    as (rows' & row' & H1 & H2 & H3 & _).
  exists rows', row'. split; [exact H1|]. split; [exact H2|exact H3].
Defined.

(** C7, counterexample to "the new expiry is strictly greater than the
    previous one".  A row written with a one-hour lifetime and refreshed at
    the same instant by a process that runs with the default timeout of
    1800 seconds: its expiry moves back by half an hour. *)
Lemma refresh_expiration_can_shorten :
  let e := Examples.home "s" (Examples.t0 + timedelta_seconds 3600) in
  let w := Examples.world None [e] in
  db_get e (db w) = Some e
  ∧ expires_of e = Some (Examples.t0 + timedelta_seconds 3600)
  ∧ (db_get e (db (fst (Models.refresh_expiration e w)))) ≫= expires_of
    = Some (Examples.t0 + timedelta_seconds 1800)
  ∧ ¬ (Examples.t0 + timedelta_seconds 1800 > Examples.t0 + timedelta_seconds 3600).
Proof.
  repeat split; try reflexivity. unfold timedelta_seconds, Examples.t0. lia.
Qed.

(** ** Storage router ([routers.py]) *)

Lemma allow_relation_two_pii st obj1 obj2 :
  isinstance obj1 "PIIModel" = true → isinstance obj2 "PIIModel" = true →
  Routers.allow_relation st obj1 obj2 = Some true.
Proof. intros H1 H2. unfold Routers.allow_relation. now rewrite H1, H2. Qed.

Lemma allow_relation_one_pii st obj1 obj2 :
  xorb (isinstance obj1 "PIIModel") (isinstance obj2 "PIIModel") = true →
  Routers.allow_relation st obj1 obj2 = Some (allow_mixed st).
Proof.
  unfold Routers.allow_relation, allow_mixed.
  destruct (isinstance obj1 "PIIModel"), (isinstance obj2 "PIIModel");
    simpl; try discriminate; intros _;
    now destruct (conf st ADVANCED ADVANCED_allow_mixed_relations false).
Qed.

Lemma allow_relation_no_pii_flag_off st obj1 obj2 :
  isinstance obj1 "PIIModel" = false → isinstance obj2 "PIIModel" = false →
  allow_mixed st = false →
  Routers.allow_relation st obj1 obj2 = None.
Proof.
  unfold allow_mixed. intros H1 H2 Hm. unfold Routers.allow_relation.
  now rewrite H1, H2, Hm.
Qed.

(** C5.  What the router answers for two objects neither of which is a
    Replicated Entity when [allow_mixed_relations] is set: it allows the
    relation, it does not defer.  (The flag is tested before the test that
    tells mixed pairs from pairs without any Replicated Entity.) *)
Theorem allow_relation_no_pii_flag_on st obj1 obj2 :
  isinstance obj1 "PIIModel" = false → isinstance obj2 "PIIModel" = false →
  allow_mixed st = true →
  Routers.allow_relation st obj1 obj2 = Some true
  ∧ Routers.allow_relation st obj1 obj2 ≠ None.
Proof.
  unfold allow_mixed. intros H1 H2 Hm. unfold Routers.allow_relation.
  rewrite H1, H2, Hm. simpl. split; [reflexivity|discriminate].
Qed.

Lemma allow_relation_no_pii_flag_on_witness :
  let st := Some (MkPiiShield None None None None
                    (Some (MkAdvancedConf (Some true) None None None None))) in
  Routers.allow_relation st (VObj Examples.alice) (VObj Examples.alice) = Some true
  ∧ Routers.allow_relation st (VObj Examples.alice) (VObj Examples.alice) ≠ None.
Proof.
  intros st.
  apply (allow_relation_no_pii_flag_on st (VObj Examples.alice) (VObj Examples.alice));
    reflexivity.
Defined.

(** ** Frame reasoning for code in [M] *)

Section Frame.

Variable P : World → World → Prop.
Hypothesis P_refl : ∀ w, P w w.
Hypothesis P_trans : ∀ w1 w2 w3, P w1 w2 → P w2 w3 → P w1 w3.
Hypothesis P_rollback : ∀ w w', P w w' → P w (set_db (fun _ => db w) w').

Lemma preserves_ret {A} (a : A) : preserves P (ret a).
Proof. intros w w' r [= <- _]. apply P_refl. Qed.

Lemma preserves_raise {A} e : preserves P (@raise A e).
Proof. intros w w' r [= <- _]. apply P_refl. Qed.

Lemma preserves_get_world : preserves P get_world.
Proof. intros w w' r [= <- _]. apply P_refl. Qed.

Lemma preserves_modify f : (∀ w, P w (f w)) → preserves P (modify f).
Proof. intros Hf w w' r [= <- _]. apply Hf. Qed.

Lemma preserves_bind {A B} (m : M A) (k : A → M B) :
  preserves P m → (∀ a, preserves P (k a)) → preserves P (bind m k).
Proof.
  intros Hm Hk w w' r. unfold bind.
  destruct (m w) as [w1 [a|e]] eqn:Em.
  - intros Ek. eapply P_trans; [eapply Hm, Em | eapply Hk, Ek].
  - intros [= <- _]. eapply Hm, Em.
Qed.

Lemma preserves_try_except {A} (m : M A) (h : exn → M A) :
  preserves P m → (∀ e, preserves P (h e)) → preserves P (try_except m h).
Proof.
  intros Hm Hh w w' r. unfold try_except.
  destruct (m w) as [w1 [a|e]] eqn:Em.
  - intros [= <- _]. eapply Hm, Em.
  - intros Eh. eapply P_trans; [eapply Hm, Em | eapply Hh, Eh].
Qed.

Lemma preserves_atomic {A} (m : M A) : preserves P m → preserves P (atomic m).
Proof.
  intros Hm w w' r. unfold atomic.
  destruct (m w) as [w1 [a|e]] eqn:Em.
  - intros [= <- _]. eapply Hm, Em.
  - intros [= <- _]. apply P_rollback. eapply Hm, Em.
Qed.

Lemma preserves_for_each {A} (xs : list A) (body : A → M unit) :
  (∀ x, x ∈ xs → preserves P (body x)) → preserves P (for_each xs body).
Proof.
  induction xs as [|x xs IH]; intros Hb; simpl.
  - apply preserves_ret.
  - apply preserves_bind.
    + apply Hb. left.
    + intros _. apply IH. intros y Hy. apply Hb. now right.
Qed.

Lemma preserves_save v :
  (∀ w o, P w (set_db (db_save o) w)) → preserves P (save v).
Proof.
  intros Hdb. destruct v; simpl; try apply preserves_raise.
  apply preserves_modify. intros w. apply Hdb.
Qed.

End Frame.

Lemma preserves_weaken {A} (P Q : World → World → Prop) (m : M A) :
  (∀ w w', P w w' → Q w w') → preserves P m → preserves Q m.
Proof. intros HPQ Hm w w' r Hrun. eapply HPQ, Hm, Hrun. Qed.

Create HintDb frame.

(** One step of a frame proof: peel the outermost combinator, discharge
    the side conditions on the relation. *)
Ltac frame_step :=
  first
    [ apply preserves_ret
    | apply preserves_raise
    | apply preserves_get_world
    | apply preserves_bind
    | apply preserves_try_except
    | apply preserves_atomic
    | match goal with
      | |- preserves _ (match ?x with _ => _ end) => destruct x
      end ];
  try solve [eauto with frame];
  try match goal with |- forall _, _ => intro end.

(** Inversion of a successful sequence. *)
Lemma bind_Ok {A B} (m : M A) (k : A → M B) w w' b :
  bind m k w = (w', Ok b) → ∃ w1 a, m w = (w1, Ok a) ∧ k a w1 = (w', Ok b).
Proof.
  unfold bind. destruct (m w) as [w1 [a|e]]; [|discriminate].
  intros H. now exists w1, a.
Qed.

Lemma atomic_Ok {A} (m : M A) w w' a :
  atomic m w = (w', Ok a) → m w = (w', Ok a).
Proof.
  unfold atomic. destruct (m w) as [w1 [a1|e]]; [|discriminate]. now intros [= <- <-].
Qed.

Lemma for_each_Ok {A} (xs : list A) (body : A → M unit) w w' (P : World → World → Prop) :
  (∀ w, P w w) → (∀ w1 w2 w3, P w1 w2 → P w2 w3 → P w1 w3) →
  (∀ x, x ∈ xs → preserves P (body x)) →
  for_each xs body w = (w', Ok tt) →
  ∀ x, x ∈ xs → ∃ w1 w2, P w w1 ∧ body x w1 = (w2, Ok tt) ∧ P w2 w'.
Proof.
  intros Hrefl Htrans.
  revert w. induction xs as [|y xs IH]; intros w Hb Hrun x Hx.
  - inversion Hx.
  - simpl in Hrun. apply bind_Ok in Hrun as (w1 & [] & Hy & Hrest).
    assert (Hrest_pres : preserves P (for_each xs body)).
    { apply preserves_for_each; auto. intros z Hz. apply Hb. now right. }
    apply elem_of_cons in Hx as [->|Hx].
    + exists w, w1. split; [apply Hrefl|]. split; [exact Hy|].
      eapply Hrest_pres, Hrest.
    + destruct (IH w1 (fun z Hz => Hb z (list_elem_of_further _ _ _ Hz)) Hrest x Hx)
        as (wa & wb & Ha & Hbody & Hb').
      exists wa, wb. split; [|split; assumption].
      eapply Htrans; [|exact Ha]. eapply (Hb y); [left|exact Hy].
Qed.

(** ** Publisher ([sync/publisher.py]) *)

Lemma stamp_VObj o sid exp :
  Publisher.stamp (VObj o) sid exp = VObj (stamp_obj o sid exp).
Proof.
  unfold Publisher.stamp, stamp_obj, hasattr.
  destruct (bool_decide (is_Some (obj_attrs o !! "session_id"))); simpl;
    match goal with |- context [bool_decide ?P] => destruct (bool_decide P) end;
    reflexivity.
Qed.


Lemma publish_model_up o w :
  bus_up w = true →
  Publisher.publish_model (VObj o) None w
  = (set_log (fun l => l ++ [LDebug "Published message to channel"])
       (set_published (fun p => p ++ [(default_channel (settings w), [o])]) w),
     Ok (receivers w)).
Proof.
  intros Hup. destruct w. simpl in Hup. subst.
  reflexivity.
Qed.

Lemma process_instance_plain recurse sid exp o w :
  bus_up w = true →
  Publisher.process_instance recurse sid exp false (VObj o) w
  = (persist_publish (stamp_obj o sid exp) w, Ok tt).
Proof.
  intros Hup. unfold Publisher.process_instance. rewrite stamp_VObj.
  unfold bind at 1. simpl save. unfold modify.
  unfold bind at 1. rewrite publish_model_up by exact Hup.
  destruct recurse; reflexivity.
Qed.

Lemma persist_publish_bus o w : bus_up (persist_publish o w) = bus_up w.
Proof. reflexivity. Qed.

Lemma persist_publish_settings o w : settings (persist_publish o w) = settings w.
Proof. reflexivity. Qed.

Lemma for_each_plain recurse sid exp insts w :
  bus_up w = true →
  for_each (VObj <$> insts) (Publisher.process_instance recurse sid exp false) w
  = (foldl (fun w' o => persist_publish (stamp_obj o sid exp) w') w insts, Ok tt).
Proof.
  revert w. induction insts as [|o insts IH]; intros w Hup; [reflexivity|].
  cbn [fmap list_fmap for_each foldl]. unfold bind.
  rewrite process_instance_plain by exact Hup.
  apply IH. now rewrite persist_publish_bus.
Qed.

Lemma mapM_as_instance items insts :
  mapM as_instance items = Some insts → items = VObj <$> insts.
Proof.
  revert insts. induction items as [|v items IH]; intros insts; simpl.
  - now intros [= <-].
  - destruct v; simpl; try discriminate.
    destruct (mapM as_instance items) as [os|] eqn:E; simpl; [|discriminate].
    intros [= <-]. simpl. f_equal. now apply IH.
Qed.

Lemma as_instances_items arg insts :
  as_instances arg = Some insts →
  match arg with
  | VList items => items
  | VTuple items => items
  | v => [v]
  end = VObj <$> insts.
Proof.
  destruct arg; simpl; try discriminate.
  - now intros [= <-].
  - apply mapM_as_instance.
  - apply mapM_as_instance.
Qed.

Lemma sync_data_at_eq depth arg sid incl w :
  Publisher.sync_data_at depth arg sid incl w
  = let w0 := set_calls (fun c => c ++ [(arg, depth)]) w in
    if negb (String.eqb (mode_or (settings w) "backend") "backend") then
      (set_log (fun l => l ++ [LWarning "sync_data should only be called in backend mode!"]) w0,
       Ok false)
    else
      (atomic
         (for_each
            match arg with
            | VList items => items
            | VTuple items => items
            | v => [v]
            end
            (Publisher.process_instance (Publisher.recursion depth sid incl)
               sid (expiry_at w) incl)) ;;;
       ret true)%py w0.
Proof.
  destruct depth; cbn [Publisher.sync_data_at]; unfold bind at 1, modify;
    unfold bind at 1, get_world; cbn [settings set_calls];
    destruct (negb _); reflexivity.
Qed.

(** The refusal: outside the source role nothing is written or published. *)
Lemma sync_data_at_refuses depth arg sid incl w :
  mode_or (settings w) "backend" ≠ "backend" →
  Publisher.sync_data_at depth arg sid incl w
  = (set_log (fun l => l ++ [LWarning "sync_data should only be called in backend mode!"])
       (set_calls (fun c => c ++ [(arg, depth)]) w),
     Ok false).
Proof.
  intros Hmode%String.eqb_neq. rewrite sync_data_at_eq. cbv zeta.
  now rewrite Hmode.
Qed.

(** The source role, without related models: every instance is stamped,
    saved and published, in order. *)
Lemma sync_data_at_source depth arg sid insts w :
  mode_or (settings w) "backend" = "backend" →
  bus_up w = true →
  as_instances arg = Some insts →
  Publisher.sync_data_at depth arg sid false w
  = (foldl (fun w' o => persist_publish (stamp_obj o sid (expiry_at w)) w')
       (set_calls (fun c => c ++ [(arg, depth)]) w) insts,
     Ok true).
Proof.
  intros Hmode%String.eqb_eq Hup Hinsts.
  apply as_instances_items in Hinsts.
  rewrite sync_data_at_eq. cbv zeta. rewrite Hmode. cbn [negb].
  rewrite Hinsts. unfold bind, atomic.
  rewrite for_each_plain by exact Hup. reflexivity.
Qed.

Lemma fold_persist_db (f : instance → instance) insts w :
  db (foldl (fun w' o => persist_publish (f o) w') w insts)
  = foldl (fun rows o => db_save (f o) rows) (db w) insts.
Proof.
  revert w. induction insts as [|o insts IH]; intros w; [reflexivity|].
  cbn [foldl]. now rewrite IH.
Qed.


Lemma fold_persist_published (f : instance → instance) insts w :
  published (foldl (fun w' o => persist_publish (f o) w') w insts)
  = published w ++ map (fun o => (default_channel (settings w), [f o])) insts.
Proof.
  revert w. induction insts as [|o insts IH]; intros w.
  - cbn [foldl map]. now rewrite app_nil_r.
  - cbn [foldl map]. rewrite IH. rewrite persist_publish_settings.
    unfold persist_publish at 1. simpl published. now rewrite <- app_assoc.
Qed.

(** In the source role [sync_data] never answers [False]. *)
Lemma sync_data_at_source_never_false depth arg sid incl w w' b :
  mode_or (settings w) "backend" = "backend" →
  Publisher.sync_data_at depth arg sid incl w = (w', Ok b) → b = true.
Proof.
  intros Hmode%String.eqb_eq. rewrite sync_data_at_eq. cbv zeta.
  rewrite Hmode. cbn [negb].
  intros (w1 & [] & _ & Hret)%bind_Ok. now injection Hret as _ <-.
Qed.

(** With no recursion to make ([depth] not positive), [include_related]
    changes nothing. *)
Lemma process_instance_no_recursion sid exp incl o w :
  bus_up w = true →
  Publisher.process_instance None sid exp incl (VObj o) w
  = (persist_publish (stamp_obj o sid exp) w, Ok tt).
Proof.
  intros Hup. unfold Publisher.process_instance. rewrite stamp_VObj.
  unfold bind at 1. simpl save. unfold modify.
  unfold bind at 1. rewrite publish_model_up by exact Hup. reflexivity.
Qed.

Lemma sync_data_at_source_flat arg sid incl insts w :
  mode_or (settings w) "backend" = "backend" →
  bus_up w = true →
  as_instances arg = Some insts →
  Publisher.sync_data_at 0 arg sid incl w
  = (foldl (fun w' o => persist_publish (stamp_obj o sid (expiry_at w)) w')
       (set_calls (fun c => c ++ [(arg, 0%nat)]) w) insts,
     Ok true).
Proof.
  intros Hmode%String.eqb_eq Hup Hinsts.
  apply as_instances_items in Hinsts.
  rewrite sync_data_at_eq. cbv zeta. rewrite Hmode. cbn [negb].
  rewrite Hinsts. unfold bind, atomic.
  assert (Hloop : ∀ w1, bus_up w1 = true →
            for_each (VObj <$> insts)
              (Publisher.process_instance (Publisher.recursion 0 sid incl)
                 sid (expiry_at w) incl) w1
            = (foldl (fun w' o => persist_publish (stamp_obj o sid (expiry_at w)) w')
                 w1 insts, Ok tt)).
  { clear. induction insts as [|o insts IH]; intros w1 Hup; [reflexivity|].
    cbn [fmap list_fmap for_each foldl]. unfold bind.
    cbn [Publisher.recursion].
    rewrite process_instance_no_recursion by exact Hup.
    apply IH. now rewrite persist_publish_bus. }
  rewrite Hloop by exact Hup. reflexivity.
Qed.

(** *** What no step of the publisher undoes *)

Section Monotone.

Variable P : World → World → Prop.
Hypothesis HP : monotone P.

Lemma mono_logger e : preserves P (logger e).
Proof. apply preserves_modify. intros w. apply HP. Qed.

Lemma mono_get_expiration_time : preserves P Models.get_expiration_time.
Proof. intros w w' r. rewrite get_expiration_time_eq. intros [= <- _]. apply HP. Qed.

Lemma mono_redis_publish c m : preserves P (Publisher.redis_publish c m).
Proof.
  intros w w' r. unfold Publisher.redis_publish.
  destruct (bus_up w); intros [= <- _]; apply HP.
Qed.

Lemma mono_serialize b : preserves P (Publisher.serialize b).
Proof. intros w w' r. unfold Publisher.serialize. intros [= <- _]. apply HP. Qed.

Lemma mono_save v : preserves P (save v).
Proof. apply preserves_save; apply HP. Qed.

#[local] Hint Resolve mono_logger mono_get_expiration_time mono_redis_publish
  mono_serialize mono_save : frame.

Lemma mono_publish c m : preserves P (Publisher.publish c m).
Proof. unfold Publisher.publish. repeat (frame_step; try solve [apply HP]). Qed.

#[local] Hint Resolve mono_publish : frame.

Lemma mono_publish_model v c : preserves P (Publisher.publish_model v c).
Proof. unfold Publisher.publish_model. repeat (frame_step; try solve [apply HP]). Qed.

Lemma mono_getattr v n : preserves P (Publisher.getattr v n).
Proof. unfold Publisher.getattr. repeat (frame_step; try solve [apply HP]). Qed.

Lemma mono_manager_all v : preserves P (Publisher.manager_all v).
Proof. unfold Publisher.manager_all. repeat (frame_step; try solve [apply HP]). Qed.

#[local] Hint Resolve mono_publish_model mono_getattr mono_manager_all : frame.

Lemma mono_follow_field recurse inst field :
  (∀ v, preserves P (recurse v)) →
  preserves P (Publisher.follow_field recurse inst field).
Proof.
  intros Hrec. unfold Publisher.follow_field.
  destruct (is_relation field && concrete field);
    [|apply preserves_ret; apply HP].
  destruct (one_to_many field || many_to_many field).
  - repeat (frame_step; try solve [apply HP]).
  - destruct (many_to_one field || one_to_one field);
      [|apply preserves_ret; apply HP].
    apply preserves_bind; [apply HP|eauto with frame|].
    intros v. destruct (truthy v); repeat (frame_step; try solve [apply HP]).
Qed.

(** The last step of the loop body: the walk over the fields. *)
Lemma mono_follow_all (recurse : option (value → M bool)) (incl : bool) inst :
  (∀ rec v, recurse = Some rec → preserves P (rec v)) →
  preserves P
    match recurse with
    | Some rec =>
        if incl
        then for_each (Publisher.get_fields inst) (Publisher.follow_field rec inst)
        else ret tt
    | None => ret tt
    end.
Proof.
  intros Hrec.
  destruct recurse as [rec|]; [|apply preserves_ret; apply HP].
  destruct incl; [|apply preserves_ret; apply HP].
  apply preserves_for_each; try apply HP.
  intros f _. apply mono_follow_field. intros v. now apply (Hrec rec).
Qed.

Lemma mono_process_instance recurse sid exp incl inst :
  (∀ rec v, recurse = Some rec → preserves P (rec v)) →
  preserves P (Publisher.process_instance recurse sid exp incl inst).
Proof.
  intros Hrec. unfold Publisher.process_instance.
  apply preserves_bind; [apply HP|eauto with frame|]. intros _.
  apply preserves_bind; [apply HP|eauto with frame|]. intros _.
  now apply mono_follow_all.
Qed.

(** The loop of [sync_data] and what follows it. *)
Lemma mono_sync_loop depth sid exp incl instances :
  (∀ rec v, Publisher.recursion depth sid incl = Some rec → preserves P (rec v)) →
  preserves P
    (atomic (for_each instances
               (Publisher.process_instance (Publisher.recursion depth sid incl)
                  sid exp incl)) ;;;
     ret true)%py.
Proof.
  intros Hrec.
  apply preserves_bind; [apply HP| |intros _; apply preserves_ret; apply HP].
  apply preserves_atomic; [apply HP|].
  apply preserves_for_each; try apply HP.
  intros x _. now apply mono_process_instance.
Qed.

Lemma mono_sync_data_at depth arg sid incl :
  preserves P (Publisher.sync_data_at depth arg sid incl).
Proof.
  revert arg. induction depth as [|d IH]; intros arg w w' r;
    rewrite sync_data_at_eq; cbv zeta;
    (destruct (negb _);
     [intros [= <- _]; eapply (mono_trans P HP);
      [apply (mono_called P HP)|apply (mono_logged P HP)]|]);
    intros Hrun;
    (eapply (mono_trans P HP); [apply (mono_called P HP)|]);
    (match type of Hrun with
     | ?m _ = _ => enough (Hp : preserves P m) by exact (Hp _ _ _ Hrun)
     end);
    apply mono_sync_loop; intros rec v; cbn [Publisher.recursion];
    [discriminate|].
  intros [= <-]. apply IH.
Qed.

Lemma mono_import_from ns name : preserves P (Middleware.import_from ns name).
Proof.
  unfold Middleware.import_from.
  destruct (bool_decide _); repeat (frame_step; try solve [apply HP]).
Qed.

Lemma mono_get_registered_models : preserves P Sync.get_registered_models.
Proof.
  unfold Sync.get_registered_models. repeat (frame_step; try solve [apply HP]).
Qed.

End Monotone.

Lemma db_get_save (o' o : instance) rows :
  is_Some (db_get o' rows) → is_Some (db_get o' (db_save o rows)).
Proof.
  induction rows as [|r rows IH]; cbn [db_get db_save]; [intros [? [=]]|].
  destruct (same_row o r) eqn:Hor; cbn [db_get].
  - rewrite <- (same_row_trans_l _ _ o' Hor).
    destruct (same_row o' r); eauto.
  - destruct (same_row o' r); eauto.
Qed.

Lemma db_get_save_same (o : instance) rows : is_Some (db_get o (db_save o rows)).
Proof.
  assert (Hoo : same_row o o = true) by now apply same_row_spec.
  induction rows as [|r rows IH]; cbn [db_get db_save].
  - rewrite Hoo. eauto.
  - destruct (same_row o r) eqn:Hor; cbn [db_get].
    + rewrite Hoo. eauto.
    + rewrite Hor. exact IH.
Qed.

Lemma settled_monotone : monotone settled.
Proof.
  assert (Hnil : ∀ (l : list (string * list instance)), ∃ l', l = l ++ l').
  { intros l. exists []. now rewrite app_nil_r. }
  split.
  - intros w. repeat split; auto.
  - intros w1 w2 w3 (Hs1 & Hn1 & [l1 Hp1] & Hk1) (Hs2 & Hn2 & [l2 Hp2] & Hk2).
    repeat split; try congruence.
    + exists (l1 ++ l2). now rewrite Hp2, Hp1, app_assoc.
    + auto.
  - intros w w' (Hs & Hn & Hp & Hk). repeat split; auto.
  - intros w o. repeat split; cbn; auto using db_get_save.
  - intros w e. repeat split; cbn; auto.
  - intros w c m. repeat split; cbn; auto. now exists [(c, m)].
  - intros w c. repeat split; cbn; auto.
Qed.

Lemma publish_model_Ok o w w' n :
  Publisher.publish_model (VObj o) None w = (w', Ok n) →
  published w' = published w ++ [(default_channel (settings w), [o])]
  ∧ db w' = db w ∧ settings w' = settings w.
Proof.
  destruct (bus_up w) eqn:Hup.
  - rewrite publish_model_up by exact Hup. now intros [= <- _].
  - destruct w. cbn in Hup. subst. discriminate.
Qed.

(** A call that returns [True] has saved and published every instance it
    was given, whatever it followed besides. *)
Lemma sync_data_at_Ok_persisted depth arg sid incl insts w w' :
  Publisher.sync_data_at depth arg sid incl w = (w', Ok true) →
  as_instances arg = Some insts →
  ∃ l, published w' = published w ++ l
       ∧ ∀ o, o ∈ insts →
           (default_channel (settings w), [stamp_obj o sid (expiry_at w)]) ∈ l
           ∧ is_Some (db_get (stamp_obj o sid (expiry_at w)) (db w')).
Proof.
  intros Hrun Hinsts. apply as_instances_items in Hinsts.
  rewrite sync_data_at_eq in Hrun. cbv zeta in Hrun.
  destruct (negb _); [discriminate|]. rewrite Hinsts in Hrun.
  set (w0 := set_calls (fun c => c ++ [(arg, depth)]) w) in *.
  assert (Hrec : ∀ rec v, Publisher.recursion depth sid incl = Some rec →
                          preserves settled (rec v)).
  { intros rec v. destruct depth; cbn [Publisher.recursion]; [discriminate|].
    intros [= <-]. apply mono_sync_data_at, settled_monotone. }
  destruct (mono_sync_loop settled settled_monotone depth sid (expiry_at w) incl
              _ Hrec _ _ _ Hrun) as (_ & _ & [l Hl] & _).
  exists l. split; [exact Hl|].
  apply bind_Ok in Hrun as (w1 & [] & Hloop%atomic_Ok & Hret). injection Hret as ->.
  intros o Ho.
  assert (Hbody : ∀ x, x ∈ VObj <$> insts →
            preserves settled
              (Publisher.process_instance (Publisher.recursion depth sid incl)
                 sid (expiry_at w) incl x)).
  { intros x _. apply mono_process_instance; [apply settled_monotone|exact Hrec]. }
  destruct (for_each_Ok _ _ _ _ settled (mono_refl _ settled_monotone)
              (mono_trans _ settled_monotone) Hbody Hloop (VObj o))
    as (wa & wb & (Hsa & _ & [la Hla] & _) & Hrun_o & (_ & _ & [lb Hlb] & Hkb)).
  { apply list_elem_of_fmap. now exists o. }
  unfold Publisher.process_instance in Hrun_o. rewrite stamp_VObj in Hrun_o.
  set (o' := stamp_obj o sid (expiry_at w)) in *.
  apply bind_Ok in Hrun_o as (ws & [] & Hsave & Hrun_o).
  apply bind_Ok in Hrun_o as (wp & n & Hpub & Htail).
  injection Hsave as <-.
  apply publish_model_Ok in Hpub as (Hpp & Hpd & _).
  destruct (mono_follow_all settled settled_monotone _ incl (VObj o') Hrec _ _ _ Htail)
    as (_ & _ & [lt Hlt] & Hkt).
  split.
  - rewrite Hlb, Hlt, Hpp in Hl. cbn [published set_db settings] in Hl.
    rewrite Hla in Hl. change (published w0) with (published w) in Hl.
    rewrite Hsa in Hl. change (settings w0) with (settings w) in Hl.
    rewrite <- !app_assoc in Hl. apply app_inv_head in Hl. subst l.
    rewrite !elem_of_app. right. left. left.
  - apply Hkb, Hkt. rewrite Hpd. cbn [db set_db]. apply db_get_save_same.
Qed.

(** C9.  Outside the source role (a configured [MODE] other than
    ["backend"]) [sync_data] returns [False] after logging one warning,
    and neither the store nor the bus is touched.  In the source role it
    never returns [False]; when it returns [True], each instance it was
    given has been published on the default channel and has its row in the
    store, stamped with the session id and [now + timeout]; and it does
    return [True], having saved and published exactly the given instances
    in order, when the bus is reachable and no related model is followed
    ([include_related] false, or [depth] not positive). *)
Theorem sync_data_role_gate (w : World) (arg sid : value) (incl : bool) (depth : Z) :
  (mode_or (settings w) "backend" ≠ "backend" →
     ∃ w', Publisher.sync_data arg sid incl depth w = (w', Ok false)
           ∧ db w' = db w ∧ published w' = published w ∧ now w' = now w
           ∧ log w' = log w
                      ++ [LWarning "sync_data should only be called in backend mode!"])
  ∧ (mode_or (settings w) "backend" = "backend" →
       (∀ w' b, Publisher.sync_data arg sid incl depth w = (w', Ok b) → b = true)
       ∧ (∀ w' insts,
            Publisher.sync_data arg sid incl depth w = (w', Ok true) →
            as_instances arg = Some insts →
            ∃ l, published w' = published w ++ l
                 ∧ ∀ o, o ∈ insts →
                     (default_channel (settings w), [stamp_obj o sid (expiry_at w)]) ∈ l
                     ∧ is_Some (db_get (stamp_obj o sid (expiry_at w)) (db w')))
       ∧ (bus_up w = true → incl = false ∨ depth <= 0 →
          ∀ insts, as_instances arg = Some insts →
          ∃ w', Publisher.sync_data arg sid incl depth w = (w', Ok true)
                ∧ db w' = foldl (fun rows o => db_save (stamp_obj o sid (expiry_at w)) rows)
                                (db w) insts
                ∧ published w'
                  = published w
                    ++ map (fun o => (default_channel (settings w),
                                      [stamp_obj o sid (expiry_at w)])) insts)).
Proof.
  unfold Publisher.sync_data. split.
  - intros Hmode. eexists. split; [apply sync_data_at_refuses, Hmode|].
    repeat split; reflexivity.
  - intros Hmode. split; [|split].
    + intros w' b. now apply sync_data_at_source_never_false.
    + intros w' insts. apply sync_data_at_Ok_persisted.
    + intros Hup Hflat insts Hinsts.
      assert (Hrun : Publisher.sync_data_at (Z.to_nat depth) arg sid incl w
                = (foldl (fun w' o => persist_publish (stamp_obj o sid (expiry_at w)) w')
                     (set_calls (fun c => c ++ [(arg, Z.to_nat depth)]) w) insts,
                   Ok true)).
      { destruct Hflat as [->|Hd].
        - now apply sync_data_at_source.
        - replace (Z.to_nat depth) with 0%nat by lia.
          now apply sync_data_at_source_flat. }
      eexists. split; [exact Hrun|].
      rewrite fold_persist_db, fold_persist_published. split; reflexivity.
Qed.

Lemma sync_data_role_gate_witness :
  (∃ w', Publisher.sync_data (VObj (Examples.home "" 0)) (VStr "s1") true 1
           (Examples.world (Examples.with_mode "frontend") []) = (w', Ok false)
         ∧ db w' = [] ∧ published w' = [])
  ∧ (∃ w', Publisher.sync_data
             (VList [VObj (Examples.home "" 0); VObj Examples.alice]) (VStr "s1") false 1
             (Examples.world (Examples.with_mode "backend") []) = (w', Ok true)
           ∧ length (db w') = 2%nat ∧ length (published w') = 2%nat).
Proof.
  split.
  - destruct (proj1 (sync_data_role_gate
                       (Examples.world (Examples.with_mode "frontend") [])
                       (VObj (Examples.home "" 0)) (VStr "s1") true 1))
      as (w' & Hrun & Hdb & Hpub & _).
    + discriminate.
    + exists w'. split; [exact Hrun|]. split; assumption.
  - destruct (proj2 (sync_data_role_gate
                       (Examples.world (Examples.with_mode "backend") [])
                       (VList [VObj (Examples.home "" 0); VObj Examples.alice])
                       (VStr "s1") false 1) eq_refl)
      as [_ Hrun].
    destruct Hrun as [_ Hrun].
    destruct (Hrun eq_refl (or_introl eq_refl) _ eq_refl) as (w' & Hrun' & Hdb & Hpub).
    exists w'. split; [exact Hrun'|]. rewrite Hdb, Hpub. split; reflexivity.
Defined.

(** ** Consumer ([sync/consumer.py]): the role check of [start] *)

Lemma start_in_sink_role (self : Consumer.Consumer) (w : World) :
  mode_or (settings w) "frontend" = "frontend" →
  Consumer.running self = false →
  Consumer.start self w
  = (set_log (fun l => l ++ [LDebug "Consumer started"]) w,
     Ok (Consumer.MkConsumer true true (Consumer.channels self), true)).
Proof.
  intros Hmode%String.eqb_eq Hrun. unfold Consumer.start, bind, get_world.
  rewrite Hmode, Hrun. reflexivity.
Qed.

Lemma mode_or_unset st dflt : configured_mode st = None → mode_or st dflt = dflt.
Proof. intros H. unfold mode_or. now rewrite H. Qed.

(** C10.  With no [MODE] configured the two role checks read two
    different defaults and both pass.  [sync_data] takes ["backend"]: it
    never answers [False], and with the bus reachable it saves and
    publishes the instances it is given.  [Consumer.start] takes
    ["frontend"]: a consumer that is not running is started. *)
Theorem unconfigured_mode_passes_both_guards
    (w : World) (self : Consumer.Consumer) (arg sid : value) (incl : bool) (depth : Z) :
  configured_mode (settings w) = None →
  (mode_or (settings w) "backend" = "backend"
   ∧ mode_or (settings w) "frontend" = "frontend")
  ∧ (∀ w' b, Publisher.sync_data arg sid incl depth w = (w', Ok b) → b = true)
  ∧ (bus_up w = true → ∀ insts, as_instances arg = Some insts →
     ∃ w', Publisher.sync_data arg sid false depth w = (w', Ok true)
           ∧ db w' = foldl (fun rows o => db_save (stamp_obj o sid (expiry_at w)) rows)
                           (db w) insts
           ∧ published w'
             = published w
               ++ map (fun o => (default_channel (settings w),
                                 [stamp_obj o sid (expiry_at w)])) insts)
  ∧ (Consumer.running self = false →
     Consumer.start self w
     = (set_log (fun l => l ++ [LDebug "Consumer started"]) w,
        Ok (Consumer.MkConsumer true true (Consumer.channels self), true))).
Proof.
  intros Hunset.
  assert (Hsrc := mode_or_unset _ "backend" Hunset).
  assert (Hsink := mode_or_unset _ "frontend" Hunset).
  split; [now split|]. split; [|split].
  - intros w' b. unfold Publisher.sync_data.
    now apply sync_data_at_source_never_false.
  - intros Hup insts Hinsts. unfold Publisher.sync_data. eexists.
    split; [exact (sync_data_at_source _ _ _ insts w Hsrc Hup Hinsts)|].
    rewrite fold_persist_db, fold_persist_published. split; reflexivity.
  - now apply start_in_sink_role.
Qed.

Lemma unconfigured_mode_passes_both_guards_witness :
  let w := Examples.world None [] in
  let idle := Consumer.MkConsumer false false [] in
  (∃ w', Publisher.sync_data (VObj Examples.alice) (VStr "s1") false 1 w = (w', Ok true)
         ∧ length (published w') = 1%nat)
  ∧ snd (Consumer.start idle w) = Ok (Consumer.MkConsumer true true [], true).
Proof.
  intros w idle.
  destruct (unconfigured_mode_passes_both_guards w idle (VObj Examples.alice)
              (VStr "s1") false 1 eq_refl) as (_ & _ & Hsync & Hstart).
  split.
  - destruct (Hsync eq_refl _ eq_refl) as (w' & Hrun & _ & Hpub).
    exists w'. split; [exact Hrun|]. now rewrite Hpub.
  - now rewrite (Hstart eq_refl).
Defined.

(** ** Which related objects [sync_data] is called on *)

Lemma calls_grow_monotone : monotone calls_grow.
Proof.
  assert (Hnil : ∀ (l : list (value * nat)), ∃ l', l = l ++ l').
  { intros l. exists []. now rewrite app_nil_r. }
  split; unfold calls_grow; cbn; auto.
  - intros w1 w2 w3 [l1 H1] [l2 H2]. exists (l1 ++ l2). now rewrite H2, H1, app_assoc.
  - intros w c. now exists [c].
Qed.

Lemma calls_kept_refl w : calls_kept w w.
Proof. reflexivity. Qed.

Lemma calls_kept_trans w1 w2 w3 : calls_kept w1 w2 → calls_kept w2 w3 → calls_kept w1 w3.
Proof. unfold calls_kept. congruence. Qed.

Lemma calls_kept_db w w' f : calls_kept w w' → calls_kept w (set_db f w').
Proof. now unfold calls_kept. Qed.

#[local] Hint Resolve calls_kept_refl calls_kept_trans calls_kept_db : frame.

Lemma logger_keeps_calls e : preserves calls_kept (logger e).
Proof. unfold logger. apply preserves_modify. reflexivity. Qed.

Lemma get_expiration_time_keeps_calls : preserves calls_kept Models.get_expiration_time.
Proof. intros w w' r. rewrite get_expiration_time_eq. now intros [= <- _]. Qed.

Lemma redis_publish_keeps_calls c m : preserves calls_kept (Publisher.redis_publish c m).
Proof.
  intros w w' r. unfold Publisher.redis_publish.
  destruct (bus_up w); now intros [= <- _].
Qed.

Lemma serialize_keeps_calls b : preserves calls_kept (Publisher.serialize b).
Proof. intros w w' r. unfold Publisher.serialize. now intros [= <- _]. Qed.

#[local] Hint Resolve logger_keeps_calls get_expiration_time_keeps_calls
  redis_publish_keeps_calls serialize_keeps_calls : frame.

Lemma publish_keeps_calls c m : preserves calls_kept (Publisher.publish c m).
Proof. unfold Publisher.publish. repeat frame_step; eauto with frame. Qed.

#[local] Hint Resolve publish_keeps_calls : frame.

Lemma publish_model_keeps_calls v c : preserves calls_kept (Publisher.publish_model v c).
Proof. unfold Publisher.publish_model. repeat frame_step; eauto with frame. Qed.

Lemma save_keeps_calls v : preserves calls_kept (save v).
Proof. apply preserves_save; eauto with frame. Qed.

#[local] Hint Resolve publish_model_keeps_calls save_keeps_calls : frame.

(** Every call of [sync_data] puts its own argument and depth on the
    trace, and what it calls in turn comes after. *)
Lemma sync_data_at_trace depth arg sid incl w w' r :
  Publisher.sync_data_at depth arg sid incl w = (w', r) →
  ∃ l, calls w' = calls w ++ (arg, depth) :: l.
Proof.
  rewrite sync_data_at_eq. cbv zeta.
  destruct (negb _).
  - intros [= <- _]. now exists [].
  - intros Hrun.
    assert (Hg : calls_grow (set_calls (fun c => c ++ [(arg, depth)]) w) w').
    { revert Hrun. generalize (set_calls (fun c => c ++ [(arg, depth)]) w).
      intros w0 Hrun.
      eapply (mono_sync_loop calls_grow calls_grow_monotone); [|exact Hrun].
      intros rec v. destruct depth; cbn [Publisher.recursion]; [discriminate|].
      intros [= <-]. apply mono_sync_data_at, calls_grow_monotone. }
    destruct Hg as [l Hl]. exists l. rewrite Hl. simpl. now rewrite <- app_assoc.
Qed.

(** At depth 0 the trace gains the call itself and nothing else. *)
Lemma process_instance_flat_keeps_calls sid exp incl inst :
  preserves calls_kept (Publisher.process_instance None sid exp incl inst).
Proof. unfold Publisher.process_instance. repeat frame_step. Qed.

Lemma sync_data_at_flat_trace arg sid incl w w' r :
  Publisher.sync_data_at 0 arg sid incl w = (w', r) →
  calls w' = calls w ++ [(arg, 0%nat)].
Proof.
  rewrite sync_data_at_eq. cbv zeta.
  destruct (negb _).
  - now intros [= <- _].
  - intros Hrun.
    match type of Hrun with
    | ?m _ = _ => enough (Hp : preserves calls_kept m) by exact (Hp _ _ _ Hrun)
    end.
    apply preserves_bind; eauto with frame.
    + apply preserves_atomic; eauto with frame.
      apply preserves_for_each; eauto with frame.
      intros x _. apply process_instance_flat_keeps_calls.
    + intros _. apply preserves_ret; eauto with frame.
Qed.

Lemma stamp_obj_class o sid exp : obj_class (stamp_obj o sid exp) = obj_class o.
Proof.
  unfold stamp_obj.
  repeat match goal with |- context [bool_decide ?P] => destruct (bool_decide P) end;
    reflexivity.
Qed.

(** *** The calls one level down *)

Lemma calls_within_refl d w : calls_within d w w.
Proof. exists []. now rewrite app_nil_r. Qed.

Lemma calls_within_trans d w1 w2 w3 :
  calls_within d w1 w2 → calls_within d w2 w3 → calls_within d w1 w3.
Proof.
  intros (l1 & H1 & F1) (l2 & H2 & F2). exists (l1 ++ l2).
  split; [now rewrite H2, H1, app_assoc|now apply Forall_app].
Qed.

Lemma calls_within_rollback d w w' :
  calls_within d w w' → calls_within d w (set_db (fun _ => db w) w').
Proof. now unfold calls_within. Qed.

Lemma calls_kept_within d w w' : calls_kept w w' → calls_within d w w'.
Proof. intros H. exists []. now rewrite app_nil_r. Qed.

Lemma keeps_calls_within {A} d (m : M A) :
  preserves calls_kept m → preserves (calls_within d) m.
Proof. apply preserves_weaken. apply calls_kept_within. Qed.

Lemma getattr_keeps_calls v n : preserves calls_kept (Publisher.getattr v n).
Proof.
  unfold Publisher.getattr. destruct v; try (intros w w' r [= <- _]; reflexivity).
  destruct (obj_attrs o !! n); intros w w' r [= <- _]; reflexivity.
Qed.

Lemma manager_all_keeps_calls v : preserves calls_kept (Publisher.manager_all v).
Proof.
  unfold Publisher.manager_all. destruct v; intros w w' r [= <- _]; reflexivity.
Qed.

Lemma follow_field_within d recurse inst field :
  (∀ v, preserves (calls_within d) (recurse v)) →
  preserves (calls_within d) (Publisher.follow_field recurse inst field).
Proof.
  intros Hrec.
  pose proof (calls_within_refl d) as Hrefl.
  pose proof (calls_within_trans d) as Htrans.
  assert (Hget : ∀ n, preserves (calls_within d) (Publisher.getattr inst n))
    by (intros n; apply keeps_calls_within, getattr_keeps_calls).
  assert (Hall : ∀ v, preserves (calls_within d) (Publisher.manager_all v))
    by (intros v; apply keeps_calls_within, manager_all_keeps_calls).
  unfold Publisher.follow_field.
  destruct (is_relation field && concrete field); [|now apply preserves_ret].
  destruct (one_to_many field || many_to_many field).
  - apply preserves_bind; [exact Htrans|apply Hget|]. intros manager.
    apply preserves_bind; [exact Htrans|apply Hall|]. intros related.
    apply preserves_bind; [exact Htrans|apply Hrec|]. intros _.
    now apply preserves_ret.
  - destruct (many_to_one field || one_to_one field); [|now apply preserves_ret].
    apply preserves_bind; [exact Htrans|apply Hget|]. intros v.
    destruct (truthy v); [|now apply preserves_ret].
    apply preserves_bind; [exact Htrans|apply Hrec|]. intros _.
    now apply preserves_ret.
Qed.

Lemma process_instance_within d recurse sid exp incl inst :
  (∀ rec v, recurse = Some rec → preserves (calls_within d) (rec v)) →
  preserves (calls_within d) (Publisher.process_instance recurse sid exp incl inst).
Proof.
  intros Hrec.
  pose proof (calls_within_refl d) as Hrefl.
  pose proof (calls_within_trans d) as Htrans.
  unfold Publisher.process_instance.
  apply preserves_bind; [exact Htrans|apply keeps_calls_within, save_keeps_calls|].
  intros _.
  apply preserves_bind;
    [exact Htrans|apply keeps_calls_within, publish_model_keeps_calls|].
  intros _.
  destruct recurse as [rec|]; [|now apply preserves_ret].
  destruct incl; [|now apply preserves_ret].
  apply preserves_for_each; [exact Hrefl|exact Htrans|].
  intros f _. apply follow_field_within. intros v. now apply (Hrec rec).
Qed.

(** Every call of [sync_data] puts its own argument and depth on the
    trace; every call that follows was made with a smaller depth. *)
Lemma sync_data_at_trace_below depth arg sid incl w w' r :
  Publisher.sync_data_at depth arg sid incl w = (w', r) →
  ∃ l, calls w' = calls w ++ (arg, depth) :: l
       ∧ Forall (fun c => (snd c < depth)%nat) l.
Proof.
  revert arg w w' r. induction depth as [|d IH]; intros arg w w' r Hrun.
  - apply sync_data_at_flat_trace in Hrun. exists []. split; [exact Hrun|constructor].
  - rewrite sync_data_at_eq in Hrun. cbv zeta in Hrun.
    destruct (negb _).
    { injection Hrun as <- _. exists []. split; [reflexivity|constructor]. }
    assert (Hrec : ∀ rec v, Publisher.recursion (S d) sid incl = Some rec →
                            preserves (calls_within d) (rec v)).
    { intros rec v [= <-] w1 w2 r2 Hcall.
      destruct (IH _ _ _ _ Hcall) as (l & Hl & Hbelow).
      exists ((v, d) :: l). split; [exact Hl|].
      constructor; [cbn; lia|].
      eapply Forall_impl; [exact Hbelow|]. cbn. intros c Hc. lia. }
    assert (Hw : calls_within d (set_calls (fun c => c ++ [(arg, S d)]) w) w').
    { revert Hrun. generalize (set_calls (fun c => c ++ [(arg, S d)]) w).
      intros w0 Hrun.
      match type of Hrun with
      | ?m _ = _ => enough (Hp : preserves (calls_within d) m) by exact (Hp _ _ _ Hrun)
      end.
      apply preserves_bind; [apply calls_within_trans| |].
      - apply preserves_atomic; [apply calls_within_rollback|].
        apply preserves_for_each; [apply calls_within_refl|apply calls_within_trans|].
        intros x _. now apply process_instance_within.
      - intros _. apply preserves_ret, calls_within_refl. }
    destruct Hw as (l & Hl & Hle). exists l. split.
    + rewrite Hl. cbn [calls set_calls]. now rewrite <- app_assoc.
    + eapply Forall_impl; [exact Hle|]. cbn. intros c Hc. lia.
Qed.

Lemma at_depth_app d l l' : at_depth d (l ++ l') = at_depth d l ++ at_depth d l'.
Proof. unfold at_depth. apply List.filter_app. Qed.

Lemma at_depth_below d l :
  Forall (fun c => (snd c < d)%nat) l → at_depth d l = [].
Proof.
  induction 1 as [|c l Hc _ IH]; [reflexivity|].
  unfold at_depth in *. cbn [List.filter].
  destruct (Nat.eqb_spec (snd c) d); [lia|exact IH].
Qed.

Lemma at_depth_call d v l :
  Forall (fun c => (snd c < d)%nat) l → at_depth d ((v, d) :: l) = [(v, d)].
Proof.
  intros Hl. unfold at_depth. cbn [List.filter snd]. rewrite Nat.eqb_refl.
  f_equal. now apply at_depth_below.
Qed.

(** *** What a call that returns was given *)

Lemma stamp_not_instance inst sid exp :
  (∀ o, inst ≠ VObj o) → Publisher.stamp inst sid exp = inst.
Proof. intros Hno. destruct inst; try reflexivity. now destruct (Hno o). Qed.

(** The loop body starts with [instance.save()]: it completes on model
    instances only. *)
Lemma process_instance_Ok_instance recurse sid exp incl inst w w' :
  Publisher.process_instance recurse sid exp incl inst w = (w', Ok tt) →
  ∃ o, inst = VObj o.
Proof.
  intros Hrun.
  destruct inst as [| | | | |o| | | |];
    try (unfold Publisher.process_instance in Hrun;
         cbn [Publisher.stamp hasattr] in Hrun;
         apply bind_Ok in Hrun as (w1 & [] & Hsave & _); discriminate Hsave).
  now exists o.
Qed.

Lemma loop_Ok_instances recurse sid exp incl items w w' :
  for_each items (Publisher.process_instance recurse sid exp incl) w = (w', Ok tt) →
  ∃ insts, items = VObj <$> insts.
Proof.
  revert w. induction items as [|x items IH]; intros w Hrun.
  - now exists [].
  - cbn [for_each] in Hrun. apply bind_Ok in Hrun as (w1 & [] & Hx & Hrest).
    apply process_instance_Ok_instance in Hx as [o ->].
    destruct (IH _ Hrest) as [insts ->]. now exists (o :: insts).
Qed.

Lemma mapM_as_instance_fmap insts : mapM as_instance (VObj <$> insts) = Some insts.
Proof.
  induction insts as [|o insts IH]; [reflexivity|].
  cbn [fmap list_fmap mapM]. cbn [fmap] in IH. cbn. now rewrite IH.
Qed.

Lemma items_as_instances arg insts :
  match arg with
  | VList items => items
  | VTuple items => items
  | v => [v]
  end = VObj <$> insts →
  as_instances arg = Some insts.
Proof.
  destruct arg; cbn [as_instances];
    try (intros ->; apply mapM_as_instance_fmap);
    destruct insts as [|o' [|? ?]]; try discriminate.
  now intros [= ->].
Qed.

(** In the source role a call of [sync_data] that returns has returned
    [True], and was given an instance, or a list or tuple of instances:
    anything else has no [save]. *)
Lemma sync_data_at_Ok_instances depth arg sid incl w w' b :
  mode_or (settings w) "backend" = "backend" →
  Publisher.sync_data_at depth arg sid incl w = (w', Ok b) →
  b = true ∧ is_Some (as_instances arg).
Proof.
  intros Hmode Hrun. rewrite sync_data_at_eq in Hrun. cbv zeta in Hrun.
  rewrite Hmode, String.eqb_refl in Hrun. cbn [negb] in Hrun.
  apply bind_Ok in Hrun as (w1 & [] & Hloop%atomic_Ok & Hret).
  injection Hret as _ <-. split; [reflexivity|].
  apply loop_Ok_instances in Hloop as [insts Hitems].
  rewrite (items_as_instances _ _ Hitems). eauto.
Qed.

(** *** The calls one level down, exactly *)

Lemma follow_field_exact d sid (o : instance) field w w' :
  mode_or (settings w) "backend" = "backend" →
  Publisher.follow_field (fun v => Publisher.sync_data_at d v sid true) (VObj o) field w
  = (w', Ok tt) →
  ∃ l, calls w' = calls w ++ l
       ∧ Forall (fun c => (snd c <= d)%nat) l
       ∧ at_depth d l = (fun v => (v, d)) <$> option_list (followed_by o field)
       ∧ (∀ v, followed_by o field = Some v → is_Some (as_instances v))
       ∧ settings w' = settings w.
Proof.
  intros Hmode Hrun.
  assert (Hskip : ret tt w = (w', Ok tt) → followed_by o field = None →
            ∃ l, calls w' = calls w ++ l
                 ∧ Forall (fun c => (snd c <= d)%nat) l
                 ∧ at_depth d l = (fun v => (v, d)) <$> option_list (followed_by o field)
                 ∧ (∀ v, followed_by o field = Some v → is_Some (as_instances v))
                 ∧ settings w' = settings w).
  { intros [= <-] ->. exists []. rewrite app_nil_r.
    repeat split; try constructor. discriminate. }
  assert (Hcall : ∀ v w3 b,
            Publisher.sync_data_at d v sid true w = (w3, Ok b) →
            followed_by o field = Some v →
            ∃ l, calls w3 = calls w ++ l
                 ∧ Forall (fun c => (snd c <= d)%nat) l
                 ∧ at_depth d l = (fun v => (v, d)) <$> option_list (followed_by o field)
                 ∧ (∀ v, followed_by o field = Some v → is_Some (as_instances v))
                 ∧ settings w3 = settings w).
  { intros v w3 b Hnested ->.
    destruct (sync_data_at_trace_below _ _ _ _ _ _ _ Hnested) as (l & Hl & Hbelow).
    destruct (sync_data_at_Ok_instances _ _ _ _ _ _ _ Hmode Hnested) as [_ Hinst].
    destruct (mono_sync_data_at settled settled_monotone _ _ _ _ _ _ _ Hnested)
      as (Hs & _).
    exists ((v, d) :: l). split; [exact Hl|]. split; [|split; [|split]].
    - constructor; [cbn; lia|].
      eapply Forall_impl; [exact Hbelow|]. cbn. intros c Hc. lia.
    - now apply at_depth_call.
    - now intros ? [= <-].
    - exact Hs. }
  unfold Publisher.follow_field in Hrun. unfold followed_by in *.
  destruct (is_relation field && concrete field); [|now apply Hskip].
  destruct (one_to_many field || many_to_many field).
  - apply bind_Ok in Hrun as (w1 & manager & Hget & Hrun).
    apply bind_Ok in Hrun as (w2 & related & Hall & Hrun).
    apply bind_Ok in Hrun as (w3 & b & Hnested & Hret).
    injection Hret as <-.
    unfold Publisher.getattr in Hget.
    destruct (obj_attrs o !! (field_name field +:+ "_set")%string) as [m|];
      [|discriminate].
    injection Hget as <- <-.
    destruct m as [| | | | | |all| | |]; try discriminate. injection Hall as <- <-.
    now apply (Hcall all w3 b).
  - destruct (many_to_one field || one_to_one field); [|now apply Hskip].
    apply bind_Ok in Hrun as (w1 & v & Hget & Hrun).
    unfold Publisher.getattr in Hget.
    destruct (obj_attrs o !! field_name field) as [x|]; [|discriminate].
    injection Hget as <- <-.
    destruct (truthy x); [|now apply Hskip].
    apply bind_Ok in Hrun as (w3 & b & Hnested & Hret).
    injection Hret as <-.
    now apply (Hcall x w3 b).
Qed.

Lemma omap_cons_list {A B} (f : A → option B) (x : A) (l : list A) :
  omap f (x :: l) = option_list (f x) ++ omap f l.
Proof. cbn. now destruct (f x). Qed.

Lemma follow_fields_exact d sid (o : instance) fields w w' :
  mode_or (settings w) "backend" = "backend" →
  for_each fields
    (Publisher.follow_field (fun v => Publisher.sync_data_at d v sid true) (VObj o)) w
  = (w', Ok tt) →
  ∃ l, calls w' = calls w ++ l
       ∧ Forall (fun c => (snd c <= d)%nat) l
       ∧ at_depth d l = (fun v => (v, d)) <$> omap (followed_by o) fields
       ∧ Forall (fun v => is_Some (as_instances v)) (omap (followed_by o) fields)
       ∧ settings w' = settings w.
Proof.
  revert w. induction fields as [|field fields IH]; intros w Hmode Hrun.
  - injection Hrun as <-. exists []. rewrite app_nil_r.
    repeat split; constructor.
  - cbn [for_each] in Hrun. apply bind_Ok in Hrun as (w1 & [] & Hfield & Hrest).
    destruct (follow_field_exact _ _ _ _ _ _ Hmode Hfield)
      as (l1 & Hl1 & Hle1 & Hat1 & Hinst1 & Hs1).
    assert (Hmode1 : mode_or (settings w1) "backend" = "backend") by now rewrite Hs1.
    destruct (IH _ Hmode1 Hrest) as (l2 & Hl2 & Hle2 & Hat2 & Hinst2 & Hs2).
    exists (l1 ++ l2). rewrite omap_cons_list.
    split; [now rewrite Hl2, Hl1, app_assoc|]. split; [now apply Forall_app|].
    split; [now rewrite at_depth_app, Hat1, Hat2, fmap_app|].
    split; [|congruence].
    apply Forall_app. split; [|exact Hinst2].
    destruct (followed_by o field) as [v|]; [|constructor].
    constructor; [now apply Hinst1|constructor].
Qed.

Lemma process_instance_exact d sid exp inst w w' :
  mode_or (settings w) "backend" = "backend" →
  Publisher.process_instance
    (Some (fun v => Publisher.sync_data_at d v sid true)) sid exp true inst w
  = (w', Ok tt) →
  ∃ o l, inst = VObj o
         ∧ calls w' = calls w ++ l
         ∧ Forall (fun c => (snd c <= d)%nat) l
         ∧ at_depth d l = (fun v => (v, d)) <$> followed (stamp_obj o sid exp)
         ∧ Forall (fun v => is_Some (as_instances v)) (followed (stamp_obj o sid exp))
         ∧ settings w' = settings w.
Proof.
  intros Hmode Hrun.
  destruct (process_instance_Ok_instance _ _ _ _ _ _ _ Hrun) as [o ->].
  unfold Publisher.process_instance in Hrun. rewrite stamp_VObj in Hrun.
  apply bind_Ok in Hrun as (ws & [] & Hsave & Hrun).
  apply bind_Ok in Hrun as (wp & n & Hpub & Hfields).
  injection Hsave as <-.
  pose proof (publish_model_keeps_calls _ _ _ _ _ Hpub) as Hcalls.
  apply publish_model_Ok in Hpub as (_ & _ & Hsettings).
  unfold calls_kept in Hcalls. cbn [calls settings set_db] in Hcalls, Hsettings.
  cbn [Publisher.get_fields] in Hfields.
  assert (Hmodep : mode_or (settings wp) "backend" = "backend") by now rewrite Hsettings.
  destruct (follow_fields_exact _ _ _ _ _ _ Hmodep Hfields)
    as (l & Hl & Hle & Hat & Hinst & Hs).
  exists o, l. split; [reflexivity|]. split; [now rewrite Hl, Hcalls|].
  split; [exact Hle|]. split; [exact Hat|]. split; [exact Hinst|]. congruence.
Qed.

Lemma loop_exact d sid exp items w w' :
  mode_or (settings w) "backend" = "backend" →
  for_each items
    (Publisher.process_instance
       (Some (fun v => Publisher.sync_data_at d v sid true)) sid exp true) w
  = (w', Ok tt) →
  ∃ insts l,
    items = VObj <$> insts
    ∧ calls w' = calls w ++ l
    ∧ Forall (fun c => (snd c <= d)%nat) l
    ∧ at_depth d l
      = (fun v => (v, d)) <$> (insts ≫= fun o => followed (stamp_obj o sid exp))
    ∧ Forall (fun v => is_Some (as_instances v))
             (insts ≫= fun o => followed (stamp_obj o sid exp)).
Proof.
  revert w. induction items as [|x items IH]; intros w Hmode Hrun.
  - injection Hrun as <-. exists [], []. rewrite app_nil_r.
    repeat split; constructor.
  - cbn [for_each] in Hrun. apply bind_Ok in Hrun as (w1 & [] & Hx & Hrest).
    destruct (process_instance_exact _ _ _ _ _ _ Hmode Hx)
      as (o & l1 & -> & Hl1 & Hle1 & Hat1 & Hinst1 & Hs1).
    assert (Hmode1 : mode_or (settings w1) "backend" = "backend") by now rewrite Hs1.
    destruct (IH _ Hmode1 Hrest) as (insts & l2 & -> & Hl2 & Hle2 & Hat2 & Hinst2).
    exists (o :: insts), (l1 ++ l2). split; [reflexivity|].
    split; [now rewrite Hl2, Hl1, app_assoc|]. split; [now apply Forall_app|].
    cbn [mbind list_bind]. split.
    + now rewrite at_depth_app, Hat1, Hat2, fmap_app.
    + now apply Forall_app.
Qed.

(** C6.  What [sync_data] walks, and what it does not.  A call
    [sync_data(arg, session_id, True, depth)] with [depth >= 1] that
    returns [True] was given an instance, or a list or tuple of instances,
    and the calls of [sync_data] that it made with [depth - 1] are
    exactly, and in this order, one for every field of every given
    instance that is a relation, concrete, many-to-one or one-to-one and
    leads to a truthy object, and one for every field that is a relation,
    concrete and to-many, on what the manager [<name>_set] returns; every
    other call on the trace has a smaller depth.  So a relation field that
    is not concrete (the reverse side of a foreign key, of a one-to-one or
    of a many-to-many field) leads to no call.  Every value followed is
    itself an instance, or a list or tuple of instances: the [QuerySet]
    that [.all()] of a manager returns is never among them, since the call
    on it raises.  A call with [depth <= 0] calls [sync_data] on
    nothing, however it ends. *)
Theorem sync_data_walks_forward_to_one_relations_only :
  (∀ (w w' : World) (arg sid : value) (depth : Z),
     1 <= depth →
     Publisher.sync_data arg sid true depth w = (w', Ok true) →
     let d := Z.to_nat (depth - 1) in
     ∃ insts l,
       as_instances arg = Some insts
       ∧ calls w' = calls w ++ (arg, S d) :: l
       ∧ Forall (fun c => (snd c <= d)%nat) l
       ∧ at_depth d l
         = (fun v => (v, d))
             <$> (insts ≫= fun o => followed (stamp_obj o sid (expiry_at w)))
       ∧ Forall (fun v => is_Some (as_instances v))
                (insts ≫= fun o => followed (stamp_obj o sid (expiry_at w))))
  ∧ (∀ (w w' : World) (arg sid : value) (incl : bool) (depth : Z) (r : result bool),
       depth <= 0 →
       Publisher.sync_data arg sid incl depth w = (w', r) →
       calls w' = calls w ++ [(arg, 0%nat)]).
Proof.
  split.
  - intros w w' arg sid depth Hdepth Hrun d. unfold Publisher.sync_data in Hrun.
    replace (Z.to_nat depth) with (S d) in Hrun by (unfold d; lia).
    rewrite sync_data_at_eq in Hrun. cbv zeta in Hrun.
    destruct (String.eqb_spec (mode_or (settings w) "backend") "backend")
      as [Hmode|Hmode]; cbn [negb] in Hrun; [|discriminate].
    apply bind_Ok in Hrun as (w1 & [] & Hloop%atomic_Ok & Hret).
    injection Hret as ->.
    cbn [Publisher.recursion] in Hloop.
    set (w0 := set_calls (fun c => c ++ [(arg, S d)]) w) in Hloop.
    assert (Hmode0 : mode_or (settings w0) "backend" = "backend") by exact Hmode.
    destruct (loop_exact d sid (expiry_at w) _ w0 w' Hmode0 Hloop)
      as (insts & l & Hitems & Hl & Hle & Hat & Hinst).
    exists insts, l. split; [now apply items_as_instances|].
    split; [|now repeat split].
    rewrite Hl. unfold w0. cbn [calls set_calls]. now rewrite <- app_assoc.
  - intros w w' arg sid incl depth r Hdepth. unfold Publisher.sync_data.
    replace (Z.to_nat depth) with 0%nat by lia.
    apply sync_data_at_flat_trace.
Qed.

Lemma sync_data_walks_forward_to_one_relations_only_witness :
  let o := Examples.home "s" 0 in
  let w := Examples.world None [] in
  MkField "userprofile" true false true false false false ∈ cls_fields (obj_class o)
  ∧ obj_attrs o !! "userprofile_set" = Some (VManager (VQuerySet [VObj Examples.resident]))
  ∧ ∃ w', Publisher.sync_data (VObj o) (VStr "s1") true 1 w = (w', Ok true)
          ∧ calls w' = [(VObj o, 1%nat)].
Proof.
  intros o w.
  split; [simpl; repeat constructor|].
  split; [vm_compute; reflexivity|].
  destruct (Publisher.sync_data (VObj o) (VStr "s1") true 1 w) as [w' r] eqn:Hrun.
  assert (Hr : r = Ok true).
  { change r with (snd (w', r)). rewrite <- Hrun. vm_compute. reflexivity. }
  subst r. exists w'. split; [reflexivity|].
  destruct (proj1 sync_data_walks_forward_to_one_relations_only w w' (VObj o) (VStr "s1") 1
              ltac:(lia) Hrun) as (insts & l & Hinsts & Hl & Hle & Hat & _).
  injection Hinsts as <-.
  assert (Hnone : followed (stamp_obj o (VStr "s1") (expiry_at w)) = [])
    by (vm_compute; reflexivity).
  change (Z.to_nat (1 - 1)) with 0%nat in Hl, Hle, Hat.
  cbn [mbind list_bind] in Hat. rewrite Hnone in Hat. cbn [app fmap list_fmap] in Hat.
  rewrite Hl. cbn [calls w Examples.world app]. f_equal.
  destruct l as [|c l]; [reflexivity|].
  apply Forall_cons in Hle as [Hc _]. unfold at_depth in Hat. cbn [List.filter] in Hat.
  destruct (Nat.eqb_spec (snd c) 0) as [|Hne]; [discriminate Hat|].
  exfalso. apply Hne. apply Nat.le_0_r. exact Hc.
Defined.

(** The same input, run: the reverse side of [UserProfile.address] is a
    one-to-many relation field of [Address] that is not concrete, with
    one related profile behind its manager.  The call returns [True],
    the only call of [sync_data] is the outer one, and what is published
    is the address alone. *)
Example sync_data_skips_non_concrete_relation :
  let o := Examples.home "s" 0 in
  let run := Publisher.sync_data (VObj o) (VStr "s1") true 1 (Examples.world None []) in
  MkField "userprofile" true false true false false false ∈ cls_fields (obj_class o)
  ∧ obj_attrs o !! "userprofile_set" = Some (VManager (VQuerySet [VObj Examples.resident]))
  ∧ snd run = Ok true
  ∧ calls (fst run) = [(VObj o, 1%nat)]
  ∧ length (published (fst run)) = 1%nat.
Proof.
  split; [simpl; repeat constructor|].
  split; [vm_compute; reflexivity|].
  repeat split; vm_compute; reflexivity.
Qed.

(** A forward many-to-many field is concrete, so the walk reaches its
    branch, which asks the instance for [tags_set]: there is no such
    attribute on the side that declares the field.  The call raises, the
    rows saved so far are rolled back, the message published for the
    instance stays out. *)
Example sync_data_raises_on_many_to_many :
  let run := Publisher.sync_data (VObj Examples.note) (VStr "s1") true 1
               (Examples.world None []) in
  followed_by Examples.note (MkField "tags" true true false true false false) = None
  ∧ snd run = Raise (AttributeError "tags_set")
  ∧ db (fst run) = []
  ∧ length (published (fst run)) = 1%nat.
Proof. repeat split; vm_compute; reflexivity. Qed.

(** Were the manager bound to [tags_set], the nested call would be given
    its [QuerySet], which is neither a list nor a tuple and has no
    [save]: the call raises as well. *)
Example sync_data_raises_on_queryset :
  let tagged := setattr Examples.note "tags_set" (VManager (VQuerySet [VObj Examples.urgent])) in
  let run := Publisher.sync_data (VObj tagged) (VStr "s1") true 1 (Examples.world None []) in
  followed_by tagged (MkField "tags" true true false true false false)
  = Some (VQuerySet [VObj Examples.urgent])
  ∧ snd run = Raise (AttributeError "save")
  ∧ db (fst run) = []
  ∧ calls (fst run) = [(VObj tagged, 1%nat); (VQuerySet [VObj Examples.urgent], 0%nat)].
Proof. repeat split; vm_compute; reflexivity. Qed.

(** The forward to-one relations are walked: a profile leads to its user
    and to its address, in the order of the fields. *)
Example sync_data_follows_user_and_address :
  let p := Examples.profile "s" 0 in
  let w := Examples.world None [] in
  let run := Publisher.sync_data (VObj p) (VStr "s1") true 1 w in
  snd run = Ok true
  ∧ followed (stamp_obj p (VStr "s1") (expiry_at w))
    = [VObj Examples.alice; VObj (Examples.home "s" 0)]
  ∧ snd <$> calls (fst run) = [1%nat; 0%nat; 0%nat].
Proof. repeat split; vm_compute; reflexivity. Qed.

(** Nor is the reverse side of a one-to-one field walked: a [User] has
    the field [userprofile], a to-one relation that is not concrete, and
    here a profile behind it. *)
Example sync_data_skips_reverse_one_to_one :
  let u := setattr Examples.alice "userprofile" (VObj Examples.resident) in
  let run := Publisher.sync_data (VObj u) (VStr "s1") true 1 (Examples.world None []) in
  MkField "userprofile" true false false false false true ∈ cls_fields (obj_class u)
  ∧ followed u = []
  ∧ snd run = Ok true
  ∧ calls (fst run) = [(VObj u, 1%nat)].
Proof.
  split; [simpl; repeat constructor|].
  repeat split; vm_compute; reflexivity.
Qed.

(** ** Consumer ([sync/consumer.py]): the retry loop *)

Lemma for_each_save_Ok (objects : list instance) w :
  ∃ w', for_each objects (fun obj => save (VObj obj)) w = (w', Ok tt).
Proof.
  revert w. induction objects as [|o objects IH]; intros w.
  - now exists w.
  - cbn [for_each]. unfold bind at 1. cbn [save]. unfold modify. apply IH.
Qed.

(** [_process_message] handles every exception itself. *)
Lemma process_message_never_raises msg w :
  ∃ w' b, Consumer._process_message msg w = (w', Ok b).
Proof.
  unfold Consumer._process_message, try_except.
  match goal with |- context [match ?m w with _ => _ end] => destruct (m w) as [w1 [b|e]] end.
  - now exists w1, b.
  - eexists _, false. reflexivity.
Qed.

(** Whether it succeeds depends on the message alone. *)
Lemma process_message_accepted msg w :
  snd (Consumer._process_message msg w) = Ok (accepted msg).
Proof.
  unfold Consumer._process_message, try_except.
  destruct msg as [| |[ty|] payload]; try reflexivity.
  destruct (String.eqb_spec ty "message") as [->|Hne].
  2:{ rewrite bool_decide_eq_false_2 by congruence. cbn [negb ret snd accepted].
      destruct payload as [[[[]|]|[]]|]; cbn;
        try (apply String.eqb_neq in Hne; rewrite Hne); reflexivity. }
  rewrite bool_decide_eq_true_2 by reflexivity. cbn [negb].
  destruct payload as [[[[objects|]|]|[objects|]]|]; try reflexivity;
    cbn [Consumer.decode Consumer.deserialize]; unfold bind at 1; cbn [ret];
    unfold bind at 1; cbn [ret Consumer.deserialize];
    unfold bind at 1, atomic;
    destruct (for_each_save_Ok objects w) as [w' ->]; reflexivity.
Qed.

Lemma process_message_result msg w1 w2 :
  snd (Consumer._process_message msg w1) = snd (Consumer._process_message msg w2).
Proof. now rewrite !process_message_accepted. Qed.

(** A message that fails keeps the loop running: [success] stays false and
    [retry_count] stays 0, whatever the number of iterations. *)
Lemma retry_loop_spins fuel msg max_retries backoff_factor current_delay w :
  0 < max_retries →
  snd (Consumer._process_message msg w) = Ok false →
  Consumer.retry_loop fuel Consumer._process_message msg max_retries backoff_factor
                      false 0 current_delay w = None.
Proof.
  intros Hmax. revert w. induction fuel as [|fuel IH]; intros w Hfail.
  - cbn [Consumer.retry_loop negb andb].
    destruct (Z.ltb_spec 0 max_retries); [reflexivity|lia].
  - cbn [Consumer.retry_loop negb andb].
    destruct (Z.ltb_spec 0 max_retries); [|lia].
    destruct (process_message_never_raises msg w) as (w1 & b & Hrun).
    rewrite Hrun in *. cbn [snd] in Hfail. injection Hfail as ->.
    apply IH. now rewrite (process_message_result msg w1 w), Hrun.
Qed.

(** C1.  What [_listen] does with a message whose processing fails, when
    [max_retries] is positive and the consumer is running: the retry loop
    is never left.  For every bound on the number of iterations the loop
    is still running when the bound is reached, so the message is never
    dropped, the failure is never logged and the next message is never
    taken. *)
Theorem listen_never_leaves_failing_message
    (fuel : nat) (self : Consumer.Consumer) (msg : Consumer.message)
    (rest : list Consumer.message) (w : World) :
  Consumer.running self = true →
  0 < conf (settings w) SYNC SYNC_max_retries 3 →
  snd (Consumer._process_message msg w) = Ok false →
  Consumer._listen fuel self (msg :: rest) w = None.
Proof.
  intros Hrun Hmax Hfail.
  unfold Consumer._listen, Consumer._listen_with. cbn [Consumer.listen_loop].
  rewrite Hrun. cbn [negb].
  now rewrite retry_loop_spins.
Qed.

Lemma listen_never_leaves_failing_message_witness :
  Consumer._listen 1000 Examples.listening [Examples.garbled; Examples.address_message]
                   (Examples.world None []) = None.
Proof.
  apply listen_never_leaves_failing_message.
  - reflexivity.
  - reflexivity.
  - vm_compute. reflexivity.
Defined.

(** The same loop around stand-ins for [_process_message], with the
    defaults [max_retries = 3], [retry_delay = 1], [backoff_factor = 2]. *)

(** Two attempts that raise, then success: sleeps of 1 s and 2 s. *)
Example retry_loop_raise_raise_succeed :
  (fun r => (fst (snd r), snd (snd r), slept (fst r)))
    <$> Consumer.retry_loop 10 (Examples.raises_first 2) Examples.address_message
          3 2 false 0 1 (Examples.world None [])
  = Some (true, 2, [1000000; 2000000]).
Proof. vm_compute. reflexivity. Qed.

(** Every attempt raises: three attempts, then the loop is left. *)
Example retry_loop_always_raises :
  (fun r => (fst (snd r), snd (snd r), slept (fst r)))
    <$> Consumer.retry_loop 10 (Examples.raises_first 100) Examples.address_message
          3 2 false 0 1 (Examples.world None [])
  = Some (false, 3, [1000000; 2000000]).
Proof. vm_compute. reflexivity. Qed.

(** Two attempts that return [False], then success: no sleep, and
    [retry_count] is still 0. *)
Example retry_loop_false_false_succeed :
  (fun r => (fst (snd r), snd (snd r), slept (fst r)))
    <$> Consumer.retry_loop 10 (Examples.returns_false_first 2) Examples.address_message
          3 2 false 0 1 (Examples.world None [])
  = Some (true, 0, []).
Proof. vm_compute. reflexivity. Qed.

(** A well-formed message is applied at the first attempt. *)
Example listen_applies_address :
  (fun w' => (length (db w'), slept w'))
    <$> Consumer._listen 10 Examples.listening [Examples.address_message]
          (Examples.world None [])
  = Some (1%nat, []).
Proof. vm_compute. reflexivity. Qed.

(** The confirmation of the subscription, the first thing
    [pubsub.listen()] yields, already fails. *)
Example subscribe_ack_fails :
  snd (Consumer._process_message Examples.subscribe_ack (Examples.world None []))
  = Ok false.
Proof. reflexivity. Qed.

(** ** Cleanup sweeper ([cleanup_expired_data.py]) *)

Lemma insert_by_expiry_length r rows :
  length (Cleanup.insert_by_expiry r rows) = S (length rows).
Proof.
  induction rows as [|x rows IH]; [reflexivity|]. cbn [Cleanup.insert_by_expiry].
  destruct (expires_of r), (expires_of x); try (cbn [length]; now rewrite IH).
  destruct (_ <? _); cbn [length]; [reflexivity|now rewrite IH].
Qed.

Lemma order_by_expiry_length rows :
  length (Cleanup.order_by_expiry rows) = length rows.
Proof.
  induction rows as [|x rows IH]; [reflexivity|].
  cbn [Cleanup.order_by_expiry foldr]. rewrite insert_by_expiry_length.
  cbn [length]. f_equal. exact IH.
Qed.

Lemma expired_row_mono model t t' r :
  t <= t' → Cleanup.expired_row model t r = true → Cleanup.expired_row model t' r = true.
Proof.
  intros Ht. unfold Cleanup.expired_row. rewrite !andb_true_iff.
  intros [Hn He]. split; [exact Hn|].
  destruct (expires_of r) as [e|]; [|discriminate].
  apply Z.ltb_lt in He. apply Z.ltb_lt. lia.
Qed.

Lemma filter_length_mono {A} (p q : A → bool) (l : list A) :
  (∀ x, p x = true → q x = true) →
  (length (List.filter p l) <= length (List.filter q l))%nat.
Proof.
  intros Hpq. induction l as [|x l IH]; [reflexivity|]. cbn [List.filter].
  destruct (p x) eqn:Hp.
  - rewrite (Hpq x Hp). cbn [length]. lia.
  - destruct (q x); cbn [length]; lia.
Qed.

Lemma expired_count_mono model w w' :
  db w' = db w → now w <= now w' → expired_count model w <= expired_count model w'.
Proof.
  intros Hdb Hnow. unfold expired_count. rewrite Hdb.
  apply Nat2Z.inj_le, filter_length_mono. intros r. now apply expired_row_mono.
Qed.

Lemma expired_batch_length model batch_size w :
  Z.of_nat (length (Cleanup.expired_batch model batch_size w))
  = Z.min (Z.max 0 batch_size) (expired_count model w).
Proof.
  unfold Cleanup.expired_batch, expired_count.
  rewrite length_take, order_by_expiry_length. lia.
Qed.

(** In a dry run nothing is deleted, so a batch that comes back full comes
    back full again: the loop of one model is never left. *)
Lemma dry_run_loop_spins fuel opts model model_deleted total_deleted out w :
  Cleanup.dry_run opts = true →
  0 < Cleanup.batch_size opts →
  Cleanup.batch_size opts <= expired_count model w →
  Cleanup.model_loop fuel opts model model_deleted total_deleted out w = None.
Proof.
  intros Hdry Hpos. revert model_deleted total_deleted out w.
  induction fuel as [|fuel IH]; intros md td out w Hfull; [reflexivity|].
  cbn [Cleanup.model_loop].
  destruct (Z.ltb_spec (Cleanup.batch_size opts) 0); [lia|].
  rewrite expired_batch_length.
  replace (Z.min (Z.max 0 (Cleanup.batch_size opts)) (expired_count model w))
    with (Cleanup.batch_size opts) by lia.
  destruct (Z.eqb_spec (Cleanup.batch_size opts) 0); [lia|].
  rewrite Z.ltb_irrefl. rewrite Hdry. cbn [negb].
  apply IH.
  etransitivity; [exact Hfull|]. apply expired_count_mono.
  - destruct (0 <? Cleanup.sleep_time opts); reflexivity.
  - destruct (Z.ltb_spec 0 (Cleanup.sleep_time opts)); cbn; lia.
Qed.

(** C4.  A dry run of the command over a registered model that has at
    least [batch_size] expired rows (exactly [batch_size] of them is
    enough) is never over: for every bound on the number of iterations the
    loop of that model is still running when the bound is reached. *)
Theorem dry_run_full_batch_never_ends
    (fuel : nat) (opts : Cleanup.Options) (model : PyClass) (others : list PyClass)
    (w : World) :
  Cleanup.dry_run opts = true →
  Cleanup.force opts = false →
  registry w = model :: others →
  0 < Cleanup.batch_size opts →
  Cleanup.batch_size opts <= expired_count model w →
  Cleanup.handle fuel opts w = None.
Proof.
  intros Hdry Hforce Hreg Hpos Hfull.
  unfold Cleanup.handle. rewrite Hforce, Hreg. cbn [Cleanup.models_loop].
  now rewrite dry_run_loop_spins.
Qed.

Lemma dry_run_full_batch_never_ends_witness :
  Cleanup.handle 1000 (Cleanup.MkOptions 1 500000 false true) Examples.sweep_world = None.
Proof.
  apply (dry_run_full_batch_never_ends 1000 (Cleanup.MkOptions 1 500000 false true)
           Examples.Address [Examples.UserProfile] Examples.sweep_world).
  - reflexivity.
  - reflexivity.
  - reflexivity.
  - reflexivity.
  - vm_compute. discriminate.
Defined.

(** The same table swept with a batch size above the number of expired
    rows: the real run deletes the expired row and keeps the other, the dry
    run deletes nothing and reports 1. *)
Example sweep_deletes_expired :
  (fun r => (snd r, db (fst r)))
    <$> Cleanup.handle 10 (Cleanup.MkOptions 1000 500000 false false) Examples.sweep_world
  = Some (Ok (1, [Cleanup.OutCleaning 2; Cleanup.OutProcessing "Address";
                  Cleanup.OutDeleted 1 "Address"; Cleanup.OutProcessing "UserProfile";
                  Cleanup.OutSuccess 1]),
          [Examples.current]).
Proof. vm_compute. reflexivity. Qed.

Example dry_run_reports_expired :
  (fun r => (snd r, db (fst r)))
    <$> Cleanup.handle 10 (Cleanup.MkOptions 1000 500000 false true) Examples.sweep_world
  = Some (Ok (1, [Cleanup.OutCleaning 2; Cleanup.OutDryRun; Cleanup.OutProcessing "Address";
                  Cleanup.OutDeleted 1 "Address"; Cleanup.OutProcessing "UserProfile";
                  Cleanup.OutSuccess 1]),
          [Examples.lapsed; Examples.current]).
Proof. vm_compute. reflexivity. Qed.

(** With [batch_size] equal to the number of expired rows the real run
    needs a second, empty batch to stop. *)
Example sweep_full_batch_stops :
  (fun r => (snd r, db (fst r), slept (fst r)))
    <$> Cleanup.handle 10 (Cleanup.MkOptions 1 500000 false false) Examples.sweep_world
  = Some (Ok (1, [Cleanup.OutCleaning 2; Cleanup.OutProcessing "Address";
                  Cleanup.OutDeleted 1 "Address"; Cleanup.OutProcessing "UserProfile";
                  Cleanup.OutSuccess 1]),
          [Examples.current], [500000]).
Proof. vm_compute. reflexivity. Qed.

(** *** A batch size above the number of expired rows *)

Lemma insert_by_expiry_In x r rows :
  In x (Cleanup.insert_by_expiry r rows) ↔ x = r ∨ In x rows.
Proof.
  induction rows as [|y rows IH]; cbn [Cleanup.insert_by_expiry].
  - simpl. intuition.
  - destruct (expires_of r), (expires_of y); try (simpl; rewrite IH; intuition).
    destruct (_ <? _); simpl; [intuition|rewrite IH; intuition].
Qed.

Lemma order_by_expiry_In x rows : In x (Cleanup.order_by_expiry rows) ↔ In x rows.
Proof.
  induction rows as [|y rows IH]; [reflexivity|].
  cbn [Cleanup.order_by_expiry foldr]. rewrite insert_by_expiry_In.
  fold (Cleanup.order_by_expiry rows). rewrite IH. simpl. intuition.
Qed.

Lemma expired_batch_all model batch_size w :
  expired_count model w <= batch_size →
  ∀ x, In x (Cleanup.expired_batch model batch_size w)
       ↔ In x (db w) ∧ Cleanup.expired_row model (now w) x = true.
Proof.
  intros Hsmall x. unfold Cleanup.expired_batch.
  rewrite take_ge.
  - rewrite order_by_expiry_In. apply filter_In.
  - rewrite order_by_expiry_length. unfold expired_count in Hsmall. lia.
Qed.

(** Selecting by the ids of the batch selects the expired rows. *)
Lemma id_in_batch model batch_size w r :
  expired_count model w <= batch_size →
  unique_keys (db w) →
  In r (db w) →
  Cleanup.id_in model (map obj_pk (Cleanup.expired_batch model batch_size w)) r
  = Cleanup.expired_row model (now w) r.
Proof.
  intros Hsmall Huniq Hr.
  destruct (Cleanup.expired_row model (now w) r) eqn:Hexp.
  - unfold Cleanup.id_in. apply andb_true_iff. split.
    + unfold Cleanup.expired_row in Hexp. now apply andb_true_iff in Hexp as [? _].
    + apply bool_decide_eq_true. apply list_elem_of_In, in_map.
      now apply expired_batch_all.
  - apply not_true_is_false. unfold Cleanup.id_in.
    intros [Hname Hpk]%andb_true_iff.
    apply bool_decide_eq_true in Hpk.
    apply list_elem_of_In, in_map_iff in Hpk as (r' & Hpk & Hr').
    apply (expired_batch_all _ _ _ Hsmall) in Hr' as [Hin' Hexp'].
    assert (r = r') as ->; [|congruence].
    apply Huniq; [assumption..|]. apply same_row_spec. split; [|now symmetry].
    apply String.eqb_eq in Hname. rewrite Hname.
    unfold Cleanup.expired_row in Hexp'.
    apply andb_true_iff in Hexp' as [Hn' _]. now apply String.eqb_eq in Hn'.
Qed.

(** One model whose expired rows number less than [batch_size]: the loop
    runs one batch.  The real run deletes exactly the expired rows of the
    model, the dry run deletes nothing, and both count them. *)
Lemma sweep_below_batch_size fuel opts model model_deleted total_deleted out w :
  0 < expired_count model w < Cleanup.batch_size opts →
  unique_keys (db w) →
  let n := expired_count model w in
  Cleanup.model_loop (S fuel) opts model model_deleted total_deleted out w
  = Some (paused opts
            (if Cleanup.dry_run opts then w
             else set_db (without_expired model (now w)) w),
          Ok (model_deleted + n, total_deleted + n,
              out ++ [Cleanup.OutDeleted (model_deleted + n) (cls_name model)])).
Proof.
  intros [Hpos Hsmall] Huniq n. cbn [Cleanup.model_loop].
  destruct (Z.ltb_spec (Cleanup.batch_size opts) 0); [lia|].
  rewrite expired_batch_length.
  replace (Z.min (Z.max 0 (Cleanup.batch_size opts)) (expired_count model w))
    with n by (unfold n; lia).
  destruct (Z.eqb_spec n 0); [unfold n in *; lia|].
  destruct (Z.ltb_spec n (Cleanup.batch_size opts)); [|unfold n in *; lia].
  assert (Hids : ∀ r, In r (db w) →
            Cleanup.id_in model
              (map obj_pk (Cleanup.expired_batch model (Cleanup.batch_size opts) w)) r
            = Cleanup.expired_row model (now w) r).
  { intros r Hr. apply id_in_batch; [lia|assumption..]. }
  rewrite (filter_ext_in _ _ _ Hids).
  assert (Hkeep : List.filter
                    (fun r => negb (Cleanup.id_in model
                       (map obj_pk (Cleanup.expired_batch model (Cleanup.batch_size opts) w)) r))
                    (db w)
                  = without_expired model (now w) (db w)).
  { apply filter_ext_in. intros r Hr. now rewrite Hids. }
  fold (expired_count model w). fold n.
  unfold paused.
  destruct (Cleanup.dry_run opts); cbn [negb].
  - reflexivity.
  - unfold set_db at 1 2. cbn [db]. rewrite Hkeep. reflexivity.
Qed.

(** No expired row: the loop stops at once, printing nothing. *)
Lemma sweep_nothing_expired fuel opts model model_deleted total_deleted out w :
  expired_count model w = 0 →
  0 <= Cleanup.batch_size opts →
  Cleanup.model_loop (S fuel) opts model model_deleted total_deleted out w
  = Some (w, Ok (model_deleted, total_deleted, out)).
Proof.
  intros Hnone Hb. cbn [Cleanup.model_loop].
  destruct (Z.ltb_spec (Cleanup.batch_size opts) 0); [lia|].
  rewrite expired_batch_length, Hnone.
  replace (Z.min (Z.max 0 (Cleanup.batch_size opts)) 0) with 0 by lia.
  reflexivity.
Qed.

(** ** Request gate ([middleware.py]) *)

Lemma log_grow_monotone : monotone log_grow.
Proof.
  assert (Hnil : ∀ (l : list LogEntry), ∃ l', l = l ++ l').
  { intros l. exists []. now rewrite app_nil_r. }
  split; unfold log_grow; cbn; auto.
  - intros w1 w2 w3 [l1 H1] [l2 H2]. exists (l1 ++ l2). now rewrite H2, H1, app_assoc.
  - intros w e. now exists [e].
Qed.

Lemma log_grow_refl w : log_grow w w.
Proof. apply log_grow_monotone. Qed.

Lemma log_grow_trans w1 w2 w3 : log_grow w1 w2 → log_grow w2 w3 → log_grow w1 w3.
Proof. apply log_grow_monotone. Qed.

Lemma log_grow_rollback w w' : log_grow w w' → log_grow w (set_db (fun _ => db w) w').
Proof. apply log_grow_monotone. Qed.

Lemma import_from_grows_log ns name : preserves log_grow (Middleware.import_from ns name).
Proof. apply mono_import_from, log_grow_monotone. Qed.

Lemma get_registered_models_grows_log : preserves log_grow Sync.get_registered_models.
Proof. apply mono_get_registered_models, log_grow_monotone. Qed.

Lemma sync_data_at_grows_log depth arg sid incl :
  preserves log_grow (Publisher.sync_data_at depth arg sid incl).
Proof. apply mono_sync_data_at, log_grow_monotone. Qed.

#[local] Hint Resolve log_grow_refl log_grow_trans log_grow_rollback
  import_from_grows_log get_registered_models_grows_log sync_data_at_grows_log : frame.

(** The freshness check never raises: any exception is logged and the
    answer is [False]. *)
Lemma check_pii_data_outcome ns self request w :
  ∃ w' b, Middleware._check_pii_data ns self request w = (w', Ok b) ∧ log_grow w w'.
Proof.
  unfold Middleware._check_pii_data, try_except.
  match goal with
  | |- context [match ?m w with _ => _ end] =>
      assert (Hm : preserves log_grow m);
      [|destruct (m w) as [w1 [b|e]] eqn:E]
  end.
  - repeat frame_step.
  - exists w1, b. split; [reflexivity|]. eapply Hm, E.
  - eexists _, false. split; [reflexivity|].
    eapply log_grow_trans; [eapply Hm, E|].
    now exists [LException "Error checking PII data" e].
Qed.

(** [_initiate_sync] never raises either.  It leaves the flag set, unless
    its handler ran: then the flag is gone and the error is in the log. *)
Lemma initiate_sync_outcome ns request w :
  ∃ w' request',
    Middleware._initiate_sync ns request w = (w', Ok request')
    ∧ ((request' = Middleware.set_item request "pii_sync_in_progress" (VBool true)
        ∧ log_grow w w')
       ∨ (request' = Middleware.pop_item request "pii_sync_in_progress"
          ∧ sync_error_logged w w')).
Proof.
  unfold Middleware._initiate_sync, try_except.
  match goal with
  | |- context [match ?m w with _ => _ end] =>
      assert (Hm : preserves log_grow m);
      [|destruct (m w) as [w1 [b|e]] eqn:E]
  end.
  - unfold Publisher.sync_data. repeat frame_step.
  - exists w1, b. split; [reflexivity|]. left. split; [|eapply Hm, E].
    apply bind_Ok in E as (wa & [] & _ & E).
    apply bind_Ok in E as (wb & ? & _ & E). now injection E as _ <-.
  - eexists _, _. split; [reflexivity|]. right. split; [reflexivity|].
    destruct (Hm _ _ _ E) as [l Hl].
    exists (l ++ [LException "Error initiating PII data sync" e]), e.
    split.
    + cbn. now rewrite Hl, app_assoc.
    + apply elem_of_app. right. left.
Qed.

Lemma sync_flag_set_item request key v :
  is_Some (sync_flag request) → is_Some (sync_flag (Middleware.set_item request key v)).
Proof.
  unfold sync_flag. cbn. intros H.
  destruct (decide (key = "pii_sync_in_progress")) as [->|Hne].
  - rewrite lookup_insert_eq. eauto.
  - now rewrite lookup_insert_ne.
Qed.


(** C3 (as amended).  [process_request] does not clear the
    sync-in-progress item of a session when the data is fresh, nor in any
    other branch but one: if the item is set before the call and missing
    after it, then the handler of [_initiate_sync] has run during the call
    and logged its error.  This holds whichever namespace the imports from
    [pii_shield.sync.publisher] are resolved in. *)
Theorem process_request_clears_flag_only_on_error
    (ns : list string) (self : Middleware.PIIShieldMiddleware) (w w' : World)
    (request request' : Middleware.Request) (resp : option Middleware.Response) :
  Middleware.process_request ns self request w = (w', Ok (request', resp)) →
  is_Some (sync_flag request) →
  sync_flag request' = None →
  sync_error_logged w w'.
Proof.
  intros Hrun Hset Hgone.
  assert (Hcontra : ∀ r, is_Some (sync_flag r) → r = request' → sync_error_logged w w').
  { intros r [v Hv] ->. congruence. }
  unfold Middleware.process_request in Hrun.
  destruct (negb (Middleware.user_is_authenticated request)).
  { injection Hrun as _ <- _. now apply (Hcontra request). }
  destruct (existsb _ _).
  { injection Hrun as _ <- _. now apply (Hcontra request). }
  destruct (truthy (Middleware.session_getattr request _ _)).
  - destruct (conf_opt (Middleware.pii_settings self) ADVANCED ADVANCED_waiting_view)
      as [wv|]; [|injection Hrun as _ <- _; now apply (Hcontra request)].
    destruct (truthy (VStr wv));
      [|injection Hrun as _ <- _; now apply (Hcontra request)].
    apply bind_Ok in Hrun as (w1 & target & _ & Hrun).
    destruct (negb _).
    + injection Hrun as _ <- _.
      eapply Hcontra; [|reflexivity]. now apply sync_flag_set_item.
    + injection Hrun as _ <- _. now apply (Hcontra request).
  - destruct (check_pii_data_outcome ns self request w) as (w1 & fresh & Hcheck & Hlog1).
    unfold bind at 1 in Hrun. rewrite Hcheck in Hrun.
    destruct fresh; cbn [negb] in Hrun.
    { injection Hrun as _ <- _. now apply (Hcontra request). }
    destruct (initiate_sync_outcome ns request w1) as (w2 & request1 & Hinit & Hcases).
    unfold bind at 1 in Hrun. rewrite Hinit in Hrun.
    assert (Hfinal : w' = w2
                     ∧ (request' = request1
                        ∨ ∃ key v, request' = Middleware.set_item request1 key v)).
    { destruct (conf_opt (Middleware.pii_settings self) ADVANCED ADVANCED_waiting_view)
        as [wv|]; [|injection Hrun as <- <- _; auto].
      destruct (truthy (VStr wv)); [|injection Hrun as <- <- _; auto].
      injection Hrun as <- <- _. eauto. }
    destruct Hfinal as [-> Hreq].
    destruct Hcases as [[-> _]|[_ (l & e & Hl & Hin)]].
    + assert (Hflag : is_Some (sync_flag
                (Middleware.set_item request "pii_sync_in_progress" (VBool true)))).
      { unfold sync_flag. cbn. rewrite lookup_insert_eq. eauto. }
      destruct Hreq as [->|(key & v & ->)].
      * eapply Hcontra; [exact Hflag|reflexivity].
      * eapply Hcontra; [|reflexivity]. now apply sync_flag_set_item.
    + destruct Hlog1 as [l1 Hl1].
      exists (l1 ++ l), e. split.
      * now rewrite Hl, Hl1, app_assoc.
      * apply elem_of_app. now right.
Qed.

Lemma process_request_clears_flag_only_on_error_witness :
  sync_error_logged Examples.offline_source
    (fst (Middleware.process_request Middleware.publisher_py Examples.source_gate
            (Examples.request_to "/profile/" Examples.marked_session)
            Examples.offline_source)).
Proof.
  destruct (Middleware.process_request Middleware.publisher_py Examples.source_gate
              (Examples.request_to "/profile/" Examples.marked_session)
              Examples.offline_source) as [w' r] eqn:Hrun.
  assert (Hr : ∃ request' resp, r = Ok (request', resp) ∧ sync_flag request' = None).
  { change r with (snd (w', r)). rewrite <- Hrun. vm_compute.
    eexists _, _. split; reflexivity. }
  destruct Hr as (request' & resp & -> & Hgone).
  apply (process_request_clears_flag_only_on_error _ _ _ _ _ _ _ Hrun);
    [|exact Hgone].
  eexists. reflexivity.
Defined.

(** C3, counterexample to "the next request for which the freshness check
    succeeds clears the flag".  Session [s1] is marked, every registered
    type has a row for [s1] that expires 1800 s from now (threshold 300 s):
    after [process_request] the item is still [True].  That is so with
    the imports resolved as the source tree has them, and also if
    [get_registered_models] could be imported from the publisher module,
    in which case the check passes and the request proceeds. *)
Lemma fresh_data_leaves_flag_set :
  let w := Examples.world Examples.gate_settings Examples.fresh_rows in
  let request := Examples.request_to "/profile/" Examples.marked_session in
  Middleware.check_models (registry w) (VStr "s1") (now w + timedelta_seconds 300) (db w)
  = true
  ∧ sync_flag request = Some (VBool true)
  ∧ flag_after (Middleware.process_request Middleware.publisher_py Examples.gate request w)
    = Some (Some (VBool true))
  ∧ flag_after (Middleware.process_request
                  (Middleware.publisher_py ++ Middleware.sync_init_py)
                  Examples.gate request w)
    = Some (Some (VBool true))
  ∧ response_of (Middleware.process_request
                   (Middleware.publisher_py ++ Middleware.sync_init_py)
                   Examples.gate request w)
    = Some None.
Proof. repeat split; vm_compute; reflexivity. Qed.

(** When the check passes the request proceeds and nothing is touched. *)
Lemma gate_proceeds_when_fresh ns self request w w1 :
  Middleware.user_is_authenticated request = true →
  existsb (fun p => String.prefix p (Middleware.path request))
          (conf (Middleware.pii_settings self) ADVANCED ADVANCED_excluded_paths [])
  = false →
  truthy (Middleware.session_getattr request "pii_sync_in_progress" (VBool false)) = false →
  Middleware._check_pii_data ns self request w = (w1, Ok true) →
  Middleware.process_request ns self request w = (w1, Ok (request, None)).
Proof.
  intros Hauth Hexcl Hattr Hcheck. unfold Middleware.process_request.
  rewrite Hauth. cbn [negb].
  rewrite Hexcl, Hattr. unfold bind. now rewrite Hcheck.
Qed.

(** The mark that [_initiate_sync] leaves is an item of the session. *)
Example initiate_sync_marks_item :
  (fun r => Middleware.session r)
    <$> (match snd (Middleware._initiate_sync Middleware.publisher_py
                      (Examples.request_to "/profile/" Examples.fresh_session)
                      (Examples.world Examples.gate_settings [])) with
         | Ok r => Some r
         | Raise _ => None
         end)
  = Some Examples.marked_session.
Proof. vm_compute. reflexivity. Qed.

(** C2.  What the gate does with a request whose session object has no
    attribute [pii_sync_in_progress] (the mark of [_initiate_sync] is an
    item of the session, which the test of [process_request] does not
    read) and whose data is not fresh: it starts a synchronization and
    redirects to the waiting view, storing the path.  So it does for
    every path, the path of the waiting view included. *)
Theorem gate_redirects_unless_fresh
    (ns : list string) (self : Middleware.PIIShieldMiddleware) (w : World)
    (request : Middleware.Request) (wv : string) :
  Middleware.user_is_authenticated request = true →
  existsb (fun p => String.prefix p (Middleware.path request))
          (conf (Middleware.pii_settings self) ADVANCED ADVANCED_excluded_paths [])
  = false →
  truthy (Middleware.session_getattr request "pii_sync_in_progress" (VBool false)) = false →
  conf_opt (Middleware.pii_settings self) ADVANCED ADVANCED_waiting_view = Some wv →
  truthy (VStr wv) = true →
  snd (Middleware._check_pii_data ns self request w) = Ok false →
  ∃ w' request',
    Middleware.process_request ns self request w
    = (w', Ok (request', Some (Middleware.HttpResponseRedirect wv)))
    ∧ Middleware.sess_items (Middleware.session request')
      !! conf (Middleware.pii_settings self) ADVANCED ADVANCED_redirect_session_key
              "redirect_after_sync"
      = Some (VStr (Middleware.path request)).
Proof.
  intros Hauth Hexcl Hattr Hwv Htruthy Hcheck. unfold Middleware.process_request.
  rewrite Hauth. cbn [negb]. rewrite Hexcl, Hattr. unfold bind at 1.
  destruct (Middleware._check_pii_data ns self request w) as [w1 r] eqn:Echeck.
  cbn [snd] in Hcheck. subst r. cbn [negb].
  destruct (initiate_sync_outcome ns request w1) as (w2 & request1 & Hinit & Hcases).
  unfold bind at 1. rewrite Hinit, Hwv, Htruthy.
  eexists _, _. split; [reflexivity|].
  cbn. rewrite lookup_insert_eq.
  now destruct Hcases as [[-> _]|[-> _]].
Qed.

(** The failing input: the session marked by [_initiate_sync], a request
    for the waiting view itself, no row for the session. *)
Lemma gate_redirects_unless_fresh_witness :
  let w := Examples.world Examples.gate_settings [] in
  let request := Examples.request_to "/waiting/" Examples.marked_session in
  sync_flag request = Some (VBool true)
  ∧ urlconf w !! "waiting" = Some (Middleware.path request)
  ∧ ∃ w' request',
      Middleware.process_request Middleware.publisher_py Examples.gate request w
      = (w', Ok (request', Some (Middleware.HttpResponseRedirect "waiting")))
      ∧ Middleware.sess_items (Middleware.session request') !! "redirect_after_sync"
        = Some (VStr "/waiting/").
Proof.
  intros w request. split; [reflexivity|]. split; [reflexivity|].
  apply (gate_redirects_unless_fresh Middleware.publisher_py Examples.gate w request
           "waiting"); reflexivity.
Defined.

(** The same request when [get_registered_models] resolves: still a
    redirect, the data being absent. *)
Example gate_redirects_waiting_view_any_import :
  response_of (Middleware.process_request
                 (Middleware.publisher_py ++ Middleware.sync_init_py) Examples.gate
                 (Examples.request_to "/waiting/" Examples.marked_session)
                 (Examples.world Examples.gate_settings []))
  = Some (Some (Middleware.HttpResponseRedirect "waiting")).
Proof. vm_compute. reflexivity. Qed.

(** Were the mark an attribute of the session object, the branch written
    for it would let the waiting view through and defer any other path. *)
Example gate_branch_for_marked_sessions :
  let marked_attr := Middleware.MkSession (Some "s1") ∅
                       (<["pii_sync_in_progress" := VBool true]> ∅) in
  response_of (Middleware.process_request Middleware.publisher_py Examples.gate
                 (Examples.request_to "/waiting/" marked_attr)
                 (Examples.world Examples.gate_settings []))
  = Some None
  ∧ response_of (Middleware.process_request Middleware.publisher_py Examples.gate
                   (Examples.request_to "/profile/" marked_attr)
                   (Examples.world Examples.gate_settings []))
    = Some (Some (Middleware.HttpResponseRedirect "waiting")).
Proof. split; vm_compute; reflexivity. Qed.

(** *** The real run always comes to an end

    Every batch that does not end the loop removes at least one row, so
    the loop of one model is over within as many batches as the table has
    rows, plus one. *)

Lemma expired_batch_in_db model batch_size w x :
  In x (Cleanup.expired_batch model batch_size w) →
  In x (db w) ∧ Cleanup.expired_row model (now w) x = true.
Proof.
  unfold Cleanup.expired_batch. intros Hx.
  apply list_elem_of_In, elem_of_take in Hx as (i & Hi & _).
  apply list_elem_of_lookup_2, list_elem_of_In in Hi.
  apply (proj1 (order_by_expiry_In _ _)) in Hi.
  apply (proj1 (filter_In _ _ _)) in Hi. exact Hi.
Qed.

Lemma filter_out_shrinks {A} (f : A → bool) (l : list A) x :
  In x l → f x = true →
  (length (List.filter (fun y => negb (f y)) l) < length l)%nat.
Proof.
  intros Hin Hfx.
  assert (Hpos : (0 < length (List.filter f l))%nat).
  { assert (Hx : In x (List.filter f l)) by now apply filter_In.
    destruct (List.filter f l); [destruct Hx|cbn; lia]. }
  pose proof (filter_length f l). lia.
Qed.

Lemma model_loop_step fuel opts model model_deleted total_deleted out w :
  Cleanup.model_loop (S fuel) opts model model_deleted total_deleted out w
  = if Cleanup.batch_size opts <? 0 then Some (w, Raise ValueError)
    else
      let expired := Cleanup.expired_batch model (Cleanup.batch_size opts) w in
      let count := Z.of_nat (length expired) in
      if count =? 0 then Some (w, Ok (model_deleted, total_deleted, out))
      else
        let expired_ids := map obj_pk expired in
        let deleted :=
          Z.of_nat (length (List.filter (Cleanup.id_in model expired_ids) (db w))) in
        let w1 :=
          if negb (Cleanup.dry_run opts)
          then set_db (List.filter (fun r => negb (Cleanup.id_in model expired_ids r))) w
          else w in
        let model_deleted :=
          if negb (Cleanup.dry_run opts) then model_deleted + deleted
          else model_deleted + count in
        let total_deleted :=
          if negb (Cleanup.dry_run opts) then total_deleted + deleted
          else total_deleted + count in
        let out := out ++ [Cleanup.OutDeleted model_deleted (cls_name model)] in
        let w2 := paused opts w1 in
        if count <? Cleanup.batch_size opts
        then Some (w2, Ok (model_deleted, total_deleted, out))
        else Cleanup.model_loop fuel opts model model_deleted total_deleted out w2.
Proof. reflexivity. Qed.

Lemma paused_db opts w : db (paused opts w) = db w.
Proof. unfold paused. now destruct (0 <? Cleanup.sleep_time opts). Qed.

Lemma real_run_ends n opts model model_deleted total_deleted out w :
  Cleanup.dry_run opts = false →
  (length (db w) <= n)%nat →
  ∃ res, Cleanup.model_loop (S n) opts model model_deleted total_deleted out w
         = Some res.
Proof.
  intros Hreal. revert model_deleted total_deleted out w.
  induction n as [|n IH]; intros md td out w Hlen; rewrite model_loop_step; cbv zeta.
  - destruct (_ <? 0); [eauto|].
    unfold Cleanup.expired_batch.
    destruct (db w); [|cbn in Hlen; lia].
    cbn. rewrite take_nil. cbn. eauto.
  - destruct (Cleanup.batch_size opts <? 0); [eauto|].
    destruct (Cleanup.expired_batch model (Cleanup.batch_size opts) w)
      as [|x batch] eqn:Ebatch; [cbn; eauto|].
    destruct (_ =? 0); [eauto|].
    destruct (_ <? Cleanup.batch_size opts); [eauto|].
    rewrite Hreal. cbn [negb].
    apply IH. rewrite paused_db. cbn [db set_db].
    assert (Hx : In x (Cleanup.expired_batch model (Cleanup.batch_size opts) w))
      by (rewrite Ebatch; now left).
    apply expired_batch_in_db in Hx as [Hin Hexp].
    assert (Hid : Cleanup.id_in model (map obj_pk (x :: batch)) x = true).
    { unfold Cleanup.id_in. apply andb_true_iff. split.
      - unfold Cleanup.expired_row in Hexp. now apply andb_true_iff in Hexp as [? _].
      - apply bool_decide_eq_true. cbn. left. }
    pose proof (filter_out_shrinks _ _ _ Hin Hid) as Hshrink. lia.
Qed.

(** * Further properties of the code *)

(** ** Router: symmetry, and migrations against routing *)

(** X1.  [allow_relation] does not depend on the order of its two
    objects. *)
Theorem allow_relation_symmetric st obj1 obj2 :
  Routers.allow_relation st obj1 obj2 = Routers.allow_relation st obj2 obj1.
Proof.
  unfold Routers.allow_relation.
  destruct (isinstance obj1 "PIIModel"), (isinstance obj2 "PIIModel"); reflexivity.
Qed.

(** X2.  For a model that [apps.get_model] finds, [allow_migrate] always
    decides, and it allows the migration on a database exactly when that
    database is ["frontend"] for a model whose writes are routed to
    ["frontend"], and any other database for a model whose writes are
    left to the default. *)
Theorem allow_migrate_matches_write_routing
    (get_model : string → string → option PyClass) db app_label name model :
  get_model app_label name = Some model →
  ∃ b, Routers.allow_migrate get_model db app_label (Some name) = Some b
       ∧ (b = true ↔ (db = "frontend" ↔ Routers.db_for_write model = Some "frontend"))
       ∧ Routers.db_for_read model = Routers.db_for_write model.
Proof.
  intros Hm. unfold Routers.allow_migrate, Routers.db_for_write, Routers.db_for_read.
  rewrite Hm.
  destruct (Routers._is_pii_model model); eexists; (split; [reflexivity|]);
    (split; [|reflexivity]); destruct (String.eqb_spec db "frontend"); cbn;
    intuition (try congruence).
Qed.

Lemma allow_migrate_matches_write_routing_witness :
  Routers.allow_migrate (fun _ _ => Some Examples.Address) "frontend" "backendapp"
                        (Some "address") = Some true
  ∧ Routers.allow_migrate (fun _ _ => Some Examples.User) "frontend" "auth"
                          (Some "user") = Some false.
Proof.
  split.
  - destruct (allow_migrate_matches_write_routing
                (fun _ _ => Some Examples.Address) "frontend" "backendapp" "address"
                Examples.Address eq_refl) as (b & -> & Hb & _).
    f_equal. apply Hb. split; reflexivity.
  - reflexivity.
Defined.

(** ** The registry of models is a set *)

Lemma list_eqb_eq {A} (eqb : A → A → bool) (l l' : list A) :
  (∀ x y, eqb x y = true ↔ x = y) →
  Sync.list_eqb eqb l l' = true ↔ l = l'.
Proof.
  intros Heqb. revert l'. induction l as [|x l IH]; intros [|y l']; cbn;
    try (split; [discriminate|discriminate]); [tauto|].
  rewrite andb_true_iff, Heqb, IH. split; [intros [-> ->]; reflexivity|].
  now intros [= -> ->].
Qed.

Lemma field_eqb_eq (f g : Field) : Sync.field_eqb f g = true ↔ f = g.
Proof.
  unfold Sync.field_eqb. rewrite !andb_true_iff, String.eqb_eq, !Bool.eqb_true_iff.
  destruct f, g; cbn. split.
  - intros [[[[[[-> ->] ->] ->] ->] ->] ->]. reflexivity.
  - intros [= -> -> -> -> -> -> ->]. repeat split.
Qed.

Lemma class_eqb_eq (c c' : PyClass) : Sync.class_eqb c c' = true ↔ c = c'.
Proof.
  unfold Sync.class_eqb.
  rewrite !andb_true_iff, String.eqb_eq,
    (list_eqb_eq _ _ _ String.eqb_eq), (list_eqb_eq _ _ _ field_eqb_eq).
  destruct c, c'; cbn. split.
  - intros [[-> ->] ->]. reflexivity.
  - intros [= -> -> ->]. repeat split.
Qed.

Lemma class_in_spec (c : PyClass) (cs : list PyClass) :
  Sync.class_in c cs = true ↔ c ∈ cs.
Proof.
  unfold Sync.class_in. rewrite existsb_exists, list_elem_of_In. split.
  - intros (c' & Hin & ->%class_eqb_eq). exact Hin.
  - intros Hin. exists c. split; [exact Hin|now apply class_eqb_eq].
Qed.

Lemma register_model_eq enumerate (c : PyClass) (w : World) :
  Sync.register_model enumerate c w
  = (Sync.set_registry (fun r => if Sync.class_in c r then r
                                 else enumerate (r ++ [c])) w,
     Ok c).
Proof. reflexivity. Qed.

Lemma set_registry_id (w : World) : Sync.set_registry (fun r => r) w = w.
Proof. now destruct w. Qed.

(** X3.  [register_model] returns its argument and is an insertion into
    a set.  Afterwards the registered classes are the class and those
    registered before, each once if each was there once, in an order that
    is not determined; registering the same class again changes nothing;
    and [get_registered_models], called next, lists the class.  Nothing
    but the registry changes. *)
Theorem register_model_is_set_insertion
    (enumerate : list PyClass → list PyClass) (c : PyClass) (w : World) :
  (∀ l, enumerate l ≡ₚ l) →
  ∃ w', Sync.register_model enumerate c w = (w', Ok c)
        ∧ registry w' ≡ₚ (if Sync.class_in c (registry w) then registry w
                          else c :: registry w)
        ∧ (∀ c', c' ∈ registry w' ↔ c' = c ∨ c' ∈ registry w)
        ∧ Sync.register_model enumerate c w' = (w', Ok c)
        ∧ (∃ models, (Sync.register_model enumerate c ;;;
                      Sync.get_registered_models)%py w
                     = (w', Ok models)
                     ∧ c ∈ models)
        ∧ store_kept w w'.
Proof.
  intros Hperm. rewrite register_model_eq.
  set (w' := Sync.set_registry _ w).
  assert (Hreg : registry w' ≡ₚ (if Sync.class_in c (registry w) then registry w
                                 else c :: registry w)).
  { subst w'. cbn [registry Sync.set_registry].
    destruct (Sync.class_in c (registry w)); [reflexivity|].
    rewrite Hperm. apply Permutation_app_comm. }
  assert (Hmem : ∀ c', c' ∈ registry w' ↔ c' = c ∨ c' ∈ registry w).
  { intros c'. rewrite Hreg.
    destruct (Sync.class_in c (registry w)) eqn:Hc.
    - apply class_in_spec in Hc. split; [now right|intros [->|?]; assumption].
    - apply elem_of_cons. }
  assert (Hin : Sync.class_in c (registry w') = true).
  { apply class_in_spec, Hmem. now left. }
  exists w'. split; [reflexivity|]. split; [exact Hreg|]. split; [exact Hmem|].
  split; [|split].
  - rewrite register_model_eq. f_equal.
    rewrite <- (set_registry_id w') at 2.
    unfold Sync.set_registry. now rewrite Hin.
  - exists (registry w'). split; [reflexivity|]. now apply class_in_spec.
  - repeat split.
Qed.

Lemma register_model_is_set_insertion_witness :
  ∃ w', Sync.register_model reverse Examples.User (Examples.world None []) = (w', Ok Examples.User)
        ∧ registry w' ≡ₚ [Examples.User; Examples.Address; Examples.UserProfile].
Proof.
  destruct (register_model_is_set_insertion reverse Examples.User (Examples.world None [])
              (fun l => reverse_Permutation l))
    as (w' & Hrun & Hreg & _).
  exists w'. split; [exact Hrun|exact Hreg].
Defined.

(** ** TTL policy: an entity without a row, and a row just refreshed *)

Lemma db_update_none fields (o : instance) rows :
  db_get o rows = None → db_update fields o rows = None.
Proof.
  induction rows as [|r rows IH]; simpl; [reflexivity|].
  destruct (same_row o r); [discriminate|].
  intros H. now rewrite (IH H).
Qed.



(** X5.  After a successful [refresh_expiration] the row of the entity,
    tested at the same clock, is one that the gate counts as expiring
    within [threshold] seconds exactly when [SESSION.timeout] is below
    [threshold], and one that the sweeper selects exactly when
    [SESSION.timeout] is negative. *)
Theorem refreshed_row_against_the_two_tests
    (w w' : World) (e e' : instance) (threshold : Z) :
  Models.refresh_expiration e w = (w', Ok e') →
  let timeout := conf (settings w) SESSION SESSION_timeout 1800 in
  ∃ row, db_get e (db w') = Some row
         ∧ now w' = now w
         ∧ Middleware.expires_before (now w' + timedelta_seconds threshold) row
           = (timeout <? threshold)
         ∧ Cleanup.expired_row (obj_class row) (now w') row = (timeout <? 0).
Proof.
  intros Hrun timeout.
  set (new := now w + timedelta_seconds timeout).
  set (e1 := setattr e "data_expires_at" (VTime new)).
  unfold Models.refresh_expiration, bind in Hrun.
  rewrite get_expiration_time_eq in Hrun.
  fold (conf (settings w) SESSION SESSION_timeout 1800) in Hrun.
  fold timeout in Hrun. fold new in Hrun. fold e1 in Hrun.
  destruct (db_get e1 (db w)) as [row|] eqn:Hrow.
  2:{ unfold save_update_fields in Hrun.
      rewrite (db_update_none _ _ _ Hrow) in Hrun. discriminate. }
  destruct (db_update_get ["data_expires_at"] e1 row (db w) Hrow)
    as (rows' & Hup & Hget & _).
  unfold save_update_fields in Hrun. rewrite Hup in Hrun.
  injection Hrun as <- _.
  unfold e1 in Hget; rewrite db_get_setattr in Hget; fold e1 in Hget.
  exists (copy_fields ["data_expires_at"] e1 row).
  split; [exact Hget|]. split; [reflexivity|].
  assert (Hexp : expires_of (copy_fields ["data_expires_at"] e1 row) = Some new).
  { unfold expires_of, e1. now rewrite copy_expiry_attrs, lookup_insert_eq. }
  split.
  - unfold Middleware.expires_before. rewrite Hexp. cbn [now set_db].
    unfold new, timedelta_seconds.
    destruct (Z.ltb_spec timeout threshold), (Z.ltb_spec (now w + timeout * 1000000)
      (now w + threshold * 1000000)); try reflexivity; lia.
  - unfold Cleanup.expired_row. rewrite Hexp, String.eqb_refl. cbn [now set_db andb].
    unfold new, timedelta_seconds.
    destruct (Z.ltb_spec timeout 0), (Z.ltb_spec (now w + timeout * 1000000) (now w));
      try reflexivity; lia.
Qed.

Lemma refreshed_row_against_the_two_tests_witness :
  let w := Examples.world None [Examples.lapsed] in
  ∃ row, db_get Examples.lapsed (db (fst (Models.refresh_expiration Examples.lapsed w)))
         = Some row
         ∧ Middleware.expires_before (Examples.t0 + timedelta_seconds 300) row = false
         ∧ Cleanup.expired_row Examples.Address Examples.t0 row = false.
Proof.
  intros w.
  destruct (Models.refresh_expiration Examples.lapsed w) as [w' [e'|x]] eqn:Hrun;
    [|discriminate Hrun].
  destruct (refreshed_row_against_the_two_tests w w' Examples.lapsed e' 300 Hrun)
    as (row & Hget & Hnow & Hgate & Hsweep).
  exists row. split; [exact Hget|].
  assert (Hc : obj_class row = Examples.Address).
  { injection Hrun as <- _. cbn in Hget. now injection Hget as <-. }
  rewrite Hnow in Hgate, Hsweep. rewrite Hc in Hsweep.
  split; [exact Hgate|exact Hsweep].
Defined.

(** ** Publisher: what a failed call leaves behind *)

(** X6.  If [sync_data] raises, the database is as it was before the
    call: the transaction is rolled back.  The configuration and the clock
    are untouched, and whatever was published before the failure stays
    published. *)
Theorem sync_data_failure_rolls_back
    (arg sid : value) (incl : bool) (depth : Z) (w w' : World) (e : exn) :
  Publisher.sync_data arg sid incl depth w = (w', Raise e) →
  db w' = db w
  ∧ settings w' = settings w
  ∧ now w' = now w
  ∧ ∃ l, published w' = published w ++ l.
Proof.
  unfold Publisher.sync_data. intros Hrun.
  destruct (mono_sync_data_at settled settled_monotone _ _ _ _ _ _ _ Hrun)
    as (Hs & Hn & Hp & _).
  split; [|now repeat split].
  rewrite sync_data_at_eq in Hrun. cbv zeta in Hrun.
  destruct (negb _); [discriminate|].
  unfold bind at 1, atomic in Hrun.
  match type of Hrun with
  | context [for_each ?xs ?body ?w0] => destruct (for_each xs body w0) as [w1 [[]|e1]]
  end.
  - discriminate.
  - now injection Hrun as <- _.
Qed.

Lemma sync_data_failure_rolls_back_witness :
  let w := Examples.world (Examples.with_mode "backend") [] in
  let run := Publisher.sync_data
               (VList [VObj (Examples.home "s1" Examples.t0); VInt 3])
               (VStr "s1") false 1 w in
  snd run = Raise (AttributeError "save")
  ∧ db (fst run) = db w
  ∧ length (published (fst run)) = 1%nat.
Proof.
  intros w run.
  assert (Hsnd : snd run = Raise (AttributeError "save")) by (vm_compute; reflexivity).
  split; [exact Hsnd|].
  split; [|vm_compute; reflexivity].
  destruct run as [w' r] eqn:Hrun. cbn [snd] in Hsnd. subst r.
  exact (proj1 (sync_data_failure_rolls_back _ _ _ _ _ _ _ Hrun)).
Defined.

(** X7.  The two guarded assignments of [sync_data] overwrite
    [session_id] and [data_expires_at] on an instance that has them and
    touch nothing else: class, key and every other attribute are as
    before, and an attribute the instance lacks is not added. *)
Theorem stamp_overwrites_two_attributes
    (o : instance) (session_id : value) (expiration_time : Z) :
  ∃ o', Publisher.stamp (VObj o) session_id expiration_time = VObj o'
        ∧ obj_class o' = obj_class o
        ∧ obj_pk o' = obj_pk o
        ∧ (∀ k, is_Some (obj_attrs o' !! k) ↔ is_Some (obj_attrs o !! k))
        ∧ (∀ k, k ≠ "session_id" → k ≠ "data_expires_at" →
                obj_attrs o' !! k = obj_attrs o !! k)
        ∧ (is_Some (obj_attrs o !! "session_id") →
           obj_attrs o' !! "session_id" = Some session_id)
        ∧ (is_Some (obj_attrs o !! "data_expires_at") →
           obj_attrs o' !! "data_expires_at" = Some (VTime expiration_time)).
Proof.
  rewrite stamp_VObj. eexists. split; [reflexivity|].
  unfold stamp_obj.
  destruct (decide (is_Some (obj_attrs o !! "session_id"))) as [Hs|Hs];
    [rewrite (bool_decide_eq_true_2 _ Hs)|rewrite (bool_decide_eq_false_2 _ Hs)];
    cbn [setattr obj_attrs].
  - assert (Hiff : is_Some (<["session_id" := session_id]> (obj_attrs o) !! "data_expires_at")
                   ↔ is_Some (obj_attrs o !! "data_expires_at"))
      by now rewrite lookup_insert_ne.
    destruct (decide (is_Some (obj_attrs o !! "data_expires_at"))) as [He|He].
    + rewrite bool_decide_eq_true_2 by now apply Hiff.
      cbn [setattr obj_attrs obj_class obj_pk].
      split; [reflexivity|]. split; [reflexivity|]. split; [|split; [|split]].
      * intros k. destruct (decide (k = "data_expires_at")) as [->|Hk].
        { rewrite lookup_insert_eq. split; eauto. }
        rewrite lookup_insert_ne by congruence.
        destruct (decide (k = "session_id")) as [->|Hk'].
        { rewrite lookup_insert_eq. split; eauto. }
        now rewrite lookup_insert_ne by congruence.
      * intros k Hk1 Hk2. now rewrite !lookup_insert_ne by congruence.
      * intros _. rewrite lookup_insert_ne by discriminate. apply lookup_insert_eq.
      * intros _. apply lookup_insert_eq.
    + rewrite bool_decide_eq_false_2 by (intros H; now apply He, Hiff).
      cbn [setattr obj_attrs obj_class obj_pk].
      split; [reflexivity|]. split; [reflexivity|]. split; [|split; [|split]].
      * intros k. destruct (decide (k = "session_id")) as [->|Hk'].
        { rewrite lookup_insert_eq. split; eauto. }
        now rewrite lookup_insert_ne by congruence.
      * intros k Hk1 Hk2. now rewrite !lookup_insert_ne by congruence.
      * intros _. apply lookup_insert_eq.
      * intros H. now destruct He.
  - destruct (decide (is_Some (obj_attrs o !! "data_expires_at"))) as [He|He];
      [rewrite (bool_decide_eq_true_2 _ He)|rewrite (bool_decide_eq_false_2 _ He)];
      cbn [setattr obj_attrs obj_class obj_pk].
    + split; [reflexivity|]. split; [reflexivity|]. split; [|split; [|split]].
      * intros k. destruct (decide (k = "data_expires_at")) as [->|Hk].
        { rewrite lookup_insert_eq. split; eauto. }
        now rewrite lookup_insert_ne by congruence.
      * intros k Hk1 Hk2. now rewrite !lookup_insert_ne by congruence.
      * intros H. now destruct Hs.
      * intros _. apply lookup_insert_eq.
    + split; [reflexivity|]. split; [reflexivity|]. split; [|split; [|split]].
      * reflexivity.
      * reflexivity.
      * intros H. now destruct Hs.
      * intros H. now destruct He.
Qed.

(** ** Publisher: [publish_batch] *)

Lemma serialize_instances (os : list instance) (w : World) :
  Publisher.serialize (VObj <$> os) w = (w, Ok os).
Proof.
  unfold Publisher.serialize. f_equal.
  induction os as [|o os IH]; [reflexivity|].
  cbn [fmap list_fmap foldr]. cbn [fmap] in IH. now rewrite IH.
Qed.

Lemma publish_up (channel : string) (message : list instance) (w : World) :
  bus_up w = true →
  Publisher.publish channel message w
  = (set_log (fun l => l ++ [LDebug "Published message to channel"])
       (set_published
          (fun p => p ++ [(batch_channel (settings w) (Some channel), message)]) w),
     Ok (receivers w)).
Proof.
  intros Hup. destruct w. simpl in Hup. subst. reflexivity.
Qed.

Lemma flush_up (channel : option string) (os : list instance) (w : World) :
  bus_up w = true →
  ∃ w' c, Publisher.flush channel (VObj <$> os) w = (w', Ok (Some c, receivers w))
          ∧ batch_channel (settings w) (Some c) = batch_channel (settings w) channel
          ∧ published w' = published w ++ [(batch_channel (settings w) channel, os)]
          ∧ bus_up w' = true ∧ settings w' = settings w
          ∧ receivers w' = receivers w ∧ db w' = db w.
Proof.
  intros Hup. unfold Publisher.flush.
  unfold bind at 1. rewrite serialize_instances.
  unfold bind at 1, get_world. unfold bind at 1.
  rewrite publish_up by exact Hup.
  eexists _, _. split; [reflexivity|].
  cbn [published set_log set_published bus_up settings receivers db].
  destruct channel; repeat split; assumption.
Qed.

(** The loop cuts the instances into full batches and keeps the rest. *)
Lemma batch_loop_up (batch_size : Z) (os : list instance) :
  let n := Z.to_nat (Z.max 1 batch_size) in
  ∀ (bo : list instance) (channel : option string) (result : Z) (w : World),
    bus_up w = true →
    (length bo < n)%nat →
    ∃ w' chunks rest channel',
      Publisher.batch_loop batch_size (VObj <$> os) channel result (VObj <$> bo) w
      = (w', Ok (channel', match chunks with [] => result | _ => receivers w end,
                 VObj <$> rest))
      ∧ published w'
        = published w ++ ((fun c => (batch_channel (settings w) channel, c)) <$> chunks)
      ∧ concat chunks ++ rest = bo ++ os
      ∧ Forall (fun c => length c = n) chunks
      ∧ (length rest < n)%nat
      ∧ batch_channel (settings w) channel' = batch_channel (settings w) channel
      ∧ bus_up w' = true ∧ settings w' = settings w
      ∧ receivers w' = receivers w ∧ db w' = db w.
Proof.
  intros n. induction os as [|o os IH]; intros bo channel result w Hup Hlen.
  - exists w, [], bo, channel. cbn [fmap list_fmap Publisher.batch_loop ret].
    split; [reflexivity|]. cbn [fmap list_fmap concat app].
    rewrite !app_nil_r. repeat split; auto.
  - cbn [fmap list_fmap Publisher.batch_loop]. cbv zeta.
    replace ((VObj <$> bo) ++ [VObj o])
      with (VObj <$> (bo ++ [o])) by (now rewrite fmap_app).
    rewrite length_fmap, length_app. cbn [length].
    destruct (Z.leb_spec batch_size (Z.of_nat (length bo + 1))) as [Hfull|Hroom].
    + assert (Hn : (length bo + 1)%nat = n) by (unfold n in *; lia).
      destruct (flush_up channel (bo ++ [o]) w Hup)
        as (w1 & c & Hflush & Hc & Hpub1 & Hup1 & Hst1 & Hrcv1 & Hdb1).
      unfold bind at 1. rewrite Hflush. cbn [fst snd].
      assert (Hlen0 : (length (@nil instance) < n)%nat) by (unfold n; cbn; lia).
      destruct (IH [] (Some c) (receivers w) w1 Hup1 Hlen0)
        as (w' & chunks & rest & channel' & Hrun & Hpub & Hcat & Hall & Hrest
            & Hch & Hup' & Hst' & Hrcv' & Hdb').
      exists w', ((bo ++ [o]) :: chunks), rest, channel'.
      cbn [fmap list_fmap] in Hrun. rewrite Hrun.
      split; [|split; [|split; [|split; [|split; [|repeat split]]]]].
      * rewrite Hrcv1. now destruct chunks.
      * rewrite Hpub, Hpub1, Hst1, Hc. cbn [fmap list_fmap]. now rewrite <- app_assoc.
      * cbn [concat]. cbn [app] in Hcat. rewrite <- app_assoc, Hcat.
        now rewrite <- app_assoc.
      * constructor; [now rewrite length_app|exact Hall].
      * exact Hrest.
      * rewrite Hst1 in Hch. now rewrite Hch.
      * exact Hup'.
      * congruence.
      * congruence.
      * congruence.
    + assert (Hlen' : (length (bo ++ [o]) < n)%nat)
        by (rewrite length_app; cbn [length]; unfold n in *; lia).
      destruct (IH (bo ++ [o]) channel result w Hup Hlen')
        as (w' & chunks & rest & channel' & Hrun & Hpub & Hcat & Hall & Hrest & Hrest').
      exists w', chunks, rest, channel'. rewrite Hrun.
      split; [reflexivity|]. split; [exact Hpub|]. split; [|tauto].
      now rewrite Hcat, <- app_assoc.
Qed.



Lemma singletons_of_concat {A} (chunks : list (list A)) :
  Forall (fun c => length c = 1%nat) chunks →
  chunks = (fun x => [x]) <$> concat chunks.
Proof.
  induction 1 as [|c chunks Hc _ IH]; [reflexivity|].
  destruct c as [|x [|y c]]; try discriminate.
  cbn [concat app fmap list_fmap]. cbn [fmap] in IH. now rewrite <- IH.
Qed.

(** X9.  With [SYNC.batch_size] at 1 or below (zero and negative sizes
    included) [publish_batch] neither fails nor loops: on a reachable
    bus it publishes every instance in a message of its own, in
    order. *)
Theorem publish_batch_size_below_one
    (os : list instance) (channel : option string) (w : World) :
  bus_up w = true →
  conf (settings w) SYNC SYNC_batch_size 100 <= 1 →
  ∃ w', Publisher.publish_batch (VObj <$> os) channel w
        = (w', Ok (match os with [] => 0 | _ => receivers w end))
        ∧ published w'
          = published w
            ++ ((fun o => (batch_channel (settings w) channel, [o])) <$> os).
Proof.
  intros Hup Hsize.
  set (n := Z.to_nat (Z.max 1 (conf (settings w) SYNC SYNC_batch_size 100))).
  assert (Hn : n = 1%nat) by (unfold n; lia).
  assert (Hlen0 : (length (@nil instance) < n)%nat) by (rewrite Hn; cbn; lia).
  destruct (batch_loop_up (conf (settings w) SYNC SYNC_batch_size 100) os
              [] channel 0 w Hup Hlen0)
    as (w1 & chunks & rest & channel' & Hrun & Hpub & Hcat & Hall & Hrest & _).
  fold n in Hall, Hrest. rewrite Hn in Hall, Hrest.
  destruct rest; [|cbn in Hrest; lia].
  rewrite app_nil_r in Hcat. cbn [app] in Hcat.
  cbn [fmap list_fmap] in Hrun.
  unfold Publisher.publish_batch, try_except.
  unfold bind at 1, get_world. unfold bind at 1. cbn [fmap] in *. rewrite Hrun.
  cbn [fst snd truthy fmap list_fmap length Nat.eqb negb ret].
  exists w1. split.
  - destruct chunks as [|c chunks]; cbn [concat] in Hcat; [now subst os|].
    apply Forall_cons in Hall as [Hc _].
    destruct c; [discriminate|]. now subst os.
  - rewrite Hpub, (singletons_of_concat chunks Hall), Hcat.
    now rewrite <- list_fmap_compose.
Qed.

Lemma publish_batch_size_below_one_witness :
  let st := Some (MkPiiShield (Some "backend") None None
                    (Some (MkSyncConf (Some 0) None None None)) None) in
  ∃ w', Publisher.publish_batch (VObj <$> [Examples.lapsed; Examples.current]) None
          (Examples.world st [])
        = (w', Ok 1)
        ∧ published w' = [("pii_shield:default"%string, [Examples.lapsed]);
                          ("pii_shield:default"%string, [Examples.current])].
Proof.
  intros st.
  destruct (publish_batch_size_below_one [Examples.lapsed; Examples.current] None
              (Examples.world st []) eq_refl)
    as (w' & Hrun & Hpub); [cbn; lia|].
  exists w'. split; [exact Hrun|exact Hpub].
Defined.

Lemma publish_down (channel : string) (message : list instance) (w : World) :
  bus_up w = false →
  Publisher.publish channel message w
  = (set_log (fun l => l ++ [LException "Error publishing message to channel"
                                         TransportError]) w,
     Raise TransportError).
Proof.
  intros Hup. destruct w. simpl in Hup. subst. reflexivity.
Qed.

Lemma flush_down (channel : option string) (os : list instance) (w : World) :
  bus_up w = false →
  ∃ w', Publisher.flush channel (VObj <$> os) w = (w', Raise TransportError)
        ∧ published w' = published w ∧ db w' = db w ∧ bus_up w' = false.
Proof.
  intros Hup. unfold Publisher.flush.
  unfold bind at 1. rewrite serialize_instances.
  unfold bind at 1, get_world. unfold bind at 1.
  rewrite publish_down by exact Hup.
  eexists. split; [reflexivity|]. repeat split. exact Hup.
Qed.

Lemma batch_loop_down (batch_size : Z) (os : list instance) :
  ∀ (bo : list instance) (channel : option string) (result : Z) (w : World),
    bus_up w = false →
    ∃ w' res,
      Publisher.batch_loop batch_size (VObj <$> os) channel result (VObj <$> bo) w
      = (w', res)
      ∧ published w' = published w ∧ db w' = db w ∧ bus_up w' = false
      ∧ (res = Raise TransportError
         ∨ res = Ok (channel, result, VObj <$> (bo ++ os))).
Proof.
  induction os as [|o os IH]; intros bo channel result w Hup.
  - exists w, (Ok (channel, result, VObj <$> bo)).
    rewrite app_nil_r. repeat split; auto.
  - cbn [fmap list_fmap Publisher.batch_loop]. cbv zeta.
    replace ((VObj <$> bo) ++ [VObj o])
      with (VObj <$> (bo ++ [o])) by (now rewrite fmap_app).
    destruct (_ <=? _).
    + destruct (flush_down channel (bo ++ [o]) w Hup) as (w1 & Hflush & Hrest).
      unfold bind at 1. rewrite Hflush.
      exists w1, (Raise TransportError). split; [reflexivity|]. tauto.
    + destruct (IH (bo ++ [o]) channel result w Hup) as (w' & res & Hrun & Hrest).
      exists w', res. split; [exact Hrun|]. now rewrite <- app_assoc in Hrest.
Qed.

(** X10.  On an unreachable bus [publish_batch] of an empty list returns
    0 without a word; of anything else it raises the transport error,
    after logging it, with nothing published and nothing written. *)
Theorem publish_batch_on_unreachable_bus
    (os : list instance) (channel : option string) (w : World) :
  bus_up w = false →
  match os with
  | [] => Publisher.publish_batch (VObj <$> os) channel w = (w, Ok 0)
  | _ => ∃ w', Publisher.publish_batch (VObj <$> os) channel w
               = (w', Raise TransportError)
               ∧ published w' = published w
               ∧ db w' = db w
               ∧ LException "Error publishing batch" TransportError ∈ log w'
  end.
Proof.
  intros Hup. destruct os as [|o os]; [reflexivity|].
  destruct (batch_loop_down (conf (settings w) SYNC SYNC_batch_size 100) (o :: os)
              [] channel 0 w Hup)
    as (w1 & res & Hrun & Hpub & Hdb & Hup1 & Hres).
  cbn [fmap list_fmap app] in Hrun.
  unfold Publisher.publish_batch, try_except.
  unfold bind at 1, get_world. unfold bind at 1.
  cbn [fmap list_fmap]. cbn [fmap] in Hrun. rewrite Hrun.
  destruct Hres as [->| ->].
  - eexists. split; [reflexivity|].
    cbn [published db log set_log]. repeat split; try assumption.
    apply elem_of_app. right. left.
  - cbn [fst snd truthy app fmap list_fmap length Nat.eqb negb].
    destruct (flush_down channel (o :: os) w1 Hup1) as (w2 & Hflush & Hpub2 & Hdb2 & _).
    cbn [fmap list_fmap] in Hflush.
    unfold bind at 1. cbn [fmap] in Hflush. rewrite Hflush.
    eexists. split; [reflexivity|].
    cbn [published db log set_log]. repeat split; try congruence.
    apply elem_of_app. right. left.
Qed.

Lemma publish_batch_on_unreachable_bus_witness :
  ∃ w', Publisher.publish_batch (VObj <$> [Examples.lapsed]) None Examples.offline_source
        = (w', Raise TransportError)
        ∧ published w' = [].
Proof.
  destruct (publish_batch_on_unreachable_bus [Examples.lapsed] None
              Examples.offline_source eq_refl)
    as (w' & Hrun & Hpub & _).
  exists w'. split; [exact Hrun|exact Hpub].
Defined.

(** ** Consumer: one message *)

Lemma for_each_save_eq (objects : list instance) (w : World) :
  for_each objects (fun obj => save (VObj obj)) w
  = (set_db (save_all objects) w, Ok tt).
Proof.
  revert w. induction objects as [|o objects IH]; intros w.
  - now destruct w.
  - cbn [for_each]. unfold bind at 1. cbn [save]. unfold modify. now rewrite IH.
Qed.

Lemma process_accepted (msg : Consumer.message) (w : World) :
  accepted msg = true →
  Consumer._process_message msg w
  = (set_log (fun l => l ++ [LDebug "Processed objects from message"])
       (set_db (save_all (payload msg)) w),
     Ok true).
Proof.
  destruct msg as [| |[ty|] [[[[objects|]|]|[objects|]]|]]; try discriminate;
    cbn [accepted payload]; intros ->%String.eqb_eq;
    unfold Consumer._process_message, try_except;
    rewrite bool_decide_eq_true_2 by reflexivity; cbn [negb];
    cbn [Consumer.decode Consumer.deserialize]; unfold bind at 1; cbn [ret];
    unfold bind at 1; cbn [ret Consumer.deserialize];
    unfold bind at 1, atomic; rewrite for_each_save_eq; reflexivity.
Qed.

Lemma process_rejected (msg : Consumer.message) (w : World) :
  accepted msg = false →
  ∃ w', Consumer._process_message msg w = (w', Ok false)
        ∧ store_kept w w'.
Proof.
  intros Hrej.
  assert (Hkept : ∀ e, store_kept w (set_log (fun l => l ++ [e]) w))
    by (intros e; repeat split).
  assert (Hrefl : store_kept w w) by repeat split.
  unfold Consumer._process_message, try_except.
  destruct msg as [| |[ty|] pl]; try (eexists; split; [reflexivity|exact Hrefl]).
  - destruct (String.eqb_spec ty "message") as [->|Hne].
    + rewrite bool_decide_eq_true_2 by reflexivity. cbn [negb].
      destruct pl as [[[[objects|]|]|[objects|]]|]; try discriminate Hrej;
        try (eexists; split; [reflexivity|]; first [exact Hrefl|apply Hkept]).
    + rewrite bool_decide_eq_false_2 by congruence.
      eexists; split; [reflexivity|exact Hrefl].
Qed.

(** X11.  [_process_message] never raises.  A message of type
    ["message"] whose data decodes and deserializes is applied: its
    objects are saved, in order, and the answer is [True].  Any other
    message is answered [False] and changes nothing but the log.  In both
    cases nothing is published and the clock is not touched. *)
Theorem process_message_applies_or_ignores (msg : Consumer.message) (w : World) :
  ∃ w', Consumer._process_message msg w = (w', Ok (accepted msg))
        ∧ db w' = (if accepted msg then save_all (payload msg) (db w) else db w)
        ∧ published w' = published w
        ∧ now w' = now w
        ∧ slept w' = slept w
        ∧ settings w' = settings w.
Proof.
  destruct (accepted msg) eqn:Hacc.
  - rewrite process_accepted by exact Hacc. eexists. split; [reflexivity|].
    repeat split.
  - destruct (process_rejected msg w Hacc) as (w' & Hrun & Hs & Hn & Hdb & Hp & Hsl).
    exists w'. repeat split; assumption.
Qed.

(** ** Consumer: the listen loop *)

Lemma backoff_delays_S (delay factor : Z) (n : nat) :
  backoff_delays delay factor (S n)
  = timedelta_seconds delay :: backoff_delays (delay * factor) factor n.
Proof.
  unfold backoff_delays. cbn [seq map]. f_equal.
  - cbn. f_equal. lia.
  - rewrite <- seq_shift, map_map. apply map_ext. intros i.
    f_equal. rewrite Nat2Z.inj_succ, Z.pow_succ_r by lia. ring.
Qed.

Lemma retry_loop_schedule (fuel : nat) (process : Consumer.message → M bool)
    (msg : Consumer.message) (max_retries factor : Z) :
  (∀ m w w' r, process m w = (w', r) → slept w' = slept w) →
  ∀ (success0 : bool) (count0 delay0 : Z) (w w' : World) (success : bool) (count : Z),
    Consumer.retry_loop fuel process msg max_retries factor success0 count0 delay0 w
    = Some (w', (success, count)) →
    count0 <= count <= Z.max count0 max_retries
    ∧ (success = true ∨ max_retries <= count)
    ∧ slept w'
      = slept w
        ++ backoff_delays delay0 factor
             (Z.to_nat (Z.min count (max_retries - 1) - count0)).
Proof.
  intros Hproc.
  assert (Hstop : ∀ success0 count0 delay0 (w w' : World) success count,
            negb success0 && (count0 <? max_retries) = false →
            Some (w, (success0, count0)) = Some (w', (success, count)) →
            count0 <= count <= Z.max count0 max_retries
            ∧ (success = true ∨ max_retries <= count)
            ∧ slept w'
              = slept w
                ++ backoff_delays delay0 factor
                     (Z.to_nat (Z.min count (max_retries - 1) - count0))).
  { intros s0 c0 d0 w w' s c Hcond [= <- <- <-].
    split; [lia|]. split.
    - destruct s0; [now left|right]. cbn in Hcond. lia.
    - replace (Z.to_nat _) with 0%nat by lia.
      unfold backoff_delays. cbn. now rewrite app_nil_r. }
  induction fuel as [|fuel IH]; intros s0 c0 d0 w w' s c;
    cbn [Consumer.retry_loop];
    destruct (negb s0 && (c0 <? max_retries)) eqn:Hcond;
    try discriminate; try (now apply Hstop).
  apply andb_true_iff in Hcond as [Hs0 Hc0]. apply Z.ltb_lt in Hc0.
  destruct (process msg w) as [w1 [b|e]] eqn:Hp.
  - intros Hrun. apply IH in Hrun as (Hc & Hs & Hsl).
    rewrite (Hproc _ _ _ _ Hp) in Hsl. auto.
  - cbv zeta. destruct (Z.ltb_spec (c0 + 1) max_retries) as [Hmore|Hlast].
    + intros Hrun. apply IH in Hrun as (Hc & Hs & Hsl).
      split; [lia|]. split; [exact Hs|].
      rewrite Hsl. cbn [sleep modify fst logger slept set_now set_slept set_log].
      rewrite (Hproc _ _ _ _ Hp), <- app_assoc. f_equal.
      replace (Z.to_nat (Z.min c (max_retries - 1) - c0))
        with (S (Z.to_nat (Z.min c (max_retries - 1) - (c0 + 1)))) by lia.
      now rewrite backoff_delays_S.
    + intros Hrun. apply IH in Hrun as (Hc & Hs & Hsl).
      split; [lia|]. split; [exact Hs|].
      rewrite Hsl. cbn [fst logger modify slept set_log].
      rewrite (Hproc _ _ _ _ Hp). f_equal.
      replace (Z.to_nat (Z.min c (max_retries - 1) - (c0 + 1))) with 0%nat by lia.
      replace (Z.to_nat (Z.min c (max_retries - 1) - c0)) with 0%nat by lia.
      reflexivity.
Qed.

(** X12.  The retry loop of [_listen], around any processing function
    that does not itself sleep, with a delay and a factor that are not
    negative (so that every pause is one [time.sleep] accepts): when the
    loop is left, either the message was processed or [retry_count] has
    reached [max_retries]; the counter never exceeds [max_retries]; and
    the pauses taken are, in order, [retry_delay],
    [retry_delay * backoff_factor], [retry_delay * backoff_factor ^ 2],
    ..., one after each exception but the last allowed one. *)
Theorem retry_loop_backs_off_geometrically
    (fuel : nat) (process : Consumer.message → M bool) (msg : Consumer.message)
    (max_retries backoff_factor retry_delay : Z)
    (w w' : World) (success : bool) (retry_count : Z) :
  0 <= retry_delay →
  0 <= backoff_factor →
  (∀ m w w' r, process m w = (w', r) → slept w' = slept w) →
  Consumer.retry_loop fuel process msg max_retries backoff_factor
                      false 0 retry_delay w
  = Some (w', (success, retry_count)) →
  (success = true ∨ max_retries <= retry_count)
  ∧ 0 <= retry_count <= Z.max 0 max_retries
  ∧ slept w'
    = slept w
      ++ backoff_delays retry_delay backoff_factor
           (Z.to_nat (Z.min retry_count (max_retries - 1))).
Proof.
  intros _ _ Hproc Hrun.
  destruct (retry_loop_schedule _ _ _ _ _ Hproc _ _ _ _ _ _ _ Hrun) as (Hc & Hs & Hsl).
  rewrite Z.sub_0_r in Hsl. auto.
Qed.

Lemma retry_loop_backs_off_geometrically_witness :
  ∃ w', Consumer.retry_loop 10 (Examples.raises_first 100) Examples.address_message
          5 3 false 0 2 (Examples.world None [])
        = Some (w', (false, 5))
        ∧ slept w' = [2000000; 6000000; 18000000; 54000000].
Proof.
  destruct (Consumer.retry_loop 10 (Examples.raises_first 100) Examples.address_message
              5 3 false 0 2 (Examples.world None []))
    as [[w' [s c]]|] eqn:Hrun; [|vm_compute in Hrun; discriminate Hrun].
  assert (Hsc : (s, c) = (false, 5)).
  { apply (f_equal (fmap snd)) in Hrun. vm_compute in Hrun.
    injection Hrun as Hs Hc. now rewrite <- Hs, <- Hc. }
  injection Hsc as -> ->.
  exists w'. split; [reflexivity|].
  assert (Hproc : ∀ m w w1 r, Examples.raises_first 100 m w = (w1, r) → slept w1 = slept w).
  { intros m w w1 r. unfold Examples.raises_first.
    destruct (_ <? _)%nat; now intros [= <- _]. }
  destruct (retry_loop_backs_off_geometrically 10 (Examples.raises_first 100)
              Examples.address_message 5 3 2 (Examples.world None []) w' false 5
              ltac:(lia) ltac:(lia) Hproc Hrun)
    as (_ & _ & Hsl).
  exact Hsl.
Defined.

Lemma listen_loop_no_retries (process : Consumer.message → M bool) (fuel : nat)
    (self : Consumer.Consumer) (max_retries retry_delay backoff_factor : Z)
    (messages : list Consumer.message) (w : World) :
  Consumer.running self = true →
  max_retries <= 0 →
  ∃ w', Consumer.listen_loop fuel self process max_retries retry_delay backoff_factor
          messages w = Some w'
        ∧ log w' = log w ++ repeat (LError "Failed to process message after retries")
                                   (length messages)
        ∧ store_kept w w'.
Proof.
  intros Hrun Hmax. revert w.
  induction messages as [|msg messages IH]; intros w.
  - exists w. cbn. rewrite app_nil_r. repeat split.
  - cbn [Consumer.listen_loop]. rewrite Hrun. cbn [negb].
    assert (Hexit : Consumer.retry_loop fuel process msg max_retries backoff_factor
                      false 0 retry_delay w = Some (w, (false, 0))).
    { destruct fuel; cbn [Consumer.retry_loop negb andb];
        destruct (Z.ltb_spec 0 max_retries); try lia; reflexivity. }
    rewrite Hexit. cbn [negb andb].
    destruct (Z.leb_spec max_retries 0); [|lia].
    destruct (IH (fst (logger (LError "Failed to process message after retries") w)))
      as (w' & Hloop & Hlog & Hs & Hn & Hdb & Hp & Hsl).
    exists w'. split; [exact Hloop|]. split.
    + rewrite Hlog. cbn. now rewrite <- app_assoc.
    + repeat split; assumption.
Qed.

(** X13.  With [SYNC.max_retries] at 0 or below, a running [_listen]
    does not process anything: whatever the processing function, every
    message delivered is logged as failed and dropped, and neither the
    database, the bus nor the clock is touched. *)
Theorem listen_without_retries_drops_every_message
    (process : Consumer.message → M bool) (fuel : nat) (self : Consumer.Consumer)
    (messages : list Consumer.message) (w : World) :
  Consumer.running self = true →
  conf (settings w) SYNC SYNC_max_retries 3 <= 0 →
  ∃ w', Consumer._listen_with process fuel self messages w = Some w'
        ∧ log w' = log w ++ repeat (LError "Failed to process message after retries")
                                   (length messages)
        ∧ db w' = db w
        ∧ published w' = published w
        ∧ slept w' = slept w.
Proof.
  intros Hrun Hmax. unfold Consumer._listen_with.
  destruct (listen_loop_no_retries process fuel self _
              (conf (settings w) SYNC SYNC_retry_delay 1)
              (conf (settings w) SYNC SYNC_backoff_factor 2) messages w Hrun Hmax)
    as (w' & Hloop & Hlog & Hs & Hn & Hdb & Hp & Hsl).
  exists w'. repeat split; assumption.
Qed.

Lemma listen_without_retries_drops_every_message_witness :
  let st := Some (MkPiiShield (Some "frontend") None None
                    (Some (MkSyncConf None (Some 0) None None)) None) in
  ∃ w', Consumer._listen 0 Examples.listening
          [Examples.address_message; Examples.address_message] (Examples.world st [])
        = Some w'
        ∧ db w' = [].
Proof.
  intros st.
  destruct (listen_without_retries_drops_every_message Consumer._process_message 0
              Examples.listening [Examples.address_message; Examples.address_message]
              (Examples.world st []) eq_refl)
    as (w' & Hrun & _ & Hdb & _); [cbn; lia|].
  exists w'. split; [exact Hrun|exact Hdb].
Defined.

(** ** Consumer: life cycle *)

(** X15.  [restart] on a reachable bus, or of a consumer that is not
    running, does not raise: whatever the state of the consumer before,
    afterwards it is running exactly when the process is in ["frontend"]
    mode (the default when [MODE] is unset), and that is what [restart]
    returns; nothing but the log is written.  [restart] of a running
    consumer on an unreachable bus raises the transport error of
    [unsubscribe], which [stop] does not catch, and [start] is not
    reached. *)
Theorem restart_runs_exactly_in_frontend_mode (self : Consumer.Consumer) (w : World) :
  (bus_up w = true ∨ Consumer.running self = false →
   ∃ w' c,
     Consumer.restart self w
     = (w', Ok (c, String.eqb (mode_or (settings w) "frontend") "frontend"))
     ∧ Consumer.running c = String.eqb (mode_or (settings w) "frontend") "frontend"
     ∧ store_kept w w')
  ∧ (bus_up w = false → Consumer.running self = true →
     Consumer.restart self w = (w, Raise TransportError)).
Proof.
  unfold Consumer.restart, Consumer.stop, Consumer.pubsub_unsubscribe, Consumer.start.
  split.
  - intros Hcase.
    destruct self as [[] th chans]; cbn [Consumer.running negb] in *.
    + destruct Hcase as [Hup|?]; [|discriminate].
      unfold bind, logger, modify, get_world, ret; cbn [settings set_log fst].
      rewrite Hup. cbn [bus_up set_log settings].
      destruct (String.eqb (mode_or (settings w) "frontend") "frontend");
        cbn [negb Consumer.running]; eexists _, _;
        (split; [reflexivity|]); (split; [reflexivity|]); repeat split.
    + unfold bind, logger, modify, get_world, ret; cbn [settings set_log fst].
      destruct (String.eqb (mode_or (settings w) "frontend") "frontend");
        cbn [negb Consumer.running]; eexists _, _;
        (split; [reflexivity|]); (split; [reflexivity|]); repeat split.
  - intros Hup Hrun. rewrite Hrun. cbn [negb].
    unfold bind. now rewrite Hup.
Qed.

Lemma restart_runs_exactly_in_frontend_mode_witness :
  (∃ w' c, Consumer.restart Examples.listening (Examples.world None []) = (w', Ok (c, true))
           ∧ Consumer.running c = true)
  ∧ Consumer.restart Examples.listening Examples.offline_source
    = (Examples.offline_source, Raise TransportError).
Proof.
  split.
  - destruct (proj1 (restart_runs_exactly_in_frontend_mode Examples.listening
                       (Examples.world None [])) (or_introl eq_refl))
      as (w' & c & Hrun & Hc & _).
    exists w', c. split; [exact Hrun|exact Hc].
  - exact (proj2 (restart_runs_exactly_in_frontend_mode Examples.listening
                    Examples.offline_source) eq_refl eq_refl).
Defined.

Lemma subscribe_default_up (self : Consumer.Consumer) (w : World) :
  bus_up w = true →
  Consumer.subscribe self None w
  = (set_log (fun l => l ++ [LDebug "Subscribed to channels"]) w,
     Ok (Consumer.MkConsumer (Consumer.running self) (Consumer.thread self)
           (Consumer.add_channel (Consumer.channels self) (default_channel (settings w))),
         true)).
Proof.
  intros Hup. unfold Consumer.subscribe, try_except, bind, get_world,
    Consumer.pubsub_subscribe. rewrite Hup. reflexivity.
Qed.

Lemma subscribe_default_down (self : Consumer.Consumer) (w : World) :
  bus_up w = false →
  Consumer.subscribe self None w
  = (set_log (fun l => l ++ [LException "Error subscribing to channels" TransportError]) w,
     Ok (self, false)).
Proof.
  intros Hup. unfold Consumer.subscribe, try_except, bind, get_world,
    Consumer.pubsub_subscribe. rewrite Hup. reflexivity.
Qed.

Lemma start_frontend (self : Consumer.Consumer) (w : World) :
  mode_or (settings w) "frontend" = "frontend" →
  ∃ w', Consumer.start self w
        = (w', Ok (Consumer.MkConsumer true (Consumer.thread self || negb (Consumer.running self))
                     (Consumer.channels self),
                   negb (Consumer.running self)))
        ∧ store_kept w w' ∧ bus_up w' = bus_up w ∧ (∃ l, log w' = log w ++ l).
Proof.
  intros Hmode. unfold Consumer.start, bind, get_world. rewrite Hmode, String.eqb_refl. cbn [negb].
  destruct self as [[] th chans]; cbn [Consumer.running Consumer.thread Consumer.channels negb];
    eexists; (split; [unfold logger, modify, ret; try rewrite orb_false_r;
                      try rewrite orb_true_r; reflexivity|]);
    repeat split; eexists; reflexivity.
Qed.

Lemma ready_frontend (global : option Consumer.Consumer) (w : World) :
  mode_or (settings w) "frontend" = "frontend" →
  conf (settings w) ADVANCED ADVANCED_auto_reconnect true = true →
  Apps.ready global w
  = (subscribed <- Consumer.subscribe (Consumer.get_consumer global) None ;;
     started <- Consumer.start (fst subscribed) ;;
     ret (Some (fst started)))%py w.
Proof.
  intros Hmode Hauto.
  unfold Apps.ready. unfold bind at 1, get_world. rewrite Hmode, String.eqb_refl.
  unfold Consumer.initialize, try_except.
  unfold bind at 1, get_world. rewrite Hmode, Hauto, String.eqb_refl. cbn [negb].
  match goal with |- context [match ?m with _ => _ end] => destruct m as [w1 [a|e]] eqn:E end;
    [reflexivity|].
  exfalso.
  unfold bind in E.
  destruct (Consumer.subscribe (Consumer.get_consumer global) None w) as [w2 [s|e2]] eqn:Es.
  - destruct (bus_up w) eqn:Hup.
    + rewrite subscribe_default_up in Es by exact Hup. injection Es as <- <-.
      cbn [fst] in E.
      match type of E with
      | context [Consumer.start ?c ?w0] =>
          destruct (start_frontend c w0 Hmode) as (w3 & Hst & _)
      end.
      rewrite Hst in E. discriminate.
    + rewrite subscribe_default_down in Es by exact Hup. injection Es as <- <-.
      cbn [fst] in E.
      match type of E with
      | context [Consumer.start ?c ?w0] =>
          destruct (start_frontend c w0 Hmode) as (w3 & Hst & _)
      end.
      rewrite Hst in E. discriminate.
  - destruct (bus_up w) eqn:Hup.
    + rewrite subscribe_default_up in Es by exact Hup. discriminate.
    + rewrite subscribe_default_down in Es by exact Hup. discriminate.
Qed.

(** X16.  In a ["frontend"] process with [auto_reconnect] on (the
    default) and a reachable bus, [ready] creates the consumer, subscribes
    it to one channel and starts it; that channel is the one
    [publish_model] publishes on, under the same settings, when no channel
    is given.  A second call leaves the consumer as it is. *)
Theorem ready_subscribes_where_publish_model_publishes (w : World) :
  mode_or (settings w) "frontend" = "frontend" →
  conf (settings w) ADVANCED ADVANCED_auto_reconnect true = true →
  bus_up w = true →
  ∃ w' c,
    Apps.ready None w = (w', Ok (Some c))
    ∧ Consumer.status c = (true, [default_channel (settings w)])
    ∧ store_kept w w'
    ∧ (∀ o, ∃ wp n, Publisher.publish_model (VObj o) None w = (wp, Ok n)
                    ∧ published wp = published w ++ [(default_channel (settings w), [o])])
    ∧ (∃ w'', Apps.ready (Some c) w' = (w'', Ok (Some c))).
Proof.
  intros Hmode Hauto Hup.
  rewrite (ready_frontend None w Hmode Hauto).
  unfold bind at 1. rewrite subscribe_default_up by exact Hup. cbn [fst].
  set (w1 := set_log _ w).
  assert (Hmode1 : mode_or (settings w1) "frontend" = "frontend") by exact Hmode.
  unfold bind at 1.
  match goal with
  | |- context [Consumer.start ?c0 w1] =>
      destruct (start_frontend c0 w1 Hmode1) as (w2 & Hst & Hkept & Hup2 & _)
  end.
  rewrite Hst. cbn [fst ret].
  eexists _, _. split; [reflexivity|].
  split; [reflexivity|]. split; [|split].
  - destruct Hkept as (Hs & Hn & Hdb & Hp & Hsl). repeat split; assumption.
  - intros o. rewrite publish_model_up by exact Hup. eexists _, _.
    split; reflexivity.
  - assert (Hs2 : settings w2 = settings w) by apply Hkept.
    assert (Hmode2 : mode_or (settings w2) "frontend" = "frontend") by now rewrite Hs2.
    assert (Hauto2 : conf (settings w2) ADVANCED ADVANCED_auto_reconnect true = true)
      by now rewrite Hs2.
    rewrite (ready_frontend _ w2 Hmode2 Hauto2).
    unfold bind at 1.
    rewrite subscribe_default_up by (rewrite Hup2; exact Hup). cbn [fst].
    unfold bind at 1.
    match goal with
    | |- context [Consumer.start ?c0 ?w0] =>
        assert (Hm : mode_or (settings w0) "frontend" = "frontend") by exact Hmode2;
        destruct (start_frontend c0 w0 Hm) as (w3 & Hst3 & _)
    end.
    rewrite Hst3. cbn [fst ret].
    eexists. f_equal. f_equal. f_equal.
    cbn [Consumer.get_consumer Consumer.running Consumer.thread Consumer.channels
         Consumer.new_consumer negb orb].
    rewrite Hs2. unfold Consumer.add_channel at 2. cbn [foldl].
    unfold Consumer.add_channel.
    rewrite bool_decide_eq_true_2 by (cbn; left).
    reflexivity.
Qed.

Lemma ready_subscribes_where_publish_model_publishes_witness :
  ∃ w' c, Apps.ready None (Examples.world None []) = (w', Ok (Some c))
          ∧ Consumer.status c = (true, ["pii_shield:default"]).
Proof.
  destruct (ready_subscribes_where_publish_model_publishes (Examples.world None [])
              eq_refl eq_refl eq_refl)
    as (w' & c & Hrun & Hstatus & _).
  exists w', c. split; [exact Hrun|exact Hstatus].
Defined.

(** X17.  In a ["frontend"] process with [auto_reconnect] on, when the
    bus cannot be reached [ready] does not raise: the failure of
    [subscribe] is logged, and the consumer is started all the same,
    subscribed to nothing. *)
Theorem ready_starts_unsubscribed_when_bus_is_down (w : World) :
  mode_or (settings w) "frontend" = "frontend" →
  conf (settings w) ADVANCED ADVANCED_auto_reconnect true = true →
  bus_up w = false →
  ∃ w' c,
    Apps.ready None w = (w', Ok (Some c))
    ∧ Consumer.status c = (true, [])
    ∧ LException "Error subscribing to channels" TransportError ∈ log w'.
Proof.
  intros Hmode Hauto Hup.
  rewrite (ready_frontend None w Hmode Hauto).
  unfold bind at 1. rewrite subscribe_default_down by exact Hup. cbn [fst].
  set (w1 := set_log _ w).
  assert (Hmode1 : mode_or (settings w1) "frontend" = "frontend") by exact Hmode.
  unfold bind at 1.
  match goal with
  | |- context [Consumer.start ?c0 w1] =>
      destruct (start_frontend c0 w1 Hmode1) as (w2 & Hst & _ & _ & [l Hlog])
  end.
  rewrite Hst. cbn [fst ret].
  eexists _, _. split; [reflexivity|]. split; [reflexivity|].
  rewrite Hlog. apply elem_of_app. left. subst w1. cbn [log set_log].
  apply elem_of_app. right. left.
Qed.

Lemma ready_starts_unsubscribed_when_bus_is_down_witness :
  let w := MkWorld None Examples.t0 [] false 0 [] [] [] [] [] [] ∅ in
  ∃ w' c, Apps.ready None w = (w', Ok (Some c)) ∧ Consumer.status c = (true, []).
Proof.
  intros w.
  destruct (ready_starts_unsubscribed_when_bus_is_down w eq_refl eq_refl eq_refl)
    as (w' & c & Hrun & Hstatus & _).
  exists w', c. split; [exact Hrun|exact Hstatus].
Defined.

(** ** Request gate: the freshness check *)

Lemma check_pii_data_source_tree
    (self : Middleware.PIIShieldMiddleware) (request : Middleware.Request) (w : World) :
  Middleware._check_pii_data Middleware.publisher_py self request w
  = (set_log (fun l => l ++ [LException "Error checking PII data"
                                        (ImportError "get_registered_models")]) w,
     Ok false).
Proof. reflexivity. Qed.

Lemma urlconf_kept_monotone : monotone (fun w w' => urlconf w' = urlconf w).
Proof. split; cbn; congruence. Qed.

(** X19.  In the source tree, where [sync/publisher.py] binds no
    [get_registered_models], the import at the head of [_check_pii_data]
    fails on every call, and the check answers [False] whatever the
    registry and the database hold.  So the gate never finds fresh data:
    for every authenticated request on a path that is not excluded, whose
    session object has no attribute [pii_sync_in_progress], in a process
    whose URLconf resolves the waiting view (if one is configured),
    [process_request] calls [sync_data] on the user of the request and
    answers with the redirect to the waiting view, when one is configured;
    the URLconf is untouched, so the view resolves when the redirect is
    built. *)
Theorem gate_in_the_source_tree_syncs_on_every_request
    (self : Middleware.PIIShieldMiddleware) (request : Middleware.Request) (w : World) :
  Middleware.user_is_authenticated request = true →
  existsb (fun p => String.prefix p (Middleware.path request))
          (conf (Middleware.pii_settings self) ADVANCED ADVANCED_excluded_paths [])
  = false →
  truthy (Middleware.session_getattr request "pii_sync_in_progress" (VBool false)) = false →
  (∀ waiting_view,
     conf_opt (Middleware.pii_settings self) ADVANCED ADVANCED_waiting_view
     = Some waiting_view →
     truthy (VStr waiting_view) = true →
     is_Some (urlconf w !! waiting_view)) →
  snd (Middleware._check_pii_data Middleware.publisher_py self request w) = Ok false
  ∧ ∃ w' request' l,
      Middleware.process_request Middleware.publisher_py self request w
      = (w', Ok (request',
                 match conf_opt (Middleware.pii_settings self)
                                ADVANCED ADVANCED_waiting_view with
                 | Some waiting_view =>
                     if truthy (VStr waiting_view)
                     then Some (Middleware.HttpResponseRedirect waiting_view)
                     else None
                 | None => None
                 end))
      ∧ calls w' = calls w ++ (Middleware.user request, 1%nat) :: l
      ∧ urlconf w' = urlconf w.
Proof.
  intros Hauth Hexcl Hattr _. split; [reflexivity|].
  unfold Middleware.process_request.
  rewrite Hauth. cbn [negb]. rewrite Hexcl, Hattr.
  unfold bind at 1. rewrite check_pii_data_source_tree. cbn [negb].
  set (w1 := set_log _ w).
  assert (Hsync : ∃ w2 request' l,
            Middleware._initiate_sync Middleware.publisher_py request w1
            = (w2, Ok request')
            ∧ calls w2 = calls w ++ (Middleware.user request, 1%nat) :: l
            ∧ urlconf w2 = urlconf w).
  { unfold Middleware._initiate_sync, try_except, Middleware.import_from.
    rewrite bool_decide_eq_true_2 by (do 9 right; left).
    unfold bind at 1. cbn [ret]. unfold bind at 1.
    cbn [Middleware.user Middleware.set_item].
    destruct (Publisher.sync_data (Middleware.user request) _ false 1 w1)
      as [w2 [b|e]] eqn:Hs;
      pose proof (mono_sync_data_at _ urlconf_kept_monotone _ _ _ _ _ _ _ Hs) as Hurl;
      apply sync_data_at_trace in Hs as [l Hl];
      eexists _, _, l; (split; [reflexivity|split; [exact Hl|exact Hurl]]). }
  destruct Hsync as (w2 & request' & l & Hsync & Hcalls & Hurl).
  unfold bind at 1. rewrite Hsync.
  destruct (conf_opt _ _ _) as [wv|]; [destruct (truthy (VStr wv))|];
    eexists _, _, l; (split; [reflexivity|split; [exact Hcalls|exact Hurl]]).
Qed.

Lemma gate_in_the_source_tree_syncs_on_every_request_witness :
  let w := Examples.world Examples.gate_settings Examples.fresh_rows in
  Middleware.check_models (registry w) (VStr "s1") (now w + timedelta_seconds 300) (db w)
  = true
  ∧ urlconf w !! "waiting" = Some "/waiting/"
  ∧ ∃ w' request' l,
      Middleware.process_request Middleware.publisher_py Examples.gate
        (Examples.request_to "/account/" Examples.fresh_session) w
      = (w', Ok (request', Some (Middleware.HttpResponseRedirect "waiting")))
      ∧ calls w' = (VObj Examples.alice, 1%nat) :: l
      ∧ urlconf w' = urlconf w.
Proof.
  intros w. split; [vm_compute; reflexivity|]. split; [reflexivity|].
  apply (gate_in_the_source_tree_syncs_on_every_request Examples.gate
           (Examples.request_to "/account/" Examples.fresh_session) w
           eq_refl eq_refl eq_refl).
  intros wv [= <-] _. now exists "/waiting/".
Defined.

(** ** Request gate: what it never does *)

(** X21.  When no waiting view is configured (the setting is missing or
    empty) [process_request] never raises and never answers with a
    redirect: every request proceeds to the view, whatever the session,
    the database and the namespace the imports resolve in. *)
Theorem gate_without_waiting_view_never_redirects
    (ns : list string) (self : Middleware.PIIShieldMiddleware)
    (request : Middleware.Request) (w : World) :
  conf (Middleware.pii_settings self) ADVANCED ADVANCED_waiting_view "" = "" →
  ∃ w' request',
    Middleware.process_request ns self request w = (w', Ok (request', None)).
Proof.
  intros Hview.
  assert (Hnone : ∀ (A : Type) (a : string → A) (b : A),
            match conf_opt (Middleware.pii_settings self) ADVANCED ADVANCED_waiting_view with
            | Some waiting_view => if truthy (VStr waiting_view) then a waiting_view else b
            | None => b
            end = b).
  { intros A a b. unfold conf in Hview.
    destruct (conf_opt _ _ _) as [v|]; [|reflexivity].
    subst v. reflexivity. }
  unfold Middleware.process_request.
  destruct (negb _); [now eexists _, _|].
  destruct (existsb _ _); [now eexists _, _|].
  destruct (truthy _).
  - rewrite (Hnone _ (fun waiting_view =>
                        (target <- Middleware.reverse waiting_view ;;
                         if negb (String.eqb (Middleware.path request) target)
                         then ret (Middleware.defer self request waiting_view)
                         else ret (request, None))%py)).
    now eexists _, _.
  - destruct (check_pii_data_outcome ns self request w) as (w1 & fresh & Hcheck & _).
    unfold bind at 1. rewrite Hcheck.
    destruct fresh; cbn [negb]; [now eexists _, _|].
    destruct (initiate_sync_outcome ns request w1) as (w2 & request' & Hsync & _).
    unfold bind at 1. rewrite Hsync.
    rewrite (Hnone _ (fun waiting_view => ret (Middleware.defer self request' waiting_view))).
    now eexists _, _.
Qed.

Lemma gate_without_waiting_view_never_redirects_witness :
  ∃ w' request',
    Middleware.process_request Middleware.publisher_py (Middleware.MkMiddleware None)
      (Examples.request_to "/account/" Examples.fresh_session) (Examples.world None [])
    = (w', Ok (request', None)).
Proof.
  exact (gate_without_waiting_view_never_redirects Middleware.publisher_py
           (Middleware.MkMiddleware None)
           (Examples.request_to "/account/" Examples.fresh_session)
           (Examples.world None []) eq_refl).
Defined.

Lemma store_kept_refl (w : World) : store_kept w w.
Proof. repeat split. Qed.

Lemma store_kept_trans (w1 w2 w3 : World) :
  store_kept w1 w2 → store_kept w2 w3 → store_kept w1 w3.
Proof.
  intros (H1 & H2 & H3 & H4 & H5) (G1 & G2 & G3 & G4 & G5).
  repeat split; congruence.
Qed.

Lemma store_kept_logged (w : World) (e : LogEntry) :
  store_kept w (set_log (fun l => l ++ [e]) w).
Proof. repeat split. Qed.

Lemma check_pii_data_keeps_store ns self request :
  preserves store_kept (Middleware._check_pii_data ns self request).
Proof.
  intros w w' r. unfold Middleware._check_pii_data, try_except, Middleware.import_from.
  destruct (bool_decide _).
  - unfold bind at 1. cbn [ret]. unfold bind at 1, Sync.get_registered_models.
    unfold bind at 1, get_world. cbn [ret].
    destruct (registry w); intros [= <- _]; apply store_kept_refl.
  - intros [= <- _]. apply store_kept_logged.
Qed.

Lemma initiate_sync_refused (ns : list string) (request : Middleware.Request) (w : World) :
  mode_or (settings w) "backend" ≠ "backend" →
  ∃ w' request', Middleware._initiate_sync ns request w = (w', Ok request')
                 ∧ store_kept w w'.
Proof.
  intros Hmode. unfold Middleware._initiate_sync, try_except, Middleware.import_from.
  destruct (bool_decide _).
  - unfold bind at 1. cbn [ret]. unfold bind at 1, Publisher.sync_data.
    rewrite sync_data_at_refuses by exact Hmode.
    eexists _, _. split; [reflexivity|]. repeat split.
  - eexists _, _. split; [reflexivity|]. apply store_kept_logged.
Qed.

(** X22.  In a process whose [MODE] is set and is not ["backend"],
    [process_request] is read-only towards the store and the bus: however
    the call ends, the database, the published messages, the settings and
    the clock are as before. *)
Theorem gate_outside_backend_writes_nothing
    (ns : list string) (self : Middleware.PIIShieldMiddleware)
    (request : Middleware.Request) (w w' : World)
    (r : result (Middleware.Request * option Middleware.Response)) :
  mode_or (settings w) "backend" ≠ "backend" →
  Middleware.process_request ns self request w = (w', r) →
  db w' = db w ∧ published w' = published w
  ∧ settings w' = settings w ∧ now w' = now w.
Proof.
  intros Hmode Hrun.
  enough (Hkept : store_kept w w') by (destruct Hkept as (? & ? & ? & ? & ?); auto).
  revert Hrun. unfold Middleware.process_request.
  destruct (negb _); [intros [= <- _]; apply store_kept_refl|].
  destruct (existsb _ _); [intros [= <- _]; apply store_kept_refl|].
  destruct (truthy _).
  - destruct (conf_opt _ _ _) as [v|]; [|intros [= <- _]; apply store_kept_refl].
    destruct (truthy (VStr v)); [|intros [= <- _]; apply store_kept_refl].
    unfold bind, Middleware.reverse, bind, get_world.
    destruct (urlconf w !! v); cbn [ret raise].
    + destruct (negb _); intros [= <- _]; apply store_kept_refl.
    + intros [= <- _]. apply store_kept_refl.
  - unfold bind at 1.
    destruct (Middleware._check_pii_data ns self request w) as [w1 [fresh|e]] eqn:Hcheck;
      pose proof (check_pii_data_keeps_store _ _ _ _ _ _ Hcheck) as Hk1;
      [|intros [= <- _]; exact Hk1].
    destruct fresh; cbn [negb]; [intros [= <- _]; exact Hk1|].
    assert (Hmode1 : mode_or (settings w1) "backend" ≠ "backend")
      by (destruct Hk1 as (-> & _); exact Hmode).
    destruct (initiate_sync_refused ns request w1 Hmode1) as (w2 & request' & Hsync & Hk2).
    unfold bind at 1. rewrite Hsync.
    destruct (conf_opt _ _ _) as [v|];
      [destruct (truthy (VStr v))|]; intros [= <- _];
      eapply store_kept_trans; eassumption.
Qed.

Lemma gate_outside_backend_writes_nothing_witness :
  let w := Examples.world Examples.gate_settings [] in
  let run := Middleware.process_request Middleware.publisher_py Examples.gate
               (Examples.request_to "/account/" Examples.fresh_session) w in
  db (fst run) = [] ∧ published (fst run) = [].
Proof.
  intros w run.
  destruct run as [w' r] eqn:Hrun.
  destruct (gate_outside_backend_writes_nothing _ _ _ w w' r
              ltac:(discriminate) Hrun) as (Hdb & Hpub & _).
  split; [exact Hdb|exact Hpub].
Defined.

(** X23.  In a process whose [MODE] is set and is not ["backend"],
    [_initiate_sync] cannot start a synchronization: [sync_data] refuses
    with a warning, nothing is saved or published, and yet the session is
    marked as having a sync in progress. *)
Theorem initiate_sync_outside_backend_only_marks_the_session
    (ns : list string) (request : Middleware.Request) (w : World) :
  "sync_data" ∈ ns →
  mode_or (settings w) "backend" ≠ "backend" →
  ∃ w',
    Middleware._initiate_sync ns request w
    = (w', Ok (Middleware.set_item request "pii_sync_in_progress" (VBool true)))
    ∧ db w' = db w
    ∧ published w' = published w
    ∧ log w' = log w ++ [LWarning "sync_data should only be called in backend mode!"].
Proof.
  intros Hns Hmode.
  unfold Middleware._initiate_sync, try_except, Middleware.import_from.
  rewrite bool_decide_eq_true_2 by exact Hns.
  unfold bind at 1. cbn [ret]. unfold bind at 1, Publisher.sync_data.
  rewrite sync_data_at_refuses by exact Hmode.
  eexists. split; [reflexivity|]. repeat split.
Qed.

Lemma initiate_sync_outside_backend_only_marks_the_session_witness :
  ∃ w',
    Middleware._initiate_sync Middleware.publisher_py
      (Examples.request_to "/account/" Examples.fresh_session)
      (Examples.world Examples.gate_settings [])
    = (w', Ok (Examples.request_to "/account/" Examples.marked_session))
    ∧ published w' = [].
Proof.
  destruct (initiate_sync_outside_backend_only_marks_the_session Middleware.publisher_py
              (Examples.request_to "/account/" Examples.fresh_session)
              (Examples.world Examples.gate_settings []))
    as (w' & Hrun & _ & Hpub & _).
  - do 9 right. left.
  - discriminate.
  - exists w'. split; [exact Hrun|exact Hpub].
Defined.

(** ** Cleanup sweeper: what a run deletes *)

Lemma paused_now (opts : Cleanup.Options) (w : World) : now w <= now (paused opts w).
Proof.
  unfold paused. destruct (Z.ltb_spec 0 (Cleanup.sleep_time opts)); cbn; lia.
Qed.

Lemma unique_keys_incl (rows rows' : list instance) :
  (∀ x, In x rows' → In x rows) → unique_keys rows → unique_keys rows'.
Proof. intros Hincl Hu r r' Hr Hr'. apply Hu; auto. Qed.

Lemma no_expired_of_count (model : PyClass) (w : World) :
  expired_count model w = 0 →
  ∀ x, In x (db w) → Cleanup.expired_row model (now w) x = false.
Proof.
  unfold expired_count. intros Hcount x Hx. apply not_true_is_false. intros Hexp.
  assert (Hin : In x (List.filter (Cleanup.expired_row model (now w)) (db w)))
    by now apply filter_In.
  destruct (List.filter _ (db w)); [destruct Hin|cbn in Hcount; lia].
Qed.

(** A row selected by the ids of the batch is a row of the batch. *)
Lemma id_in_expired (model : PyClass) (batch_size : Z) (w : World) (x : instance) :
  unique_keys (db w) →
  In x (db w) →
  Cleanup.id_in model (map obj_pk (Cleanup.expired_batch model batch_size w)) x = true →
  Cleanup.expired_row model (now w) x = true.
Proof.
  intros Huniq Hx [Hname Hpk]%andb_true_iff.
  apply bool_decide_eq_true in Hpk.
  apply list_elem_of_In, in_map_iff in Hpk as (r' & Hpk & Hr').
  apply expired_batch_in_db in Hr' as [Hin' Hexp'].
  assert (x = r') as ->; [|exact Hexp'].
  apply Huniq; [assumption..|]. apply same_row_spec. split; [|now symmetry].
  apply String.eqb_eq in Hname. rewrite Hname.
  unfold Cleanup.expired_row in Hexp'.
  apply andb_true_iff in Hexp' as [Hn' _]. now apply String.eqb_eq in Hn'.
Qed.

(** A batch that is not full holds every expired row, so none is left
    once the rows with its ids are gone. *)
Lemma short_batch_takes_all (model : PyClass) (batch_size : Z) (w : World) (x : instance) :
  Z.of_nat (length (Cleanup.expired_batch model batch_size w)) < batch_size →
  In x (db w) →
  Cleanup.id_in model (map obj_pk (Cleanup.expired_batch model batch_size w)) x = false →
  Cleanup.expired_row model (now w) x = false.
Proof.
  intros Hshort Hx Hid. apply not_true_is_false. intros Hexp.
  rewrite expired_batch_length in Hshort.
  assert (Hsmall : expired_count model w <= batch_size) by lia.
  assert (Hin : In x (Cleanup.expired_batch model batch_size w))
    by now apply expired_batch_all.
  assert (Cleanup.id_in model (map obj_pk (Cleanup.expired_batch model batch_size w)) x
          = true); [|congruence].
  unfold Cleanup.id_in. apply andb_true_iff. split.
  - unfold Cleanup.expired_row in Hexp. now apply andb_true_iff in Hexp as [? _].
  - apply bool_decide_eq_true, list_elem_of_In, in_map, Hin.
Qed.

Lemma model_loop_dry (fuel : nat) (opts : Cleanup.Options) (model : PyClass) :
  Cleanup.dry_run opts = true →
  ∀ md td out w w' r,
    Cleanup.model_loop fuel opts model md td out w = Some (w', r) → db w' = db w.
Proof.
  intros Hdry. induction fuel as [|fuel IH]; intros md td out w w' r; [discriminate|].
  rewrite model_loop_step. cbv zeta.
  destruct (_ <? 0); [now intros [= <- _]|].
  destruct (_ =? 0); [now intros [= <- _]|].
  rewrite Hdry. cbn [negb].
  destruct (_ <? Cleanup.batch_size opts).
  - intros [= <- _]. apply paused_db.
  - intros Hrun. apply IH in Hrun. now rewrite Hrun, paused_db.
Qed.

Lemma models_loop_dry (fuel : nat) (opts : Cleanup.Options) (models : list PyClass) :
  Cleanup.dry_run opts = true →
  ∀ td out w w' r,
    Cleanup.models_loop fuel opts models td out w = Some (w', r) → db w' = db w.
Proof.
  intros Hdry. induction models as [|m models IH]; intros td out w w' r;
    cbn [Cleanup.models_loop]; [now intros [= <- _]|].
  destruct (Cleanup.model_loop _ _ _ _ _ _ _) as [[w1 [[[md td1] out1]|e]]|] eqn:Hm;
    [| |discriminate]; pose proof (model_loop_dry _ _ _ Hdry _ _ _ _ _ _ Hm) as Hdb.
  - intros Hrun. apply IH in Hrun. congruence.
  - now intros [= <- _].
Qed.

Lemma dry_run_never_deletes_aux
    (fuel : nat) (opts : Cleanup.Options) (w w' : World)
    (r : result (Z * list Cleanup.Out)) :
  Cleanup.dry_run opts = true →
  Cleanup.handle fuel opts w = Some (w', r) →
  db w' = db w.
Proof.
  intros Hdry. unfold Cleanup.handle.
  destruct (if Cleanup.force opts then _ else _) as [|m models];
    [now intros [= <- _]|].
  destruct (Cleanup.models_loop _ _ _ _ _ _) as [[w1 [[td out]|e]]|] eqn:Hloop;
    [| |discriminate]; intros [= <- _];
    exact (models_loop_dry _ _ _ Hdry _ _ _ _ _ Hloop).
Qed.

(** X24.  A dry run deletes nothing: however [handle] ends, the
    database is as it was. *)
Theorem dry_run_never_deletes
    (fuel : nat) (opts : Cleanup.Options) (w w' : World)
    (r : result (Z * list Cleanup.Out)) :
  Cleanup.dry_run opts = true →
  Cleanup.handle fuel opts w = Some (w', r) →
  db w' = db w.
Proof.
  apply dry_run_never_deletes_aux.
Qed.

Lemma dry_run_never_deletes_witness :
  ∃ w' r, Cleanup.handle 5 (Cleanup.MkOptions 1000 500000 false true) Examples.sweep_world
          = Some (w', r)
          ∧ db w' = [Examples.lapsed; Examples.current].
Proof.
  destruct (Cleanup.handle 5 (Cleanup.MkOptions 1000 500000 false true) Examples.sweep_world)
    as [[w' r]|] eqn:Hrun; [|vm_compute in Hrun; discriminate Hrun].
  exists w', r. split; [reflexivity|].
  exact (dry_run_never_deletes 5 (Cleanup.MkOptions 1000 500000 false true) _ _ _
           eq_refl Hrun).
Defined.

(** One model, real run: what the loop leaves. *)
Lemma model_loop_real (fuel : nat) (opts : Cleanup.Options) (model : PyClass) :
  Cleanup.dry_run opts = false →
  ∀ md td out w w' r,
    Cleanup.model_loop fuel opts model md td out w = Some (w', r) →
    (∀ x, In x (db w') → In x (db w))
    ∧ (length (db w') <= length (db w))%nat
    ∧ now w <= now w'
    ∧ (unique_keys (db w) →
       ∀ x, In x (db w) → ¬ In x (db w') → Cleanup.expired_row model (now w') x = true)
    ∧ match r with
      | Ok (_, td', _) =>
          td' - td = Z.of_nat (length (db w)) - Z.of_nat (length (db w'))
          ∧ (0 < Cleanup.batch_size opts →
             ∀ x, In x (db w') → Cleanup.expired_row model (now w) x = false)
      | Raise _ => True
      end.
Proof.
  intros Hreal. induction fuel as [|fuel IH]; intros md td out w w' r; [discriminate|].
  rewrite model_loop_step. cbv zeta.
  destruct (_ <? 0).
  { intros [= <- <-]. repeat split; auto; try lia.
    all: try (intros _ x Hx Hnx; now destruct Hnx). }
  destruct (Z.eqb_spec (Z.of_nat (length (Cleanup.expired_batch model
                                            (Cleanup.batch_size opts) w))) 0) as [Hzero|Hsome].
  { intros [= <- <-]. repeat split; auto; try lia.
    all: try (intros _ x Hx Hnx; now destruct Hnx).
    intros Hpos. apply no_expired_of_count.
    rewrite expired_batch_length in Hzero. lia. }
  rewrite Hreal. cbn [negb].
  set (ids := map obj_pk (Cleanup.expired_batch model (Cleanup.batch_size opts) w)).
  set (w2 := paused opts (set_db (List.filter (fun r => negb (Cleanup.id_in model ids r))) w)).
  assert (Hdb2 : db w2 = List.filter (fun r => negb (Cleanup.id_in model ids r)) (db w))
    by (unfold w2; now rewrite paused_db).
  assert (Hnow2 : now w <= now w2) by (unfold w2; apply (paused_now opts (set_db _ w))).
  assert (Hincl2 : ∀ x, In x (db w2) → In x (db w))
    by (intros x; rewrite Hdb2; now intros [? _]%filter_In).
  assert (Hlen2 : Z.of_nat (length (List.filter (Cleanup.id_in model ids) (db w)))
                  = Z.of_nat (length (db w)) - Z.of_nat (length (db w2))).
  { rewrite Hdb2. pose proof (filter_length (Cleanup.id_in model ids) (db w)). lia. }
  assert (Hgone2 : unique_keys (db w) → ∀ x, In x (db w) →
            Cleanup.id_in model ids x = true → Cleanup.expired_row model (now w) x = true)
    by (intros Hu x Hx Hid; now apply (id_in_expired model (Cleanup.batch_size opts))).
  assert (Hstay2 : ∀ x, In x (db w) → Cleanup.id_in model ids x = false → In x (db w2))
    by (intros x Hx Hid; rewrite Hdb2; apply filter_In; now rewrite Hid).
  destruct (Z.ltb_spec (Z.of_nat (length (Cleanup.expired_batch model
                                            (Cleanup.batch_size opts) w)))
                       (Cleanup.batch_size opts)) as [Hshort|Hfull].
  - intros [= <- <-]. split; [exact Hincl2|]. split; [lia|]. split; [exact Hnow2|].
    split; [|split].
    + intros Hu x Hx Hnx.
      destruct (Cleanup.id_in model ids x) eqn:Hid; [|now destruct Hnx; apply Hstay2].
      eapply expired_row_mono; [exact Hnow2|now apply Hgone2].
    + lia.
    + intros _ x Hx. rewrite Hdb2 in Hx. apply filter_In in Hx as [Hx Hid].
      apply negb_true_iff in Hid.
      now apply (short_batch_takes_all model (Cleanup.batch_size opts)).
  - intros Hrun. apply IH in Hrun as (Hincl & Hlen & Hnow & Hgone & Hres).
    split; [auto|]. split; [lia|]. split; [lia|]. split.
    + intros Hu x Hx Hnx.
      destruct (Cleanup.id_in model ids x) eqn:Hid.
      * eapply expired_row_mono; [|now apply Hgone2]. lia.
      * apply Hgone; [|now apply Hstay2|exact Hnx].
        eapply unique_keys_incl; [exact Hincl2|exact Hu].
    + destruct r as [[[md' td'] out']|e]; [|exact I].
      destruct Hres as [Htd Hnone]. split; [lia|].
      intros Hpos x Hx. apply not_true_is_false. intros Hexp.
      specialize (Hnone Hpos x Hx).
      rewrite (expired_row_mono _ _ _ _ Hnow2 Hexp) in Hnone. discriminate.
Qed.

(** The models swept so far, real run. *)
Lemma models_loop_real (fuel : nat) (opts : Cleanup.Options) (models : list PyClass) :
  Cleanup.dry_run opts = false →
  ∀ td out w w' r,
    Cleanup.models_loop fuel opts models td out w = Some (w', r) →
    (∀ x, In x (db w') → In x (db w))
    ∧ now w <= now w'
    ∧ (unique_keys (db w) →
       ∀ x, In x (db w) → ¬ In x (db w') →
            ∃ m, In m models ∧ Cleanup.expired_row m (now w') x = true)
    ∧ match r with
      | Ok (td', _) =>
          td' - td = Z.of_nat (length (db w)) - Z.of_nat (length (db w'))
          ∧ (0 < Cleanup.batch_size opts →
             ∀ m x, In m models → In x (db w') → Cleanup.expired_row m (now w) x = false)
      | Raise _ => True
      end.
Proof.
  intros Hreal. induction models as [|m models IH]; intros td out w w' r;
    cbn [Cleanup.models_loop].
  { intros [= <- <-]. repeat split; auto; try lia.
    all: try (intros _ x Hx Hnx; now destruct Hnx).
    all: try (intros _ m x []). }
  destruct (Cleanup.model_loop _ _ _ _ _ _ _) as [[w1 [[[md td1] out1]|e]]|] eqn:Hm;
    [| |discriminate];
    destruct (model_loop_real _ _ _ Hreal _ _ _ _ _ _ Hm)
      as (Hincl1 & Hlen1 & Hnow1 & Hgone1 & Hres1).
  - destruct Hres1 as [Htd1 Hnone1].
    intros Hrun. apply IH in Hrun as (Hincl & Hnow & Hgone & Hres).
    split; [auto|]. split; [lia|]. split.
    + intros Hu x Hx Hnx.
      destruct (Cleanup.expired_row m (now w') x) eqn:Hexp;
        [exists m; split; [now left|exact Hexp]|].
      assert (Hx1 : ¬ ¬ In x (db w1)).
      { intros Hnx1. specialize (Hgone1 Hu x Hx Hnx1).
        rewrite (expired_row_mono _ _ _ _ Hnow Hgone1) in Hexp. discriminate. }
      assert (Hkeys1 : unique_keys (db w1)) by (eapply unique_keys_incl; eassumption).
      assert (Hex : ¬ ¬ ∃ m', In m' models ∧ Cleanup.expired_row m' (now w') x = true).
      { intros Hno. apply Hx1. intros Hx1'. apply Hno. now apply Hgone. }
      assert (Hdec : ∀ ms, (∃ m', In m' ms ∧ Cleanup.expired_row m' (now w') x = true)
                           ∨ ¬ (∃ m', In m' ms ∧ Cleanup.expired_row m' (now w') x = true)).
      { induction ms as [|m0 ms IHms].
        - right. now intros (m' & [] & _).
        - destruct (Cleanup.expired_row m0 (now w') x) eqn:E0.
          + left. exists m0. split; [now left|exact E0].
          + destruct IHms as [(m' & Hm' & E')|Hno].
            * left. exists m'. split; [now right|exact E'].
            * right. intros (m' & [<-|Hm'] & E'); [congruence|].
              apply Hno. now exists m'. }
      destruct (Hdec models) as [(m' & Hm' & E')|Hno]; [|now destruct Hex].
      exists m'. split; [now right|exact E'].
    + destruct r as [[td' out']|e]; [|exact I].
      destruct Hres as [Htd Hnone]. split; [lia|].
      intros Hpos m' x [<-|Hm'] Hx.
      * apply Hnone1; auto.
      * apply not_true_is_false. intros Hexp.
        specialize (Hnone Hpos m' x Hm' Hx).
        rewrite (expired_row_mono _ _ _ _ Hnow1 Hexp) in Hnone. discriminate.
  - intros [= <- <-]. split; [auto|]. split; [lia|]. split; [|exact I].
    intros Hu x Hx Hnx. exists m. split; [now left|]. now apply Hgone1.
Qed.

Lemma handle_real (fuel : nat) (opts : Cleanup.Options) (w w' : World)
    (r : result (Z * list Cleanup.Out)) :
  Cleanup.dry_run opts = false →
  Cleanup.handle fuel opts w = Some (w', r) →
  (∀ x, In x (db w') → In x (db w))
  ∧ now w <= now w'
  ∧ (unique_keys (db w) →
     ∀ x, In x (db w) → ¬ In x (db w') →
          ∃ m, In m (swept_models opts w) ∧ Cleanup.expired_row m (now w') x = true)
  ∧ match r with
    | Ok (total_deleted, _) =>
        total_deleted = Z.of_nat (length (db w)) - Z.of_nat (length (db w'))
        ∧ (0 < Cleanup.batch_size opts →
           ∀ m x, In m (swept_models opts w) → In x (db w') →
                  Cleanup.expired_row m (now w) x = false)
    | Raise _ => True
    end.
Proof.
  intros Hreal. unfold Cleanup.handle. fold (swept_models opts w).
  destruct (swept_models opts w) as [|m models] eqn:Hmodels.
  { intros [= <- <-]. repeat split; auto; try lia.
    all: try (intros _ x Hx Hnx; now destruct Hnx).
    all: try (intros _ m x []). }
  destruct (Cleanup.models_loop _ _ _ _ _ _) as [[w1 [[td out]|e]]|] eqn:Hloop;
    [| |discriminate]; intros [= <- <-];
    destruct (models_loop_real _ _ _ Hreal _ _ _ _ _ Hloop) as (Hincl & Hnow & Hgone & Hres).
  - destruct Hres as [Htd Hnone]. repeat split; auto. lia.
  - repeat split; auto.
Qed.

(** X25.  The number a real run reports is the number of rows it
    removed, and it adds no row: every row of the table after the run was
    there before.  (The table is flat: a delete removes the rows it
    selects and no row related to them.) *)
Theorem sweep_reports_the_rows_it_removed
    (fuel : nat) (opts : Cleanup.Options) (w w' : World)
    (total_deleted : Z) (out : list Cleanup.Out) :
  Cleanup.dry_run opts = false →
  Cleanup.handle fuel opts w = Some (w', Ok (total_deleted, out)) →
  total_deleted = Z.of_nat (length (db w)) - Z.of_nat (length (db w'))
  ∧ (∀ x, In x (db w') → In x (db w))
  ∧ last out = Some (if decide (swept_models opts w = [])
                     then Cleanup.OutNoModels else Cleanup.OutSuccess total_deleted).
Proof.
  intros Hreal Hrun.
  destruct (handle_real _ _ _ _ _ Hreal Hrun) as (Hincl & _ & _ & Htd & _).
  split; [exact Htd|]. split; [exact Hincl|].
  unfold Cleanup.handle in Hrun. fold (swept_models opts w) in Hrun.
  destruct (swept_models opts w) as [|m models].
  - injection Hrun as _ _ <-. reflexivity.
  - destruct (Cleanup.models_loop _ _ _ _ _ _) as [[w1 [[td o]|e]]|]; try discriminate.
    injection Hrun as _ <- <-. rewrite last_snoc.
    now destruct (decide _).
Qed.

Lemma sweep_reports_the_rows_it_removed_witness :
  ∃ w' out, Cleanup.handle 5 (Cleanup.MkOptions 1000 500000 false false) Examples.sweep_world
            = Some (w', Ok (1, out))
            ∧ length (db w') = 1%nat.
Proof.
  destruct (Cleanup.handle 5 (Cleanup.MkOptions 1000 500000 false false) Examples.sweep_world)
    as [[w' [[td out]|e]]|] eqn:Hrun;
    [|vm_compute in Hrun; discriminate Hrun|vm_compute in Hrun; discriminate Hrun].
  assert (Htd : td = 1).
  { apply (f_equal (fmap (fun p => match snd p with Ok (n, _) => n | Raise _ => 0 end)))
      in Hrun. vm_compute in Hrun. now injection Hrun as <-. }
  subst td. exists w', out. split; [reflexivity|].
  destruct (sweep_reports_the_rows_it_removed 5 (Cleanup.MkOptions 1000 500000 false false)
              _ _ _ _ eq_refl Hrun) as (Hn & _).
  cbn in Hn. lia.
Defined.

(** X26.  The deletes of [handle] select only expired rows of the
    models it sweeps: on a table without duplicate keys, every row that is
    gone after the run is a row of a swept model whose expiry lies before
    the clock at the end of the run.  Rows of other models, rows without
    expiry and rows that have not expired are not selected. *)
Theorem sweep_removes_only_expired_rows
    (fuel : nat) (opts : Cleanup.Options) (w w' : World)
    (r : result (Z * list Cleanup.Out)) (x : instance) :
  unique_keys (db w) →
  Cleanup.handle fuel opts w = Some (w', r) →
  In x (db w) →
  ¬ In x (db w') →
  ∃ m, In m (swept_models opts w) ∧ Cleanup.expired_row m (now w') x = true.
Proof.
  intros Hu Hrun Hx Hnx.
  destruct (Cleanup.dry_run opts) eqn:Hdry.
  - rewrite (dry_run_never_deletes_aux fuel opts w w' r Hdry Hrun) in Hnx.
    now destruct Hnx.
  - destruct (handle_real _ _ _ _ _ Hdry Hrun) as (_ & _ & Hgone & _).
    now apply Hgone.
Qed.

Lemma sweep_removes_only_expired_rows_witness :
  ∃ w' r, Cleanup.handle 5 (Cleanup.MkOptions 1000 500000 false false) Examples.sweep_world
          = Some (w', r)
          ∧ ¬ In Examples.lapsed (db w')
          ∧ Cleanup.expired_row Examples.Address (now w') Examples.lapsed = true.
Proof.
  destruct (Cleanup.handle 5 (Cleanup.MkOptions 1000 500000 false false) Examples.sweep_world)
    as [[w' r]|] eqn:Hrun; [|vm_compute in Hrun; discriminate Hrun].
  assert (Hdb : db w' = [Examples.current]).
  { apply (f_equal (fmap (fun p => db (fst p)))) in Hrun. vm_compute in Hrun.
    injection Hrun as Hrun. symmetry. exact Hrun. }
  assert (Hgone : ¬ In Examples.lapsed (db w')).
  { rewrite Hdb. intros [H|[]]. apply (f_equal obj_pk) in H. discriminate H. }
  assert (Hu : unique_keys (db Examples.sweep_world)).
  { intros a b [<-|[<-|[]]] [<-|[<-|[]]] H; try reflexivity; vm_compute in H;
      discriminate H. }
  exists w', r. split; [reflexivity|]. split; [exact Hgone|].
  destruct (sweep_removes_only_expired_rows 5 (Cleanup.MkOptions 1000 500000 false false)
              Examples.sweep_world w' r Examples.lapsed Hu Hrun (or_introl eq_refl) Hgone)
    as (m & Hm & Hexp).
  destruct Hm as [<-|[<-|[]]]; [exact Hexp|discriminate Hexp].
Defined.

(** X27.  A real run with a positive batch size that comes to an end
    leaves no row of a swept model that had expired when the run
    started. *)
Theorem sweep_leaves_nothing_expired_at_start
    (fuel : nat) (opts : Cleanup.Options) (w w' : World)
    (res : Z * list Cleanup.Out) (m : PyClass) (x : instance) :
  Cleanup.dry_run opts = false →
  0 < Cleanup.batch_size opts →
  Cleanup.handle fuel opts w = Some (w', Ok res) →
  In m (swept_models opts w) →
  In x (db w') →
  Cleanup.expired_row m (now w) x = false.
Proof.
  intros Hreal Hpos Hrun Hm Hx.
  destruct (handle_real _ _ _ _ _ Hreal Hrun) as (_ & _ & _ & Hres).
  destruct res as [td out]. destruct Hres as [_ Hnone]. now apply Hnone.
Qed.

Lemma sweep_leaves_nothing_expired_at_start_witness :
  ∃ w' res, Cleanup.handle 5 (Cleanup.MkOptions 1 0 true false) Examples.sweep_world
            = Some (w', Ok res)
            ∧ ∀ x, In x (db w') →
                   Cleanup.expired_row Examples.Address Examples.t0 x = false.
Proof.
  destruct (Cleanup.handle 5 (Cleanup.MkOptions 1 0 true false) Examples.sweep_world)
    as [[w' [res|e]]|] eqn:Hrun;
    [|vm_compute in Hrun; discriminate Hrun|vm_compute in Hrun; discriminate Hrun].
  exists w', res. split; [reflexivity|]. intros x Hx.
  apply (sweep_leaves_nothing_expired_at_start 5 (Cleanup.MkOptions 1 0 true false)
           Examples.sweep_world w' res Examples.Address x eq_refl);
    [reflexivity|exact Hrun|now left|exact Hx].
Defined.

(** *** Termination and degenerate batch sizes *)

Lemma models_loop_ends (n : nat) (opts : Cleanup.Options) (models : list PyClass) :
  Cleanup.dry_run opts = false →
  ∀ td out w,
    (length (db w) <= n)%nat →
    ∃ res, Cleanup.models_loop (S n) opts models td out w = Some res.
Proof.
  intros Hreal. induction models as [|m models IH]; intros td out w Hlen.
  - cbn [Cleanup.models_loop]. eauto.
  - cbn [Cleanup.models_loop].
    destruct (real_run_ends n opts m 0 td (out ++ [Cleanup.OutProcessing (cls_name m)])
                w Hreal Hlen) as [[w1 r] Hm].
    rewrite Hm.
    destruct (model_loop_real _ _ _ Hreal _ _ _ _ _ _ Hm) as (_ & Hlen1 & _).
    destruct r as [[[md td1] out1]|e]; [|eauto].
    apply IH. lia.
Qed.

(** X28.  A real run always comes to an end: [handle] returns within
    one batch per row of the table, plus one, for each model, whatever
    the options and the table. *)
Theorem sweep_comes_to_an_end (fuel : nat) (opts : Cleanup.Options) (w : World) :
  Cleanup.dry_run opts = false →
  (length (db w) < fuel)%nat →
  ∃ w' r, Cleanup.handle fuel opts w = Some (w', r).
Proof.
  intros Hreal Hfuel. destruct fuel as [|n]; [lia|].
  unfold Cleanup.handle.
  destruct (if Cleanup.force opts then _ else _) as [|m models]; [eauto|].
  match goal with
  | |- context [Cleanup.models_loop (S n) opts ?ms ?td ?out w] =>
      destruct (models_loop_ends n opts ms Hreal td out w) as [[w1 r] Hloop]; [lia|]
  end.
  rewrite Hloop. destruct r as [[td out]|e]; eauto.
Qed.

Lemma sweep_comes_to_an_end_witness :
  ∃ w' r, Cleanup.handle 3 (Cleanup.MkOptions 1 500000 true false) Examples.sweep_world
          = Some (w', r).
Proof.
  apply sweep_comes_to_an_end; [reflexivity|cbn; lia].
Defined.

Lemma model_loop_batch_zero (fuel : nat) (opts : Cleanup.Options) (model : PyClass)
    md td out w :
  Cleanup.batch_size opts = 0 →
  Cleanup.model_loop (S fuel) opts model md td out w = Some (w, Ok (md, td, out)).
Proof.
  intros Hzero. rewrite model_loop_step. cbv zeta.
  unfold Cleanup.expired_batch. rewrite Hzero. reflexivity.
Qed.

Lemma models_loop_batch_zero (fuel : nat) (opts : Cleanup.Options) (models : list PyClass) :
  Cleanup.batch_size opts = 0 →
  ∀ td out w, ∃ out',
    Cleanup.models_loop (S fuel) opts models td out w = Some (w, Ok (td, out')).
Proof.
  intros Hzero. induction models as [|m models IH]; intros td out w.
  - now exists out.
  - cbn [Cleanup.models_loop]. rewrite model_loop_batch_zero by exact Hzero.
    apply IH.
Qed.

(** X29.  Degenerate batch sizes.  With [--batch-size 0] the command
    deletes nothing, even when expired rows exist, and reports success
    with a total of 0.  With a negative batch size, and at least one
    model to sweep, it raises [ValueError] before it deletes anything. *)
Theorem sweep_with_degenerate_batch_size
    (fuel : nat) (opts : Cleanup.Options) (w : World) :
  (Cleanup.batch_size opts = 0 →
   ∃ out, Cleanup.handle (S fuel) opts w = Some (w, Ok (0, out)))
  ∧ (Cleanup.batch_size opts < 0 →
     swept_models opts w ≠ [] →
     Cleanup.handle (S fuel) opts w = Some (w, Raise ValueError)).
Proof.
  unfold Cleanup.handle. fold (swept_models opts w).
  split.
  - intros Hzero. destruct (swept_models opts w) as [|m models]; [eauto|].
    match goal with
    | |- context [Cleanup.models_loop (S fuel) opts ?ms ?td ?out w] =>
        destruct (models_loop_batch_zero fuel opts ms Hzero td out w) as [out' Hloop]
    end.
    rewrite Hloop. eauto.
  - intros Hneg Hmodels. destruct (swept_models opts w) as [|m models]; [congruence|].
    cbn [Cleanup.models_loop]. rewrite model_loop_step.
    destruct (Z.ltb_spec (Cleanup.batch_size opts) 0); [reflexivity|lia].
Qed.

Lemma sweep_with_degenerate_batch_size_witness :
  (∃ out, Cleanup.handle 1 (Cleanup.MkOptions 0 500000 false false) Examples.sweep_world
          = Some (Examples.sweep_world, Ok (0, out)))
  ∧ Cleanup.handle 1 (Cleanup.MkOptions (-1) 500000 false false) Examples.sweep_world
    = Some (Examples.sweep_world, Raise ValueError).
Proof.
  split.
  - exact (proj1 (sweep_with_degenerate_batch_size 0
                    (Cleanup.MkOptions 0 500000 false false) Examples.sweep_world) eq_refl).
  - apply (proj2 (sweep_with_degenerate_batch_size 0
                    (Cleanup.MkOptions (-1) 500000 false false) Examples.sweep_world)).
    + reflexivity.
    + discriminate.
Defined.
